(** * Mini-news: the news service ([src/services/newsService.js])

    A shallow embedding of the aggregation engine of the news service and
    the properties of its specification.

    - [JS], [JsObject]: the part of the JavaScript library the service
      relies on ([includes], [toLowerCase], [trim], [slice], [||], global
      regular-expression replacement by the empty string, property lookup).
    - [Raw], [Article], [Row], [UserProfile]: the data model.
    - [Effects]: the monad of the service: the answers of the news source,
      identifiers, clock readings, the time zone, database failures and the
      order in which answers arrive come from an environment; exceptions are
      results.  Asynchronous calls that run together ([Promise.all]) are
      processes that stop at each [await]; a scheduler resumes them as the
      answers arrive.
    - [NewsService]: the methods of the class, one definition per method
      (and, for the three that [getPersonalizedNews] starts together, the
      same text once more with its [await]s kept).
    - [Spec]: the predicates and the fixtures the statements use.
    - [NewsCache]: the cache writer, [saveArticleToCache].
    - [NewsRoutes]: the search route of [src/routes/news.js].
    - [Props]: the predicates and the fixtures of the further properties.
    - [JSFacts], [ScoreFacts], [SanitizeFacts], [RunFacts], [RefreshFacts]:
      lemmas; the properties C2 to C6, C9 and C10 follow each group.
    - [StringFacts], [ScoreEdges], [PlainTextFacts], [FrameFacts],
      [ProducerFacts]: lemmas; the further properties X1 to X8 follow each
      group.
    - [AsyncFacts], [JoinFacts], [TaskFacts], [PersonalizedFacts],
      [AloneFacts]: calls that run together, whatever the order of the
      answers; the properties C1, C7 and C8 follow.
    - [LabelFacts], [BucketFacts], [CountFacts], [CacheFacts],
      [SearchFacts]: lemmas; the further properties X9 to X24 follow each
      group. *)

From Stdlib Require Import ZArith List String Ascii Bool Lia.
From Stdlib Require Import Sorted Permutation.
Import ListNotations.

Local Open Scope list_scope.
Local Open Scope string_scope.

(* ================================================================= *)
(** ** JavaScript strings and arrays *)

(** A JavaScript string is a sequence of UTF-16 code units.  The model uses
    [string], whose characters are the code units 0..255 (Basic Latin and
    Latin-1 Supplement); on these, case mapping, white space and the class
    [\w] are the tables below.  Every statement about texts is therefore a
    statement about texts written in these characters; beyond them
    [toLowerCase] is no longer a map of single code units (the lower case of
    a capital sigma depends on its neighbours, that of U+0130 has two code
    units). *)

Module JS.

Definition code (c : ascii) : nat := nat_of_ascii c.

Definition between (lo hi : nat) (c : ascii) : bool :=
  (lo <=? code c)%nat && (code c <=? hi)%nat.

(** [String.prototype.toLowerCase]: A-Z, and U+00C0..U+00DE but U+00D7,
    move 32 places up; every other code unit below 256 maps to itself. *)
Definition lower_char (c : ascii) : ascii :=
  if between 65 90 c || (between 192 222 c && negb (code c =? 215)%nat)
  then ascii_of_nat (code c + 32)
  else c.

Fixpoint toLowerCase (s : string) : string :=
  match s with
  | EmptyString => EmptyString
  | String c r => String (lower_char c) (toLowerCase r)
  end.

(** [s.startsWith(p)] *)
Fixpoint startsWith (s p : string) : bool :=
  match p, s with
  | EmptyString, _ => true
  | String _ _, EmptyString => false
  | String b p', String a s' => Ascii.eqb a b && startsWith s' p'
  end.

(** [s.includes(sub)]: [sub] occurs in [s] at some position. *)
Fixpoint includes (s sub : string) : bool :=
  match s with
  | EmptyString => startsWith EmptyString sub
  | String _ r => startsWith s sub || includes r sub
  end.

(** White space of [String.prototype.trim] below U+0100: TAB, LF, VT, FF,
    CR, SPACE and NO-BREAK SPACE. *)
Definition is_space (c : ascii) : bool :=
  between 9 13 c || (code c =? 32)%nat || (code c =? 160)%nat.

Fixpoint trimStart (s : string) : string :=
  match s with
  | EmptyString => EmptyString
  | String c r => if is_space c then trimStart r else s
  end.

Fixpoint trimEnd (s : string) : string :=
  match s with
  | EmptyString => EmptyString
  | String c r =>
      match trimEnd r with
      | EmptyString => if is_space c then EmptyString else String c EmptyString
      | r' => String c r'
      end
  end.

Definition trim (s : string) : string := trimEnd (trimStart s).

(** The class [\w] of a regular expression without the [u] flag. *)
Definition is_word (c : ascii) : bool :=
  between 48 57 c || between 65 90 c || between 97 122 c || (code c =? 95)%nat.

(** Length of the longest prefix of [s] whose characters satisfy [p]: what
    a greedy [[...]*] consumes. *)
Fixpoint span (p : ascii -> bool) (s : string) : nat :=
  match s with
  | EmptyString => 0
  | String c r => if p c then S (span p r) else 0
  end.

Definition charAt (n : nat) (s : string) : option ascii := String.get n s.

Definition is_char (a : ascii) (o : option ascii) : bool :=
  match o with
  | Some c => Ascii.eqb c a
  | None => false
  end.

(** [s.replace(re, '')] for a global regular expression [re] that matches no
    empty string.  [m t] is the length of the match of [re] that starts at
    the beginning of [t], if there is one; [skip] counts the characters of the
    current match still to be dropped.  The scan resumes after each match, as
    [lastIndex] does. *)
Fixpoint replaceAll (m : string -> option nat) (skip : nat) (s : string) : string :=
  match s with
  | EmptyString => EmptyString
  | String c r =>
      match skip with
      | S k => replaceAll m k r
      | O =>
          match m s with
          | Some (S k) => replaceAll m k r
          | _ => String c (replaceAll m 0 r)
          end
      end
  end.

(** [sub] occurs in [s]: what [includes] decides. *)
Definition Contains (s sub : string) : Prop :=
  exists a b : string, s = a ++ sub ++ b.

(** No suffix of [s] begins with a match of [m]: the regular expression
    matches nowhere in [s]. *)
Fixpoint no_match (m : string -> option nat) (s : string) : bool :=
  match m s with
  | Some _ => false
  | None =>
      match s with
      | EmptyString => true
      | String _ r => no_match m r
      end
  end.

(** [a || d] on a possibly missing string: [undefined], [null] and the empty
    string are falsy. *)
Definition orElse (a : option string) (d : string) : string :=
  match a with
  | Some EmptyString | None => d
  | Some s => s
  end.

(** [arr.slice(0, e)] for an integer [e]: a negative [e] counts from the
    end of the array. *)
Definition slice0 {A : Type} (e : Z) (l : list A) : list A :=
  if (e <? 0)%Z
  then firstn (Z.to_nat (Z.max (Z.of_nat (List.length l) + e) 0)) l
  else firstn (Z.to_nat e) l.

End JS.

(** Property lookup [o[k]] on an object literal used as a table.  The keys of
    the literal are own properties; every other key is looked up on
    [Object.prototype], whose properties are functions, but [__proto__],
    which is the prototype object itself: all truthy, none an array. *)
Module JsObject.

Inductive Property (V : Type) : Type :=
| Own (v : V)
| Inherited
| Undefined.
Arguments Own {V} v.
Arguments Inherited {V}.
Arguments Undefined {V}.

Definition Object_prototype : list string :=
  [ "constructor"; "hasOwnProperty"; "isPrototypeOf"; "propertyIsEnumerable";
    "toLocaleString"; "toString"; "valueOf"; "__proto__";
    "__defineGetter__"; "__defineSetter__"; "__lookupGetter__";
    "__lookupSetter__" ].

Definition get {V : Type} (o : list (string * V)) (k : string) : Property V :=
  match find (fun p => String.eqb (fst p) k) o with
  | Some (_, v) => Own v
  | None => if existsb (String.eqb k) Object_prototype then Inherited else Undefined
  end.

End JsObject.

(* ================================================================= *)
(** ** Data model *)

(** Hours, minutes and seconds in milliseconds. *)
Definition HOUR : Z := 3600000.
Definition MINUTE : Z := 60000.
Definition SECOND : Z := 1000.

(** The [publishedAt] field of an upstream article, as [moment(...)] reads
    it: a missing field ([moment(undefined)] is the current time), [null] or
    an unparsable text (an invalid moment), or an instant in milliseconds
    since the epoch. *)
Inductive PublishedAt : Type :=
| PubMissing
| PubInvalid
| PubAt (ms : Z).

(** An article as the external news source returns it. *)
Module Raw.
Record Source : Type := mkSource
  { name : option string;
    url : option string }.

Record t : Type := mk
  { title : option string;
    description : option string;
    link : option string;          (* url *)
    urlToImage : option string;
    publishedAt : PublishedAt;
    source : option Source }.
End Raw.

(** An article as the engine returns it. *)
Record Article : Type := mkArticle
  { id : string;
    title : string;
    description : string;
    url : option string;
    image_url : option string;
    published_at : PublishedAt;
    source_name : string;
    source_url : string;
    category : string;
    location_type : option string;
    location_value : option string;
    industry : option string;
    relevance_score : Z }.

(** A row of the table [news_articles]: the cached article and the text
    [CURRENT_TIMESTAMP] left in [created_at] when the row was written.  A
    text of the layout [YYYY-MM-DD HH:MM:SS] is kept as the number of seconds
    of its civil time since 1970-01-01 00:00:00; for the years 0000 to 9999
    the order of the texts is the order of these numbers. *)
Record Row : Type := mkRow
  { row_article : Article;
    created_at : Z }.

Record UserProfile : Type := mkProfile
  { city : string;
    state : string;
    country : string;
    career_field : string }.

Record PersonalizedNews : Type := mkNews
  { local : list Article;
    regional : list Article;
    national : list Article;
    industry_news : list Article;   (* industry *)
    global : list Article }.

(* ================================================================= *)
(** ** Effects *)

Module Effects.

(** The answer of the news source to one request: a 2xx response with a
    body, whose [articles] is an array of articles or is missing (or
    otherwise falsy); a 2xx response without a body ([response.data] is
    [null] or [undefined]); or a failure (time-out, other status, network
    error). *)
Inductive Outcome : Type :=
| Resolved (articles : option (list Raw.t))
| NoBody
| Rejected (message : string).

(** What the service cannot decide: the answer to its [k]-th request, the
    [k]-th identifier drawn, the [k]-th reading of the clock (milliseconds
    since the epoch), the offset of the local time zone from UTC in minutes,
    whether the [k]-th statement sent to the database fails, and, when
    several calls wait for an answer, whose answer arrives next ([arrival k n]
    after [k] requests with [n] calls waiting). *)
Record Env : Type := mkEnv
  { upstream : nat -> string -> Z -> Outcome;
    uuids : nat -> string;
    clock : nat -> Z;
    utcOffset : Z;
    db_fails : nat -> bool;
    arrival : nat -> nat -> nat }.

Record World : Type := mkWorld
  { requests : list (string * Z);     (* outbound requests so far: q, pageSize *)
    drawn : nat;                       (* identifiers drawn *)
    ticks : nat;                       (* clock readings *)
    statements : nat;                  (* database statements run *)
    news_articles : list Row;          (* the cache table *)
    lastRefresh : option Z }.

Inductive Res (A : Type) : Type :=
| Ok (a : A)
| Throw (e : string).
Arguments Ok {A} a.
Arguments Throw {A} e.

Definition M (A : Type) : Type := Env -> World -> Res A * World.

Definition ret {A} (a : A) : M A := fun _ w => (Ok a, w).

Definition throw {A} (e : string) : M A := fun _ w => (Throw e, w).

Definition bind {A B} (m : M A) (k : A -> M B) : M B :=
  fun env w =>
    match m env w with
    | (Ok a, w') => k a env w'
    | (Throw e, w') => (Throw e, w')
    end.

(** [try { m } catch (error) { h error }] *)
Definition try_catch {A} (m : M A) (h : string -> M A) : M A :=
  fun env w =>
    match m env w with
    | (Ok a, w') => (Ok a, w')
    | (Throw e, w') => h e env w'
    end.

Declare Scope js_scope.
Delimit Scope js_scope with js.
Notation "x <- c1 ;; c2" := (bind c1 (fun x => c2))
  (at level 100, c1 at next level, right associativity) : js_scope.
Notation "c1 ;;; c2" := (bind c1 (fun _ => c2))
  (at level 100, right associativity) : js_scope.
Local Open Scope js_scope.

(** [arr.map(f)] with a callback that has effects. *)
Fixpoint mapM {A B} (f : A -> M B) (l : list A) : M (list B) :=
  match l with
  | [] => ret []
  | a :: r => b <- f a ;; bs <- mapM f r ;; ret (b :: bs)
  end.

(** [for (const x of xs) body]: the loop carries the array it pushes to. *)
Fixpoint for_of {A S} (xs : list A) (body : S -> A -> M S) (acc : S) : M S :=
  match xs with
  | [] => ret acc
  | x :: r => acc' <- body acc x ;; for_of r body acc'
  end.

(** [axios.get(url, {params: {q, pageSize, ...}, timeout})]: [response.data],
    if the response has a body, with its [articles], if it has any. *)
Definition axios_get (q : string) (pageSize : Z) : M (option (option (list Raw.t))) :=
  fun env w =>
    let k := List.length (requests w) in
    let w' := mkWorld (requests w ++ [(q, pageSize)])%list (drawn w) (ticks w)
                      (statements w) (news_articles w) (lastRefresh w) in
    match upstream env k q pageSize with
    | Resolved articles => (Ok (Some articles), w')
    | NoBody => (Ok None, w')
    | Rejected msg => (Throw msg, w')
    end.

(** [uuidv4()] *)
Definition uuidv4 : M string :=
  fun env w =>
    (Ok (uuids env (drawn w)),
     mkWorld (requests w) (S (drawn w)) (ticks w)
             (statements w) (news_articles w) (lastRefresh w)).

(** [moment()], [new Date()]: the current time in milliseconds. *)
Definition moment : M Z :=
  fun env w =>
    (Ok (clock env (ticks w)),
     mkWorld (requests w) (drawn w) (S (ticks w))
             (statements w) (news_articles w) (lastRefresh w)).

(** [m.format('YYYY-MM-DD HH:mm:ss')]: the civil time of the instant [t] in
    the local time zone, to the second. *)
Definition format_local (t : Z) : M Z :=
  fun env w => (Ok ((t + utcOffset env * MINUTE) / SECOND)%Z, w).

(** [CURRENT_TIMESTAMP] of SQLite at the instant [t]: civil time in UTC, to
    the second. *)
Definition CURRENT_TIMESTAMP (t : Z) : Z := (t / SECOND)%Z.

(** [runQuery('DELETE FROM news_articles WHERE created_at < ?', [bound])] *)
Definition runQuery_delete_older (bound : Z) : M unit :=
  fun env w =>
    let k := statements w in
    if db_fails env k
    then (Throw "SQLITE_ERROR",
          mkWorld (requests w) (drawn w) (ticks w) (S k)
                  (news_articles w) (lastRefresh w))
    else (Ok tt,
          mkWorld (requests w) (drawn w) (ticks w) (S k)
                  (filter (fun r => negb (created_at r <? bound)%Z) (news_articles w))
                  (lastRefresh w)).

Definition set_lastRefresh (t : Z) : M unit :=
  fun _ w =>
    (Ok tt,
     mkWorld (requests w) (drawn w) (ticks w) (statements w)
             (news_articles w) (Some t)).

(** *** Asynchronous calls

    A call of an asynchronous function runs until its first [await], and from
    the arrival of an answer to the next [await].  In [M] a call is awaited on
    its own; [Promise.all] starts several, and their stretches of code
    alternate in the order in which the answers arrive. *)

(** A started call: settled, with its result or its error, or waiting for
    the answer to the request [q], [pageSize] it has sent; [resume] is the code
    that runs on the answer, up to the next [await] or to the end. *)
#[local] Unset Elimination Schemes.
Inductive Proc (A : Type) : Type :=
| Settled (r : Res A)
| Awaiting (q : string) (pageSize : Z)
           (resume : Outcome -> Env -> World -> Proc A * World).
#[local] Set Elimination Schemes.
Arguments Settled {A} r.
Arguments Awaiting {A} q pageSize resume.

(** Induction on a started call: what holds of settled calls, and of a
    waiting call when it holds of the call after every answer, holds of
    every call. *)
Fixpoint Proc_induction {A} (P : Proc A -> Prop)
         (HS : forall r, P (Settled r))
         (HA : forall q n resume,
             (forall o env w, P (fst (resume o env w))) -> P (Awaiting q n resume))
         (p : Proc A) : P p :=
  match p with
  | Settled r => HS r
  | Awaiting q n resume =>
      HA q n resume (fun o env w => Proc_induction P HS HA (fst (resume o env w)))
  end.

(** An asynchronous function: called, it runs up to its first [await]. *)
Definition Task (A : Type) : Type := Env -> World -> Proc A * World.

Definition task_ret {A} (a : A) : Task A := fun _ w => (Settled (Ok a), w).

Definition task_throw {A} (e : string) : Task A := fun _ w => (Settled (Throw e), w).

(** Code without [await]. *)
Definition sync {A} (m : M A) : Task A :=
  fun env w => let (r, w') := m env w in (Settled r, w').

Fixpoint bindP {A B} (p : Proc A) (k : A -> Task B) : Task B :=
  fun env w =>
    match p with
    | Settled (Ok a) => k a env w
    | Settled (Throw e) => (Settled (Throw e), w)
    | Awaiting q n resume =>
        (Awaiting q n (fun o env' w' =>
                         let (p', w'') := resume o env' w' in bindP p' k env' w''),
         w)
    end.

Definition task_bind {A B} (t : Task A) (k : A -> Task B) : Task B :=
  fun env w => let (p, w') := t env w in bindP p k env w'.

(** [try { ... await ... } catch (error) { h error }] *)
Fixpoint catchP {A} (p : Proc A) (h : string -> Task A) : Task A :=
  fun env w =>
    match p with
    | Settled (Ok a) => (Settled (Ok a), w)
    | Settled (Throw e) => h e env w
    | Awaiting q n resume =>
        (Awaiting q n (fun o env' w' =>
                         let (p', w'') := resume o env' w' in catchP p' h env' w''),
         w)
    end.

Definition task_try {A} (t : Task A) (h : string -> Task A) : Task A :=
  fun env w => let (p, w') := t env w in catchP p h env w'.

Declare Scope task_scope.
Delimit Scope task_scope with task.
Notation "x <- c1 ;; c2" := (task_bind c1 (fun x => c2))
  (at level 100, c1 at next level, right associativity) : task_scope.

(** [await axios.get(url, {params: {q, pageSize, ...}, timeout})] *)
Definition await_axios_get (q : string) (pageSize : Z)
  : Task (option (option (list Raw.t))) :=
  fun _ w =>
    (Awaiting q pageSize
              (fun o _ w' =>
                 (Settled (match o with
                           | Resolved articles => Ok (Some articles)
                           | NoBody => Ok None
                           | Rejected msg => Throw msg
                           end), w')),
     w).

(** [for (const x of xs) body] with [await] in the body. *)
Fixpoint task_for_of {A S} (xs : list A) (body : S -> A -> Task S) (acc : S) : Task S :=
  match xs with
  | [] => task_ret acc
  | x :: r => task_bind (body acc x) (task_for_of r body)
  end.

(** The request of a call that has just stopped at an [await] goes out: it
    is the [k]-th request, [k] being returned. *)
Definition send {A} (p : Proc A) (w : World) : nat * World :=
  match p with
  | Awaiting q n _ =>
      (List.length (requests w),
       mkWorld (requests w ++ [(q, n)])%list (drawn w) (ticks w)
               (statements w) (news_articles w) (lastRefresh w))
  | Settled _ => (0%nat, w)
  end.

(** A call awaited on its own: each answer resumes it. *)
Fixpoint aloneP {A} (p : Proc A) : M A :=
  fun env w =>
    match p with
    | Settled r => (r, w)
    | Awaiting q n resume =>
        let (k, w1) := send p w in
        let (p', w2) := resume (upstream env k q n) env w1 in
        aloneP p' env w2
    end.

Definition alone {A} (t : Task A) : M A :=
  fun env w => let (p, w') := t env w in aloneP p env w'.

(** The error [Promise.all] rejects with is that of the call that threw
    first: [err] once a call has thrown, and the error of [p] when [p] is
    the first to settle by throwing. *)
Definition first_error {A} (err : option string) (p : Proc A) : option string :=
  match err, p with
  | Some e, _ => Some e
  | None, Settled (Throw e) => Some e
  | None, _ => None
  end.

(** Three started calls; [ka], [kb], [kc] number the requests of those that
    wait.  One step: when none waits, the three results, with the first
    error [err]; otherwise the answer to one of the waiting calls arrives,
    chosen by [arrival], and that call runs on ([run_a], [run_b], [run_c]). *)
Definition schedule {A B C} (env : Env)
           (run_a : Proc A -> World -> (option string * (Res A * Res B * Res C)) * World)
           (run_b : Proc B -> World -> (option string * (Res A * Res B * Res C)) * World)
           (run_c : Proc C -> World -> (option string * (Res A * Res B * Res C)) * World)
           (pa : Proc A) (ka : nat) (pb : Proc B) (kb : nat)
           (pc : Proc C) (kc : nat) (err : option string) (w : World)
  : (option string * (Res A * Res B * Res C)) * World :=
  let next := arrival env (List.length (requests w)) in
  match pa, pb, pc with
  | Settled ra, Settled rb, Settled rc => ((err, (ra, rb, rc)), w)
  | Awaiting qa na fa, Settled _, Settled _ =>
      let (p, w') := fa (upstream env ka qa na) env w in run_a p w'
  | Settled _, Awaiting qb nb fb, Settled _ =>
      let (p, w') := fb (upstream env kb qb nb) env w in run_b p w'
  | Settled _, Settled _, Awaiting qc nc fc =>
      let (p, w') := fc (upstream env kc qc nc) env w in run_c p w'
  | Awaiting qa na fa, Awaiting qb nb fb, Settled _ =>
      if Nat.even (next 2%nat)
      then let (p, w') := fa (upstream env ka qa na) env w in run_a p w'
      else let (p, w') := fb (upstream env kb qb nb) env w in run_b p w'
  | Awaiting qa na fa, Settled _, Awaiting qc nc fc =>
      if Nat.even (next 2%nat)
      then let (p, w') := fa (upstream env ka qa na) env w in run_a p w'
      else let (p, w') := fc (upstream env kc qc nc) env w in run_c p w'
  | Settled _, Awaiting qb nb fb, Awaiting qc nc fc =>
      if Nat.even (next 2%nat)
      then let (p, w') := fb (upstream env kb qb nb) env w in run_b p w'
      else let (p, w') := fc (upstream env kc qc nc) env w in run_c p w'
  | Awaiting qa na fa, Awaiting qb nb fb, Awaiting qc nc fc =>
      match Nat.modulo (next 3%nat) 3 with
      | 0%nat => let (p, w') := fa (upstream env ka qa na) env w in run_a p w'
      | 1%nat => let (p, w') := fb (upstream env kb qb nb) env w in run_b p w'
      | _ => let (p, w') := fc (upstream env kc qc nc) env w in run_c p w'
      end
  end.

(** The three calls run until all are settled; a call that stops at an
    [await] sends its request at once.  A call that throws does not stop the
    others. *)
Fixpoint settle3 {A B C} (env : Env) (pa : Proc A)
  : nat -> Proc B -> nat -> Proc C -> nat -> option string -> World
    -> (option string * (Res A * Res B * Res C)) * World :=
  fun ka =>
    fix settle_b (pb : Proc B)
      : nat -> Proc C -> nat -> option string -> World
        -> (option string * (Res A * Res B * Res C)) * World :=
      fun kb =>
        fix settle_c (pc : Proc C)
          : nat -> option string -> World
            -> (option string * (Res A * Res B * Res C)) * World :=
          fun kc err w =>
            schedule env
              (fun pa' w' => let (ka', w'') := send pa' w' in
                             settle3 env pa' ka' pb kb pc kc (first_error err pa') w'')
              (fun pb' w' => let (kb', w'') := send pb' w' in
                             settle_b pb' kb' pc kc (first_error err pb') w'')
              (fun pc' w' => let (kc', w'') := send pc' w' in
                             settle_c pc' kc' (first_error err pc') w'')
              pa ka pb kb pc kc err w.

(** [await Promise.all([a(), b(), c()])]: the three functions are called in
    order, each running up to its first [await]; then the calls run on as
    the answers arrive, all three to their end, since nothing cancels a call
    whose neighbour threw.  The result is the three values, or the error of
    the call that threw first; the world is the one the last call leaves.
    (Without an error every call has returned: the last three cases of the
    [match] never occur.) *)
Definition Promise_all3 {A B C} (a : Task A) (b : Task B) (c : Task C)
  : M (A * B * C) :=
  fun env w =>
    let (pa, w1) := a env w in
    let (ka, w2) := send pa w1 in
    let (pb, w3) := b env w2 in
    let (kb, w4) := send pb w3 in
    let (pc, w5) := c env w4 in
    let (kc, w6) := send pc w5 in
    let err := first_error (first_error (first_error None pa) pb) pc in
    let (settled, w') := settle3 env pa ka pb kb pc kc err w6 in
    match settled with
    | (Some e, _) => (Throw e, w')
    | (None, (Ok x, Ok y, Ok z)) => (Ok (x, y, z), w')
    | (None, (Throw e, _, _)) => (Throw e, w')
    | (None, (_, Throw e, _)) => (Throw e, w')
    | (None, (_, _, Throw e)) => (Throw e, w')
    end.

End Effects.

(* ================================================================= *)
(** ** The news service *)

Module NewsService.
Import Effects.
Local Open Scope string_scope.
Local Open Scope js_scope.

(** Career field to industry mapping *)
Definition CAREER_INDUSTRIES : list (string * list string) :=
  [ ("technology", ["technology"; "startups"; "artificial intelligence"; "cybersecurity"]);
    ("finance", ["finance"; "banking"; "cryptocurrency"; "fintech"; "stock market"]);
    ("healthcare", ["healthcare"; "medical"; "pharmaceutical"; "biotech"]);
    ("real_estate", ["real estate"; "property"; "construction"; "housing market"]);
    ("retail", ["retail"; "e-commerce"; "consumer goods"; "fashion"]);
    ("energy", ["energy"; "oil"; "renewable energy"; "utilities"]);
    ("manufacturing", ["manufacturing"; "automotive"; "aerospace"; "industrial"]);
    ("consulting", ["consulting"; "business services"; "management"]);
    ("legal", ["legal"; "law"; "compliance"; "regulatory"]);
    ("marketing", ["marketing"; "advertising"; "digital marketing"; "social media"]) ].

(** [/<[^>]*>/]: the match that starts at the beginning of [s]. *)
Definition match_tag (s : string) : option nat :=
  match s with
  | String c r =>
      if Ascii.eqb c "<" then
        let n := JS.span (fun c => negb (Ascii.eqb c ">")) r in
        if JS.is_char ">" (JS.charAt n r) then Some (n + 2) else None
      else None
  | EmptyString => None
  end.

(** [/&[#\w]+;/]: the match that starts at the beginning of [s].  The
    character after the longest run of [[#\w]] decides: a shorter run is
    followed by a character of the class, never by [;]. *)
Definition match_entity (s : string) : option nat :=
  match s with
  | String c r =>
      if Ascii.eqb c "&" then
        let n := JS.span (fun c => Ascii.eqb c "#" || JS.is_word c) r in
        if (0 <? n)%nat && JS.is_char ";" (JS.charAt n r) then Some (n + 2) else None
      else None
  | EmptyString => None
  end.

Definition strip_tags (s : string) : string := JS.replaceAll match_tag 0 s.
Definition strip_entities (s : string) : string := JS.replaceAll match_entity 0 s.

Definition sanitizeText (text : option string) : string :=
  match text with
  | None | Some EmptyString => ""
  | Some s => JS.trim (strip_entities (strip_tags s))
  end.

Definition getLocationType (query : string) : string :=
  if JS.includes query "business" then "local"
  else if JS.includes query "economy" then "regional"
  else "national".

Definition getLocationValue (query city state country : string) : string :=
  if JS.includes query city then city
  else if JS.includes query state then state
  else country.

(** [moment(article.publishedAt)] at the instant [now]; [None] is an invalid
    moment. *)
Definition moment_of (now : Z) (p : PublishedAt) : option Z :=
  match p with
  | PubMissing => Some now
  | PubInvalid => None
  | PubAt t => Some t
  end.

(** [moment().diff(publishedAt, 'hours')]: whole hours, rounded towards
    zero; [None] is NaN. *)
Definition hoursAgo (now : Z) (p : PublishedAt) : option Z :=
  match moment_of now p with
  | Some t => Some (Z.quot (now - t) HOUR)
  | None => None
  end.

(** [x < n] on a number that may be NaN. *)
Definition lt_num (x : option Z) (n : Z) : bool :=
  match x with
  | Some v => (v <? n)%Z
  | None => false
  end.

Definition trustedSources : list string :=
  ["Reuters"; "Bloomberg"; "Wall Street Journal"; "Financial Times"].

Definition sourceName (article : Raw.t) : option string :=
  match Raw.source article with
  | Some s => Raw.name s
  | None => None
  end.

Definition sourceUrl (article : Raw.t) : option string :=
  match Raw.source article with
  | Some s => Raw.url s
  | None => None
  end.

(** [calculateRelevanceScore(article, keyword)], [now] being what [moment()]
    returns during the call. *)
Definition calculateRelevanceScore (now : Z) (article : Raw.t) (keyword : string) : Z :=
  let score := 0%Z in
  let title := JS.toLowerCase (JS.orElse (Raw.title article) "") in
  let description := JS.toLowerCase (JS.orElse (Raw.description article) "") in
  let searchTerm := JS.toLowerCase keyword in
  let score := if JS.includes title searchTerm then (score + 3)%Z else score in
  let score := if JS.includes description searchTerm then (score + 2)%Z else score in
  let hours := hoursAgo now (Raw.publishedAt article) in
  let score :=
    if lt_num hours 6 then (score + 2)%Z
    else if lt_num hours 24 then (score + 1)%Z
    else score in
  let score :=
    if existsb (fun source => JS.includes (JS.orElse (sourceName article) "") source)
               trustedSources
    then (score + 2)%Z else score in
  Z.min score 10.

Definition getMockNewsData (query : string) : M (list Raw.t) :=
  t0 <- moment ;;
  t1 <- moment ;;
  t2 <- moment ;;
  ret
    [ Raw.mk (Some ("Breaking: Major " ++ query ++ " Development Announced"))
             (Some ("Important news in the " ++ query
                    ++ " sector affecting business operations and market trends."))
             (Some "https://example.com/news/1")
             (Some "https://via.placeholder.com/400x200?text=News+Image")
             (PubAt t0)
             (Some (Raw.mkSource (Some "Business Times") None));
      Raw.mk (Some (query ++ " Market Shows Strong Growth This Quarter"))
             (Some ("Analysis of recent " ++ query
                    ++ " market performance and future outlook for investors."))
             (Some "https://example.com/news/2")
             (Some "https://via.placeholder.com/400x200?text=Market+News")
             (PubAt (t1 - 1 * HOUR))
             (Some (Raw.mkSource (Some "Economic Daily") None));
      Raw.mk (Some ("Innovation in " ++ query ++ ": What Business Leaders Need to Know"))
             (Some ("Expert insights on emerging trends in " ++ query
                    ++ " and their impact on business strategy."))
             (Some "https://example.com/news/3")
             (Some "https://via.placeholder.com/400x200?text=Innovation+News")
             (PubAt (t2 - 2 * HOUR))
             (Some (Raw.mkSource (Some "Industry Weekly") None)) ].

Definition fetchNewsFromAPI (query : string) (pageSize : Z) : M (list Raw.t) :=
  try_catch
    (data <- axios_get query pageSize ;;
     match data with
     | Some articles => ret (match articles with Some l => l | None => [] end)
     | None => throw "TypeError: Cannot read properties of null (reading 'articles')"
     end)
    (fun _error => getMockNewsData query).

Definition getLocationBasedNews (city state country : string) (limit : Z)
  : M (list Article) :=
  let queries :=
    [ city ++ " business";
      state ++ " economy";
      country ++ " business news" ] in
  allNews <-
    for_of queries
      (fun allNews query =>
         articles <- fetchNewsFromAPI query limit ;;
         processedArticles <-
           mapM (fun article =>
                   uuid <- uuidv4 ;;
                   now <- moment ;;
                   ret (mkArticle
                          uuid
                          (sanitizeText (Raw.title article))
                          (sanitizeText (Raw.description article))
                          (Raw.link article)
                          (Raw.urlToImage article)
                          (Raw.publishedAt article)
                          (JS.orElse (sourceName article) "Unknown")
                          (JS.orElse (sourceUrl article) "")
                          "business"
                          (Some (getLocationType query))
                          (Some (getLocationValue query city state country))
                          None
                          (calculateRelevanceScore now article query)))
                articles ;;
         ret (allNews ++ processedArticles)%list)
      [] ;;
  ret (JS.slice0 (limit * 3) allNews).

Definition getIndustryNews (careerField : string) (limit : Z) : M (list Article) :=
  industries <-
    match JsObject.get CAREER_INDUSTRIES careerField with
    | JsObject.Own l => ret l
    | JsObject.Undefined => ret [careerField]
    | JsObject.Inherited => throw "TypeError: industries.slice is not a function"
    end ;;
  allNews <-
    for_of (JS.slice0 2 industries)
      (fun allNews industry =>
         articles <- fetchNewsFromAPI (industry ++ " business news") limit ;;
         processedArticles <-
           mapM (fun article =>
                   uuid <- uuidv4 ;;
                   now <- moment ;;
                   ret (mkArticle
                          uuid
                          (sanitizeText (Raw.title article))
                          (sanitizeText (Raw.description article))
                          (Raw.link article)
                          (Raw.urlToImage article)
                          (Raw.publishedAt article)
                          (JS.orElse (sourceName article) "Unknown")
                          (JS.orElse (sourceUrl article) "")
                          "industry"
                          None
                          None
                          (Some industry)
                          (calculateRelevanceScore now article industry)))
                articles ;;
         ret (allNews ++ processedArticles)%list)
      [] ;;
  ret (JS.slice0 limit allNews).

(** The three functions as [getPersonalizedNews] starts them: not awaited
    one after the other but called together, so that each stops at its
    [await]s while the others run.  The text is that of [fetchNewsFromAPI],
    [getLocationBasedNews] and [getIndustryNews] above, with the [await]s
    kept. *)
Definition fetchNewsFromAPI_task (query : string) (pageSize : Z) : Task (list Raw.t) :=
  task_try
    (data <- await_axios_get query pageSize ;;
     match data with
     | Some articles => task_ret (match articles with Some l => l | None => [] end)
     | None => task_throw "TypeError: Cannot read properties of null (reading 'articles')"
     end)%task
    (fun _error => sync (getMockNewsData query)).

Definition getLocationBasedNews_task (city state country : string) (limit : Z)
  : Task (list Article) :=
  let queries :=
    [ city ++ " business";
      state ++ " economy";
      country ++ " business news" ] in
  (allNews <-
     task_for_of queries
       (fun allNews query =>
          articles <- fetchNewsFromAPI_task query limit ;;
          processedArticles <-
            sync
              (mapM (fun article =>
                       (uuid <- uuidv4 ;;
                        now <- moment ;;
                        ret (mkArticle
                               uuid
                               (sanitizeText (Raw.title article))
                               (sanitizeText (Raw.description article))
                               (Raw.link article)
                               (Raw.urlToImage article)
                               (Raw.publishedAt article)
                               (JS.orElse (sourceName article) "Unknown")
                               (JS.orElse (sourceUrl article) "")
                               "business"
                               (Some (getLocationType query))
                               (Some (getLocationValue query city state country))
                               None
                               (calculateRelevanceScore now article query)))%js)
                    articles) ;;
          task_ret (allNews ++ processedArticles)%list)
       [] ;;
   task_ret (JS.slice0 (limit * 3) allNews))%task.

Definition getIndustryNews_task (careerField : string) (limit : Z)
  : Task (list Article) :=
  (industries <-
     match JsObject.get CAREER_INDUSTRIES careerField with
     | JsObject.Own l => task_ret l
     | JsObject.Undefined => task_ret [careerField]
     | JsObject.Inherited => task_throw "TypeError: industries.slice is not a function"
     end ;;
   allNews <-
     task_for_of (JS.slice0 2 industries)
       (fun allNews industry =>
          articles <- fetchNewsFromAPI_task (industry ++ " business news") limit ;;
          processedArticles <-
            sync
              (mapM (fun article =>
                       (uuid <- uuidv4 ;;
                        now <- moment ;;
                        ret (mkArticle
                               uuid
                               (sanitizeText (Raw.title article))
                               (sanitizeText (Raw.description article))
                               (Raw.link article)
                               (Raw.urlToImage article)
                               (Raw.publishedAt article)
                               (JS.orElse (sourceName article) "Unknown")
                               (JS.orElse (sourceUrl article) "")
                               "industry"
                               None
                               None
                               (Some industry)
                               (calculateRelevanceScore now article industry)))%js)
                    articles) ;;
          task_ret (allNews ++ processedArticles)%list)
       [] ;;
   task_ret (JS.slice0 limit allNews))%task.

Definition has_location_type (ty : string) (n : Article) : bool :=
  match location_type n with
  | Some v => String.eqb v ty
  | None => false
  end.

Definition getPersonalizedNews (userProfile : UserProfile) : M PersonalizedNews :=
  try_catch
    (let city := city userProfile in
     let state := state userProfile in
     let country := country userProfile in
     let career_field := career_field userProfile in
     fetched <-
       Promise_all3
         (getLocationBasedNews_task city state country 5)
         (getIndustryNews_task career_field 5)
         (fetchNewsFromAPI_task "global business economy" 5) ;;
     let '(locationNews, industryNews, globalNews) := fetched in
     processedGlobalNews <-
       mapM (fun article =>
               uuid <- uuidv4 ;;
               now <- moment ;;
               ret (mkArticle
                      uuid
                      (sanitizeText (Raw.title article))
                      (sanitizeText (Raw.description article))
                      (Raw.link article)
                      (Raw.urlToImage article)
                      (Raw.publishedAt article)
                      (JS.orElse (sourceName article) "Unknown")
                      (JS.orElse (sourceUrl article) "")
                      "global"
                      (Some "global")
                      None
                      None
                      (calculateRelevanceScore now article "business")))
            globalNews ;;
     ret (mkNews
            (JS.slice0 5 (filter (has_location_type "local") locationNews))
            (JS.slice0 5 (filter (has_location_type "regional") locationNews))
            (JS.slice0 5 (filter (has_location_type "national") locationNews))
            (JS.slice0 5 industryNews)
            (JS.slice0 5 processedGlobalNews)))
    (fun _error => throw "Failed to fetch personalized news").

Definition refreshNewsCache : M unit :=
  try_catch
    (now <- moment ;;
     sixHoursAgo <- format_local (now - 6 * HOUR) ;;
     runQuery_delete_older sixHoursAgo ;;;
     today <- moment ;;
     set_lastRefresh today)
    (fun _error => ret tt).

End NewsService.

(* ================================================================= *)
(** ** Predicates and fixtures of the statements *)

Module Spec.
Import NewsService.
Local Open Scope Z_scope.

(** The article was published within the last [hours] hours before [now]:
    it carries a publication time, which is not after [now] and is less
    than [hours] hours before it. *)
Definition publishedWithin (hours now : Z) (article : Raw.t) : bool :=
  match Raw.publishedAt article with
  | PubAt t => (t <=? now) && (now - t <? hours * HOUR)
  | PubMissing | PubInvalid => false
  end.

(** [n] points when [b] holds. *)
Definition points (n : Z) (b : bool) : Z := if b then n else 0.

(** The additive score of section 4.4: 3 for the title, 2 for the
    description, 2 or 1 for recency, 2 for a trusted source, capped at 10. *)
Definition score_by_spec (now : Z) (article : Raw.t) (keyword : string) : Z :=
  let term := JS.toLowerCase keyword in
  Z.min
    (points 3 (JS.includes (JS.toLowerCase (JS.orElse (Raw.title article) "")) term)
     + points 2 (JS.includes (JS.toLowerCase (JS.orElse (Raw.description article) "")) term)
     + (if publishedWithin 6 now article then 2
        else if publishedWithin 24 now article then 1 else 0)
     + points 2 (existsb (fun s => JS.includes (JS.orElse (sourceName article) "") s)
                         trustedSources))
    10.

(** The recency points as the code gives them: an article without a
    [publishedAt] field counts as published at the call, a publication time
    after the call as recent, and an unreadable one as old. *)
Definition recency_points (now : Z) (p : PublishedAt) : Z :=
  match p with
  | PubMissing => 2
  | PubInvalid => 0
  | PubAt t =>
      if now - t <? 6 * HOUR then 2
      else if now - t <? 24 * HOUR then 1 else 0
  end.

(** The additive score with these recency points. *)
Definition score_amended (now : Z) (article : Raw.t) (keyword : string) : Z :=
  let term := JS.toLowerCase keyword in
  Z.min
    (points 3 (JS.includes (JS.toLowerCase (JS.orElse (Raw.title article) "")) term)
     + points 2 (JS.includes (JS.toLowerCase (JS.orElse (Raw.description article) "")) term)
     + recency_points now (Raw.publishedAt article)
     + points 2 (existsb (fun s => JS.includes (JS.orElse (sourceName article) "") s)
                         trustedSources))
    10.

(** [>] occurs in [s]. *)
Fixpoint has_gt (s : string) : bool :=
  match s with
  | EmptyString => false
  | String c r => Ascii.eqb c ">" || has_gt r
  end.

(** No [<] of [s] has a [>] somewhere after it. *)
Fixpoint closed_before_open (s : string) : bool :=
  match s with
  | EmptyString => true
  | String c r => (negb (Ascii.eqb c "<") || negb (has_gt r)) && closed_before_open r
  end.

(** [s] does not begin with white space. *)
Definition starts_inside (s : string) : bool :=
  match s with
  | EmptyString => true
  | String c _ => negb (JS.is_space c)
  end.

(** The requests of one personalized-news call, group by group. *)
Definition location_queries (city state country : string) (limit : Z)
  : list (string * Z) :=
  [ (city ++ " business", limit);
    (state ++ " economy", limit);
    (country ++ " business news", limit) ].

Definition industry_queries (careerField : string) (limit : Z) : list (string * Z) :=
  match JsObject.get CAREER_INDUSTRIES careerField with
  | JsObject.Own l => map (fun i => (i ++ " business news", limit)) (firstn 2 l)
  | JsObject.Undefined => [(careerField ++ " business news", limit)]
  | JsObject.Inherited => []
  end.

Definition global_query : string * Z := ("global business economy", 5).

Definition requests_of (p : UserProfile) : list (string * Z) :=
  (location_queries (city p) (state p) (country p) 5
   ++ industry_queries (career_field p) 5
   ++ [global_query])%list.

(** What the three producers put in [category] and [location_type]. *)
Definition location_article (a : Article) : Prop :=
  category a = "business"
  /\ In (location_type a) [Some "local"; Some "regional"; Some "national"].

Definition industry_article (a : Article) : Prop :=
  category a = "industry" /\ location_type a = None.

Definition global_article (a : Article) : Prop :=
  category a = "global" /\ location_type a = Some "global".

(** The five values the data model of the specification gives [category]. *)
Definition spec_categories : list string :=
  ["local"; "regional"; "national"; "industry"; "global"].

(** [k] strokes, to tell identifiers apart. *)
Fixpoint tally (k : nat) : string :=
  match k with
  | O => ""
  | S n => String "i" (tally n)
  end.

(** A news source that answers no request, a clock that starts on
    2023-11-14 22:13:20 UTC and advances one millisecond per reading, a
    local time zone [offset] minutes ahead of UTC and a database that
    works. *)
Definition failing_env (offset : Z) : Effects.Env :=
  Effects.mkEnv
    (fun _ _ _ => Effects.Rejected "timeout of 10000ms exceeded")
    (fun k => "id-" ++ tally k)
    (fun k => 1700000000000 + Z.of_nat k)
    offset
    (fun _ => false)
    (fun _ _ => 0%nat).

(** A world in which nothing has happened yet. *)
Definition empty_world : Effects.World :=
  Effects.mkWorld [] 0 0 0 [] None.

(** The bucket sizes of a personalized-news result. *)
Definition buckets_at_most (n : nat) (news : PersonalizedNews) : Prop :=
  (List.length (local news) <= n)%nat
  /\ (List.length (regional news) <= n)%nat
  /\ (List.length (national news) <= n)%nat
  /\ (List.length (industry_news news) <= n)%nat
  /\ (List.length (global news) <= n)%nat.

(** The articles of a result, or none when the call threw. *)
Definition returned {A} (r : Effects.Res (list A) * Effects.World) : list A :=
  match fst r with
  | Effects.Ok l => l
  | Effects.Throw _ => []
  end.

(** The buckets of a result, or empty ones when the call threw. *)
Definition returned_news (r : Effects.Res PersonalizedNews * Effects.World)
  : PersonalizedNews :=
  match fst r with
  | Effects.Ok news => news
  | Effects.Throw _ => mkNews [] [] [] [] []
  end.

(** A cache row written at the instant [t]. *)
Definition cached_at (t : Z) : Row :=
  mkRow (mkArticle "id" "title" "" (Some "https://example.com/news/1") None
                   (PubAt t) "Business Times" "" "business"
                   (Some "local") (Some "Ottawa") None 5)
        (Effects.CURRENT_TIMESTAMP t).

(** A world whose cache holds the rows [rows]. *)
Definition world_with (rows : list Row) : Effects.World :=
  Effects.mkWorld [] 0 0 0 rows None.

(** The article of the scoring scenario, published at [t]. *)
Definition scenario_article (t : Z) : Raw.t :=
  Raw.mk (Some "AI boom in tech") (Some "") None None (PubAt t)
         (Some (Raw.mkSource (Some "Bloomberg") None)).

(** The same article without a publication time. *)
Definition undated_article : Raw.t :=
  Raw.mk (Some "AI boom in tech") (Some "") None None PubMissing
         (Some (Raw.mkSource (Some "Bloomberg") None)).

End Spec.

(* ================================================================= *)
(** ** The cache writer ([saveArticleToCache]) *)

Module NewsCache.
Import Effects NewsService.
Local Open Scope js_scope.

(** [x || null] on a text that may be missing: the empty text is stored as
    [NULL] too. *)
Definition orNull (x : option string) : option string :=
  match x with
  | Some EmptyString | None => None
  | Some s => Some s
  end.

(** The thirteen values bound to the statement. *)
Definition bound_values (article : Article) : Article :=
  mkArticle (id article) (title article) (description article) (url article)
            (image_url article) (published_at article) (source_name article)
            (source_url article) (category article)
            (orNull (location_type article))
            (orNull (location_value article))
            (orNull (industry article))
            (relevance_score article).

(** [runQuery('INSERT OR REPLACE INTO news_articles (...) VALUES (...)', [...])].
    [id] is the primary key: a row with the same [id] is deleted before the
    new row is written.  [url] is declared [NOT NULL]: a missing [url] aborts
    the statement.  [created_at] is not among the columns and takes its
    default, [CURRENT_TIMESTAMP], read from the clock. *)
Definition runQuery_insert_or_replace (article : Article) : M unit :=
  fun env w =>
    let k := statements w in
    if db_fails env k
    then (Throw "SQLITE_ERROR",
          mkWorld (requests w) (drawn w) (ticks w) (S k)
                  (news_articles w) (lastRefresh w))
    else
      match url article with
      | None =>
          (Throw "SQLITE_CONSTRAINT: NOT NULL constraint failed: news_articles.url",
           mkWorld (requests w) (drawn w) (ticks w) (S k)
                   (news_articles w) (lastRefresh w))
      | Some _ =>
          let row := mkRow (bound_values article)
                           (CURRENT_TIMESTAMP (clock env (ticks w))) in
          (Ok tt,
           mkWorld (requests w) (drawn w) (S (ticks w)) (S k)
                   (filter (fun r => negb (String.eqb (id (row_article r)) (id article)))
                           (news_articles w)
                    ++ [row])%list
                   (lastRefresh w))
      end.

Definition saveArticleToCache (article : Article) : M unit :=
  try_catch
    (runQuery_insert_or_replace article)
    (fun _error => ret tt).

End NewsCache.

(* ================================================================= *)
(** ** The search route ([src/routes/news.js], [GET /search]) *)

Module NewsRoutes.
Import Effects NewsService.
Local Open Scope js_scope.

(** An article of the search response. *)
Record SearchResult : Type := mkResult
  { r_id : string;
    r_title : string;
    r_description : string;
    r_url : option string;
    r_image_url : option string;
    r_published_at : PublishedAt;
    r_source_name : string;
    r_relevance_score : Z }.

(** What the handler sends: [res.json({success: true, query, articles,
    count})] or [res.status(status).json({error})]. *)
Inductive Response : Type :=
| Success (query : string) (articles : list SearchResult) (count : nat)
| Failure (status : Z) (error : string).

(** [/[^\w\s-]/]: one character that is no word character, no white space
    and no hyphen.  On code units below U+0100 the class [\s] is the white
    space of [trim]. *)
Definition safe_char (c : ascii) : bool :=
  JS.is_word c || JS.is_space c || Ascii.eqb c "-".

Definition match_unsafe (s : string) : option nat :=
  match s with
  | String c _ => if safe_char c then None else Some 1%nat
  | EmptyString => None
  end.

(** [query.replace(/[^\w\s-]/g, '').trim()] *)
Definition sanitizeQuery (query : string) : string :=
  JS.trim (JS.replaceAll match_unsafe 0 query).

(** [arr.sort(cmp)]: a stable sort; [cmp a b <= 0] keeps [a] before [b]. *)
Fixpoint insert_sorted {A} (cmp : A -> A -> Z) (x : A) (l : list A) : list A :=
  match l with
  | [] => [x]
  | y :: r => if (cmp x y <=? 0)%Z then x :: y :: r else y :: insert_sorted cmp x r
  end.

Definition sort {A} (cmp : A -> A -> Z) (l : list A) : list A :=
  fold_right (insert_sorted cmp) [] l.

(** The handler of [GET /search] behind [authenticateToken], on the text [q]
    of the request (if any) and the integer [parseInt(limit)]. *)
Definition search (q : option string) (limit : Z) : M Response :=
  try_catch
    (match q with
     | None | Some EmptyString => ret (Failure 400 "Search query is required")
     | Some query =>
         let sanitizedQuery := sanitizeQuery query in
         match sanitizedQuery with
         | EmptyString => ret (Failure 400 "Invalid search query")
         | _ =>
             articles <- fetchNewsFromAPI (sanitizedQuery ++ " business") limit ;;
             searchResults <-
               mapM (fun article =>
                       uuid <- uuidv4 ;;
                       now <- moment ;;
                       ret (mkResult
                              uuid
                              (sanitizeText (Raw.title article))
                              (sanitizeText (Raw.description article))
                              (Raw.link article)
                              (Raw.urlToImage article)
                              (Raw.publishedAt article)
                              (JS.orElse (sourceName article) "Unknown")
                              (calculateRelevanceScore now article sanitizedQuery)))
                    articles ;;
             let searchResults :=
               sort (fun a b => (r_relevance_score b - r_relevance_score a)%Z)
                    searchResults in
             ret (Success sanitizedQuery searchResults (List.length searchResults))
         end
     end)
    (fun _error => ret (Failure 500 "Failed to search news")).

End NewsRoutes.

(* ================================================================= *)
(** ** Predicates of the further properties *)

Module Props.
Import NewsService.

(** [a] occurs in [s]. *)
Fixpoint has_char (a : ascii) (s : string) : bool :=
  match s with
  | EmptyString => false
  | String c r => Ascii.eqb c a || has_char a r
  end.

(** Every character of [s] satisfies [p]. *)
Fixpoint all_chars (p : ascii -> bool) (s : string) : bool :=
  match s with
  | EmptyString => true
  | String c r => p c && all_chars p r
  end.

(** A text without tags and without white space at either end. *)
Definition clean (s : string) : Prop :=
  JS.no_match match_tag s = true /\ JS.trim s = s.

(** What every producer guarantees of an article, whatever the news source
    sent. *)
Definition well_formed (a : Article) : Prop :=
  (0 <= relevance_score a <= 9)%Z
  /\ clean (title a)
  /\ clean (description a)
  /\ source_name a <> "".

(** The labels [getLocationBasedNews] can give for a location. *)
Definition labelled (city state country : string) (a : Article) : Prop :=
  category a = "business"
  /\ (location_type a = Some "local" \/ location_type a = Some "regional")
  /\ In (location_value a) [Some city; Some state; Some country].

(** The article with its title and its description in lower case. *)
Definition lower_text (a : Raw.t) : Raw.t :=
  Raw.mk (option_map JS.toLowerCase (Raw.title a))
         (option_map JS.toLowerCase (Raw.description a))
         (Raw.link a) (Raw.urlToImage a) (Raw.publishedAt a) (Raw.source a).

(** The length of a text that may be missing. *)
Definition text_length (text : option string) : nat :=
  match text with
  | Some s => String.length s
  | None => 0
  end.

(** The news source fails on every request. *)
Definition always_rejects (env : Effects.Env) : Prop :=
  forall k q n, exists message, Effects.upstream env k q n = Effects.Rejected message.

(** The identifiers of the cached articles. *)
Definition cached_ids (rows : list Row) : list string :=
  map (fun r => id (row_article r)) rows.

(** The rows of the cache that hold the article [i]. *)
Definition rows_of (i : string) (rows : list Row) : list Row :=
  filter (fun r => String.eqb (id (row_article r)) i) rows.

(** Search results in the order of the response: no result is followed by
    one of higher relevance. *)
Definition descending (l : list NewsRoutes.SearchResult) : Prop :=
  StronglySorted
    (fun a b => (NewsRoutes.r_relevance_score b <= NewsRoutes.r_relevance_score a)%Z) l.

(** The database is as it was: the table, the time of the last refresh and
    the number of statements run. *)
Definition same_database (w w' : Effects.World) : Prop :=
  Effects.news_articles w' = Effects.news_articles w
  /\ Effects.lastRefresh w' = Effects.lastRefresh w
  /\ Effects.statements w' = Effects.statements w.

(** An article [getLocationBasedNews] makes for the query [query]. *)
Definition location_made (city state country query : string) (a : Article) : Prop :=
  category a = "business"
  /\ location_type a = Some (getLocationType query)
  /\ location_value a = Some (getLocationValue query city state country)
  /\ industry a = None
  /\ well_formed a.

(** An article [getIndustryNews] makes for the industry [i]. *)
Definition industry_made (i : string) (a : Article) : Prop :=
  category a = "industry"
  /\ industry a = Some i
  /\ location_type a = None
  /\ well_formed a.

(** An article of the global bucket. *)
Definition global_made (a : Article) : Prop :=
  category a = "global"
  /\ location_type a = Some "global"
  /\ industry a = None
  /\ well_formed a.

(** All the articles of a result. *)
Definition all_articles (news : PersonalizedNews) : list Article :=
  (local news ++ regional news ++ national news
   ++ industry_news news ++ global news)%list.

(** The industries [getIndustryNews] asks about. *)
Definition industries_asked (careerField : string) : list string :=
  match JsObject.get CAREER_INDUSTRIES careerField with
  | JsObject.Own l => firstn 2 l
  | JsObject.Undefined => [careerField]
  | JsObject.Inherited => []
  end.

(** A news source that answers every request with the articles [l]. *)
Definition answering_env (l : list Raw.t) : Effects.Env :=
  Effects.mkEnv
    (fun _ _ _ => Effects.Resolved (Some l))
    (fun k => "id-" ++ Spec.tally k)
    (fun k => 1700000000000 + Z.of_nat k)%Z
    0
    (fun _ => false)
    (fun _ _ => 0%nat).

(** A news source that answers no request and a database that fails on
    every statement. *)
Definition broken_db_env : Effects.Env :=
  Effects.mkEnv
    (fun _ _ _ => Effects.Rejected "timeout of 10000ms exceeded")
    (fun k => "id-" ++ Spec.tally k)
    (fun k => 1700000000000 + Z.of_nat k)%Z
    0
    (fun _ => true)
    (fun _ _ => 0%nat).

(** A news source that answers no request, with the answers arriving in
    turn: after [k] requests the call number [k] of those that wait is
    served. *)
Definition turning_env : Effects.Env :=
  Effects.mkEnv
    (fun _ _ _ => Effects.Rejected "timeout of 10000ms exceeded")
    (fun k => "id-" ++ Spec.tally k)
    (fun k => 1700000000000 + Z.of_nat k)%Z
    0
    (fun _ => false)
    (fun k _ => k).

(** The age, in milliseconds, up to which [refreshNewsCache] keeps a row on
    a server whose local time is [offset] minutes ahead of UTC. *)
Definition retention (offset : Z) : Z := (6 * HOUR - offset * MINUTE)%Z.

(** An article to cache. *)
Definition sample_article (i : string) : Article :=
  mkArticle i "title" "" (Some "https://example.com/news/1") None
            (PubAt 1700000000000) "Business Times" "" "business"
            (Some "local") (Some "Ottawa") None 5.

(** The comparison of the search route: [(a, b) => b.relevance_score -
    a.relevance_score]. *)
Definition by_relevance (a b : NewsRoutes.SearchResult) : Z :=
  (NewsRoutes.r_relevance_score b - NewsRoutes.r_relevance_score a)%Z.

(** The request a started call waits for, if it waits. *)
Definition pending {A} (p : Effects.Proc A) : list (string * Z) :=
  match p with
  | Effects.Awaiting q n _ => [(q, n)]
  | Effects.Settled _ => []
  end.

(** Whatever answers arrive and whenever they do, the call [p] sends the
    requests [qs] and settles with [r] for some [qs], [r] with [P qs r], and
    its code between two [await]s sends no request and leaves the database
    alone. *)
Fixpoint Runs {A} (env : Effects.Env)
         (P : list (string * Z) -> Effects.Res A -> Prop) (p : Effects.Proc A) : Prop :=
  match p with
  | Effects.Settled r => P [] r
  | Effects.Awaiting q n resume =>
      forall k w,
        Effects.requests (snd (resume (Effects.upstream env k q n) env w))
        = Effects.requests w
        /\ same_database w (snd (resume (Effects.upstream env k q n) env w))
        /\ Runs env (fun qs r => P ((q, n) :: qs) r)
                (fst (resume (Effects.upstream env k q n) env w))
  end.

(** The same of an asynchronous function, from its call on. *)
Definition Starts {A} (env : Effects.Env)
           (P : list (string * Z) -> Effects.Res A -> Prop) (t : Effects.Task A) : Prop :=
  forall w,
    Effects.requests (snd (t env w)) = Effects.requests w
    /\ same_database w (snd (t env w))
    /\ Runs env P (fst (t env w)).

(** The results [r] of three calls that ran together and the requests [qs]
    they sent between them: each call sent its own requests and settled as
    [Pa], [Pb], [Pc] say, and [qs] is those requests in some order. *)
Definition Joined {A B C}
           (Pa : list (string * Z) -> Effects.Res A -> Prop)
           (Pb : list (string * Z) -> Effects.Res B -> Prop)
           (Pc : list (string * Z) -> Effects.Res C -> Prop)
           (qs : list (string * Z))
           (r : Effects.Res A * Effects.Res B * Effects.Res C) : Prop :=
  exists qa qb qc,
    Pa qa (fst (fst r)) /\ Pb qb (snd (fst r)) /\ Pc qc (snd r)
    /\ Permutation qs (qa ++ qb ++ qc).

(** A started call has not thrown. *)
Definition not_thrown {A} (p : Effects.Proc A) : Prop :=
  match p with
  | Effects.Settled (Effects.Throw _) => False
  | _ => True
  end.

(** The first error [err'] of a run that began with the first error [err]
    and ended with the results [r]: [err] if there was one, otherwise the
    error of a call that threw, and none when the three calls returned. *)
Definition first_thrown {A B C} (err err' : option string)
           (r : Effects.Res A * Effects.Res B * Effects.Res C) : Prop :=
  match err' with
  | Some e =>
      err = Some e
      \/ (err = None
          /\ (fst (fst r) = Effects.Throw e \/ snd (fst r) = Effects.Throw e
              \/ snd r = Effects.Throw e))
  | None =>
      err = None /\ exists x y z, r = (Effects.Ok x, Effects.Ok y, Effects.Ok z)
  end.

(** The run [e] of three calls from the world [w], with the first error
    [err], in which the requests [sent] were waited for: it adds requests to
    the log of [w] and leaves the database alone. *)
Definition Settles {A B C}
           (Pa : list (string * Z) -> Effects.Res A -> Prop)
           (Pb : list (string * Z) -> Effects.Res B -> Prop)
           (Pc : list (string * Z) -> Effects.Res C -> Prop)
           (sent : list (string * Z)) (err : option string) (w : Effects.World)
           (e : (option string * (Effects.Res A * Effects.Res B * Effects.Res C))
                * Effects.World)
  : Prop :=
  exists issued,
    Joined Pa Pb Pc (sent ++ issued) (snd (fst e))
    /\ first_thrown err (fst (fst e)) (snd (fst e))
    /\ Effects.requests (snd e) = (Effects.requests w ++ issued)%list
    /\ same_database w (snd e).

End Props.

(* ================================================================= *)
(** ** Facts about the string library *)

Module JSFacts.
Import JS.
Local Open Scope string_scope.

Lemma append_assoc (a b c : string) : (a ++ b) ++ c = a ++ b ++ c.
Proof.
  induction a as [|x a IH]; simpl; [reflexivity | now rewrite IH].
Qed.

Lemma startsWith_iff (p s : string) :
  startsWith s p = true <-> exists b, s = p ++ b.
Proof.
  revert s; induction p as [|x p IH]; intros s; simpl.
  - split; [intros _; now exists s | now destruct s].
  - destruct s as [|y s]; simpl.
    + split; [discriminate | intros [b Hb]; discriminate].
    + rewrite andb_true_iff, Ascii.eqb_eq, IH. split.
      * intros [-> [b ->]]. now exists b.
      * intros [b Hb]. injection Hb as -> ->. split; [reflexivity | now exists b].
Qed.

Lemma includes_iff (s sub : string) :
  includes s sub = true <-> Contains s sub.
Proof.
  unfold Contains. induction s as [|c r IH]; cbn [includes].
  - rewrite startsWith_iff. split.
    + intros [b Hb]. exists "", b. exact Hb.
    + intros [a [b Hab]]. destruct a; [now exists b | discriminate].
  - rewrite orb_true_iff, IH.
    rewrite (startsWith_iff sub (String c r)). split.
    + intros [[b Hb] | [a [b Hab]]].
      * exists "", b. exact Hb.
      * exists (String c a), b. simpl. now rewrite Hab.
    + intros [a [b Hab]]. destruct a as [|x a]; simpl in Hab.
      * left. now exists b.
      * right. injection Hab as _ Hr. now exists a, b.
Qed.

Lemma includes_false_iff (s sub : string) :
  includes s sub = false <-> ~ Contains s sub.
Proof.
  rewrite <- includes_iff. destruct (includes s sub); split; congruence.
Qed.

Lemma slice0_length {A} (e : Z) (l : list A) :
  (0 <= e)%Z -> (Z.of_nat (List.length (slice0 e l)) <= e)%Z.
Proof.
  intros He. unfold slice0.
  destruct (Z.ltb_spec e 0); [lia|].
  rewrite length_firstn. lia.
Qed.

Lemma Forall_firstn {A} (P : A -> Prop) (n : nat) (l : list A) :
  Forall P l -> Forall P (firstn n l).
Proof.
  intros H. revert n. induction H as [|x l Hx _ IH]; intros [|n]; simpl;
    auto using Forall_nil, Forall_cons.
Qed.

Lemma Forall_slice0 {A} (P : A -> Prop) (e : Z) (l : list A) :
  Forall P l -> Forall P (slice0 e l).
Proof.
  intros H. unfold slice0. destruct (e <? 0)%Z; now apply Forall_firstn.
Qed.

End JSFacts.

(* ================================================================= *)
(** ** Relevance scoring *)

Module ScoreFacts.
Import NewsService Spec.
Local Open Scope Z_scope.

(** Whole hours rounded towards zero are below [n] exactly when the
    difference is below [n] hours. *)
Lemma quot_hours_lt (d n : Z) :
  0 < n -> (Z.quot d HOUR <? n) = (d <? n * HOUR).
Proof.
  intros Hn. unfold HOUR.
  destruct (Z.ltb_spec d (n * 3600000)) as [H|H].
  - apply Z.ltb_lt.
    destruct (Z.le_gt_cases 0 d) as [Hd|Hd].
    + apply Z.quot_lt_upper_bound; lia.
    + assert (Z.quot d 3600000 <= 0) by (apply Z.quot_le_upper_bound; lia). lia.
  - apply Z.ltb_ge. apply Z.quot_le_lower_bound; lia.
Qed.

(** [hoursAgo < n], by the [publishedAt] field. *)
Lemma lt_num_hoursAgo (now : Z) (p : PublishedAt) (n : Z) :
  0 < n ->
  lt_num (hoursAgo now p) n
  = match p with
    | PubMissing => true
    | PubInvalid => false
    | PubAt t => now - t <? n * HOUR
    end.
Proof.
  intros Hn. unfold lt_num, hoursAgo, moment_of.
  destruct p as [| |t]; [|reflexivity|now apply quot_hours_lt].
  rewrite quot_hours_lt by exact Hn. apply Z.ltb_lt. unfold HOUR. lia.
Qed.

(** The score is the sum with the recency points of the code. *)
Lemma score_sum (now : Z) (article : Raw.t) (keyword : string) :
  calculateRelevanceScore now article keyword = score_amended now article keyword.
Proof.
  unfold calculateRelevanceScore, score_amended, recency_points, points.
  rewrite !lt_num_hoursAgo by lia.
  destruct (Raw.publishedAt article);
    repeat match goal with
           | |- context [if ?b then _ else _] => destruct b
           end; reflexivity.
Qed.

(** On an article dated at or before the call, and on one whose date is
    unreadable, the recency points are those of the specification. *)
Lemma recency_by_spec (now : Z) (article : Raw.t) :
  match Raw.publishedAt article with
  | PubAt t => t <= now
  | PubInvalid => True
  | PubMissing => False
  end ->
  recency_points now (Raw.publishedAt article)
  = if publishedWithin 6 now article then 2
    else if publishedWithin 24 now article then 1 else 0.
Proof.
  unfold recency_points, publishedWithin.
  destruct (Raw.publishedAt article) as [| |t]; [contradiction|reflexivity|].
  intros Ht. apply Z.leb_le in Ht. now rewrite Ht.
Qed.

End ScoreFacts.

(** C3. For every article and every keyword, whatever the title, the
    description, the publication time and the source are, and at every call
    time, [calculateRelevanceScore] returns an integer between 0 and 10. *)
Theorem calculateRelevanceScore_range :
  forall (now : Z) (article : Raw.t) (keyword : string),
    (0 <= NewsService.calculateRelevanceScore now article keyword <= 10)%Z.
Proof.
  intros now article keyword. unfold NewsService.calculateRelevanceScore.
  repeat match goal with
         | |- context [if ?b then _ else _] => destruct b
         end; lia.
Qed.

(** C4, the counterexample.  The article of the scenario dated one hour
    after the call, and the same article without a publication time, were
    not published within the six or the twenty-four hours before the call:
    the sum of the specification is 3 + 0 + 0 + 2 = 5.  The code gives both
    the two recency points and returns 7. *)
Lemma calculateRelevanceScore_not_within :
  (Spec.publishedWithin 24 1700000000000
                        (Spec.scenario_article (1700000000000 + 1 * HOUR)) = false
   /\ Spec.score_by_spec 1700000000000
                         (Spec.scenario_article (1700000000000 + 1 * HOUR)) "tech" = 5%Z
   /\ NewsService.calculateRelevanceScore
        1700000000000 (Spec.scenario_article (1700000000000 + 1 * HOUR)) "tech" = 7%Z)
  /\ (Spec.publishedWithin 24 1700000000000 Spec.undated_article = false
      /\ Spec.score_by_spec 1700000000000 Spec.undated_article "tech" = 5%Z
      /\ NewsService.calculateRelevanceScore
           1700000000000 Spec.undated_article "tech" = 7%Z).
Proof.
  vm_compute. repeat split.
Qed.

(** C4, as amended.  [calculateRelevanceScore] is the sum of 3 when the
    lower-cased title contains the lower-cased keyword, 2 when the
    lower-cased description does, the recency points and 2 when the source
    name contains a trusted source, capped at 10.  The recency points are 2
    when the article has no publication time or one less than 6 hours before
    the call (a time after the call included), else 1 when less than 24
    hours before, else 0, and 0 when the publication time is unreadable.  On
    an article dated at or before the call, and on one with an unreadable
    date, this is the sum of the specification.  The article titled
    "AI boom in tech" with an empty description, published one hour before
    the call by "Bloomberg", scores 7 for the keyword "tech". *)
Theorem calculateRelevanceScore_formula :
  forall (now : Z) (article : Raw.t) (keyword : string),
    NewsService.calculateRelevanceScore now article keyword
    = Spec.score_amended now article keyword
    /\ (forall t : Z,
           Raw.publishedAt article = PubAt t -> (t <= now)%Z ->
           NewsService.calculateRelevanceScore now article keyword
           = Spec.score_by_spec now article keyword)
    /\ (Raw.publishedAt article = PubInvalid ->
        NewsService.calculateRelevanceScore now article keyword
        = Spec.score_by_spec now article keyword)
    /\ NewsService.calculateRelevanceScore
         now (Spec.scenario_article (now - 1 * HOUR)) "tech" = 7%Z.
Proof.
  intros now article keyword.
  assert (Hspec : match Raw.publishedAt article with
                  | PubAt t => (t <= now)%Z
                  | PubInvalid => True
                  | PubMissing => False
                  end ->
                  NewsService.calculateRelevanceScore now article keyword
                  = Spec.score_by_spec now article keyword).
  { intros H. rewrite ScoreFacts.score_sum.
    unfold Spec.score_amended, Spec.score_by_spec.
    now rewrite (ScoreFacts.recency_by_spec now article H). }
  split; [apply ScoreFacts.score_sum|].
  split; [intros t E Ht; apply Hspec; now rewrite E|].
  split; [intros E; apply Hspec; now rewrite E|].
  rewrite ScoreFacts.score_sum.
  unfold Spec.score_amended, Spec.recency_points, Spec.scenario_article; cbn.
  replace (now - (now - 3600000) <? 21600000)%Z with true
    by (symmetry; apply Z.ltb_lt; lia).
  reflexivity.
Qed.

Lemma calculateRelevanceScore_formula_witness :
  NewsService.calculateRelevanceScore
    1700003600000 (Spec.scenario_article 1700000000000) "tech"
  = Spec.score_by_spec 1700003600000 (Spec.scenario_article 1700000000000) "tech"
  /\ Spec.score_by_spec 1700003600000 (Spec.scenario_article 1700000000000) "tech"
     = 7%Z.
Proof.
  split.
  - apply (proj1 (proj2 (calculateRelevanceScore_formula
                           1700003600000 (Spec.scenario_article 1700000000000) "tech"))
                 1700000000000%Z).
    + reflexivity.
    + lia.
  - vm_compute. reflexivity.
Defined.

(* ================================================================= *)
(** ** Labelling by the query *)

(** C6. The label depends on the query text alone: a query that contains
    "business" is "local" (checked first), otherwise one that contains
    "economy" is "regional", otherwise it is "national"; so the country
    query "{country} business news" is "local" for every country. *)
Theorem getLocationType_by_keyword :
  (forall query : string,
      (JS.Contains query "business" ->
       NewsService.getLocationType query = "local")
      /\ (~ JS.Contains query "business" -> JS.Contains query "economy" ->
          NewsService.getLocationType query = "regional")
      /\ (~ JS.Contains query "business" -> ~ JS.Contains query "economy" ->
          NewsService.getLocationType query = "national"))
  /\ (forall country : string,
         NewsService.getLocationType (country ++ " business news") = "local").
Proof.
  assert (first : forall query, JS.Contains query "business" ->
                                NewsService.getLocationType query = "local").
  { intros query H. apply JSFacts.includes_iff in H.
    unfold NewsService.getLocationType. now rewrite H. }
  split.
  - intros query. split; [apply first|]. split.
    + intros Hb He. apply JSFacts.includes_false_iff in Hb.
      apply JSFacts.includes_iff in He.
      unfold NewsService.getLocationType. now rewrite Hb, He.
    + intros Hb He. apply JSFacts.includes_false_iff in Hb, He.
      unfold NewsService.getLocationType. now rewrite Hb, He.
  - intros country. apply first. exists (country ++ " "), " news".
    now rewrite JSFacts.append_assoc.
Qed.

Lemma getLocationType_by_keyword_witness :
  NewsService.getLocationType "Ottawa business" = "local"
  /\ NewsService.getLocationType "ON economy" = "regional"
  /\ NewsService.getLocationType "Ottawa weather" = "national".
Proof.
  split; [|split].
  - apply (proj1 getLocationType_by_keyword "Ottawa business").
    apply JSFacts.includes_iff. reflexivity.
  - apply (proj1 getLocationType_by_keyword "ON economy").
    + apply JSFacts.includes_false_iff. reflexivity.
    + apply JSFacts.includes_iff. reflexivity.
  - apply (proj1 getLocationType_by_keyword "Ottawa weather");
      apply JSFacts.includes_false_iff; reflexivity.
Defined.

(* ================================================================= *)
(** ** Sanitization *)

Module SanitizeFacts.
Import JS NewsService Spec.

Lemma replaceAll_no_match (m : string -> option nat) (s : string) :
  no_match m s = true -> replaceAll m 0 s = s.
Proof.
  induction s as [|c r IH]; [reflexivity|].
  cbn [no_match replaceAll]. destruct (m (String c r)); [discriminate|].
  intros H. now rewrite IH.
Qed.

Lemma has_gt_span (r : string) :
  is_char ">" (charAt (span (fun c => negb (Ascii.eqb c ">")) r) r) = has_gt r.
Proof.
  induction r as [|c r IH]; [reflexivity|].
  cbn [span has_gt]. destruct (Ascii.eqb c ">") eqn:E; cbn.
  - now rewrite E.
  - exact IH.
Qed.

Lemma match_tag_cons (c : ascii) (r : string) :
  match_tag (String c r) = None <-> (Ascii.eqb c "<" = false \/ has_gt r = false).
Proof.
  unfold match_tag. rewrite has_gt_span.
  destruct (Ascii.eqb c "<"), (has_gt r); split; intros H;
    try reflexivity; try discriminate; auto; destruct H; discriminate.
Qed.

Lemma match_tag_positive (s : string) : match_tag s <> Some 0.
Proof.
  destruct s as [|c r]; [discriminate|]. unfold match_tag.
  destruct (Ascii.eqb c "<"); [|discriminate].
  match goal with |- context [if ?b then _ else _] => destruct b end;
    [|discriminate].
  intros H. injection H as H. lia.
Qed.

(** What a replacement keeps, it keeps in order. *)
Lemma replaceAll_has_gt (m : string -> option nat) (s : string) :
  forall k, has_gt s = false -> has_gt (replaceAll m k s) = false.
Proof.
  induction s as [|c r IH]; intros k H; [reflexivity|].
  cbn [has_gt] in H. apply orb_false_iff in H as [Hc Hr].
  cbn [replaceAll]. destruct k as [|k]; [|now apply IH].
  destruct (m (String c r)) as [[|n]|]; cbn [has_gt];
    rewrite ?Hc, ?IH; auto.
Qed.

Lemma closed_cons (c : ascii) (r : string) :
  closed_before_open (String c r)
  = (negb (Ascii.eqb c "<") || negb (has_gt r)) && closed_before_open r.
Proof. reflexivity. Qed.

Lemma replaceAll_closed (m : string -> option nat) (s : string) :
  forall k, closed_before_open s = true ->
            closed_before_open (replaceAll m k s) = true.
Proof.
  induction s as [|c r IH]; intros k H; [reflexivity|].
  cbn [closed_before_open] in H. apply andb_true_iff in H as [Hc Hr].
  assert (kept : closed_before_open (String c (replaceAll m 0 r)) = true).
  { cbn [closed_before_open]. rewrite IH by exact Hr. rewrite andb_true_r.
    apply orb_true_iff in Hc as [Hc|Hc]; [now rewrite Hc|].
    apply negb_true_iff in Hc. rewrite (replaceAll_has_gt m r 0 Hc).
    apply orb_true_r. }
  cbn [replaceAll]. destruct k as [|k]; [|now apply IH].
  destruct (m (String c r)) as [[|n]|]; auto.
Qed.

(** After the tags are removed no [<] has a [>] after it. *)
Lemma strip_tags_closed (s : string) :
  forall k, closed_before_open (replaceAll match_tag k s) = true.
Proof.
  induction s as [|c r IH]; intros k; [reflexivity|].
  cbn [replaceAll]. destruct k as [|k]; [|apply IH].
  destruct (match_tag (String c r)) as [[|n]|] eqn:E.
  - now apply match_tag_positive in E.
  - apply IH.
  - cbn [closed_before_open]. rewrite IH, andb_true_r.
    apply match_tag_cons in E as [E|E].
    + now rewrite E.
    + rewrite (replaceAll_has_gt match_tag r 0 E). apply orb_true_r.
Qed.

Lemma trimStart_closed (s : string) :
  closed_before_open s = true -> closed_before_open (trimStart s) = true.
Proof.
  induction s as [|c r IH]; [reflexivity|]. intros H.
  cbn [trimStart]. destruct (is_space c); [|exact H].
  cbn [closed_before_open] in H. apply andb_true_iff in H as [_ H]. auto.
Qed.

Lemma trimEnd_has_gt (s : string) :
  has_gt s = false -> has_gt (trimEnd s) = false.
Proof.
  induction s as [|c r IH]; [reflexivity|]. intros H.
  cbn [has_gt] in H. apply orb_false_iff in H as [Hc Hr].
  cbn [trimEnd]. specialize (IH Hr).
  destruct (trimEnd r) as [|x r'].
  - destruct (is_space c); [reflexivity|]. cbn [has_gt]. now rewrite Hc.
  - cbn [has_gt] in *. now rewrite Hc, IH.
Qed.

Lemma trimEnd_closed (s : string) :
  closed_before_open s = true -> closed_before_open (trimEnd s) = true.
Proof.
  induction s as [|c r IH]; [reflexivity|]. intros H.
  cbn [closed_before_open] in H. apply andb_true_iff in H as [Hc Hr].
  cbn [trimEnd]. specialize (IH Hr).
  pose proof (trimEnd_has_gt r) as Hgt.
  destruct (trimEnd r) as [|x r'].
  - destruct (is_space c); [reflexivity|].
    cbn [closed_before_open has_gt]. now rewrite orb_true_r.
  - rewrite closed_cons, IH, andb_true_r.
    apply orb_true_iff in Hc as [Hc|Hc]; [now rewrite Hc|].
    apply negb_true_iff in Hc. rewrite (Hgt Hc). apply orb_true_r.
Qed.

Lemma closed_no_tag (s : string) :
  closed_before_open s = true -> no_match match_tag s = true.
Proof.
  induction s as [|c r IH]; [reflexivity|]. intros H.
  cbn [closed_before_open] in H. apply andb_true_iff in H as [Hc Hr].
  cbn [no_match].
  assert (E : match_tag (String c r) = None).
  { apply match_tag_cons. apply orb_true_iff in Hc as [Hc|Hc];
      apply negb_true_iff in Hc; auto. }
  rewrite E. auto.
Qed.

(** [trim] leaves nothing for a second [trim]. *)
Lemma trimEnd_idem (s : string) : trimEnd (trimEnd s) = trimEnd s.
Proof.
  induction s as [|c r IH]; [reflexivity|].
  cbn [trimEnd]. destruct (trimEnd r) as [|x r'] eqn:E.
  - destruct (is_space c) eqn:Hs; [reflexivity|]. cbn. now rewrite Hs.
  - change (trimEnd (String c (String x r')))
      with (match trimEnd (String x r') with
            | EmptyString => if is_space c then EmptyString else String c EmptyString
            | r0 => String c r0
            end).
    now rewrite IH.
Qed.

Lemma trimStart_starts_inside (s : string) : starts_inside (trimStart s) = true.
Proof.
  induction s as [|c r IH]; [reflexivity|].
  cbn [trimStart]. destruct (is_space c) eqn:E; [exact IH|].
  cbn. now rewrite E.
Qed.

Lemma trimEnd_starts_inside (s : string) :
  starts_inside s = true -> starts_inside (trimEnd s) = true.
Proof.
  destruct s as [|c r]; [reflexivity|]. cbn [starts_inside trimEnd].
  intros H. apply negb_true_iff in H. rewrite H.
  destruct (trimEnd r); cbn; now rewrite H.
Qed.

Lemma trimStart_fixed (s : string) : starts_inside s = true -> trimStart s = s.
Proof.
  destruct s as [|c r]; [reflexivity|]. cbn. intros H.
  apply negb_true_iff in H. now rewrite H.
Qed.

Lemma trim_idem (s : string) : trim (trim s) = trim s.
Proof.
  unfold trim.
  rewrite (trimStart_fixed (trimEnd (trimStart s))).
  - apply trimEnd_idem.
  - apply trimEnd_starts_inside, trimStart_starts_inside.
Qed.

Lemma sanitize_closed (text : option string) :
  closed_before_open (sanitizeText text) = true.
Proof.
  destruct text as [[|c r]|]; try reflexivity.
  unfold sanitizeText, trim, strip_entities, strip_tags.
  apply trimEnd_closed, trimStart_closed, replaceAll_closed, strip_tags_closed.
Qed.

End SanitizeFacts.

(** C5, the counterexample: removing the entity [&amp;] from "&a&amp;mp;"
    splices a new entity together, which a second pass removes. *)
Lemma sanitizeText_not_idempotent :
  NewsService.sanitizeText (Some "&a&amp;mp;") = "&amp;"
  /\ NewsService.sanitizeText (Some (NewsService.sanitizeText (Some "&a&amp;mp;")))
     <> NewsService.sanitizeText (Some "&a&amp;mp;").
Proof.
  split; [reflexivity | discriminate].
Qed.

(** C5, as amended.  For every input text the output of [sanitizeText]
    contains no [<] followed by a tag-like pattern, and a second pass leaves
    the tags of the output alone; when the output contains no entity-like
    pattern either, the second pass returns it unchanged. *)
Theorem sanitizeText_output :
  forall text : option string,
    let out := NewsService.sanitizeText text in
    JS.no_match NewsService.match_tag out = true
    /\ NewsService.strip_tags out = out
    /\ (JS.no_match NewsService.match_entity out = true ->
        NewsService.sanitizeText (Some out) = out).
Proof.
  intros text out.
  assert (Htag : JS.no_match NewsService.match_tag out = true)
    by apply SanitizeFacts.closed_no_tag, SanitizeFacts.sanitize_closed.
  assert (Hstrip : NewsService.strip_tags out = out)
    by now apply SanitizeFacts.replaceAll_no_match.
  split; [exact Htag|]. split; [exact Hstrip|].
  intros Hent.
  assert (Htrim : JS.trim out = out).
  { subst out. destruct text as [[|c r]|]; try reflexivity.
    apply SanitizeFacts.trim_idem. }
  unfold NewsService.sanitizeText at 1.
  destruct out as [|c r] eqn:E; [reflexivity|].
  rewrite Hstrip. unfold NewsService.strip_entities.
  rewrite SanitizeFacts.replaceAll_no_match by exact Hent. exact Htrim.
Qed.

Lemma sanitizeText_output_witness :
  NewsService.sanitizeText (Some " <b>News</b> &amp; views ") = "News  views"
  /\ NewsService.sanitizeText (Some "News  views") = "News  views".
Proof.
  split; [reflexivity|].
  exact (proj2 (proj2 (sanitizeText_output (Some " <b>News</b> &amp; views ")))
               eq_refl).
Defined.

(* ================================================================= *)
(** ** Running the service *)

Module RunFacts.
Import Effects NewsService.
Local Open Scope js_scope.

Lemma bind_ok {A B} (m : M A) (k : A -> M B) env w a w1 :
  m env w = (Ok a, w1) -> bind m k env w = k a env w1.
Proof. intros H. unfold bind. now rewrite H. Qed.

Lemma bind_ret {A B} (a : A) (k : A -> M B) env w :
  bind (ret a) k env w = k a env w.
Proof. reflexivity. Qed.

Lemma bind_throw {A B} (m : M A) (k : A -> M B) env w e w1 :
  m env w = (Throw e, w1) -> bind m k env w = (Throw e, w1).
Proof. intros H. unfold bind. now rewrite H. Qed.

(** A callback that always returns and sends no request: so does [map]. *)
Lemma mapM_spec {A B} (f : A -> M B) (P : B -> Prop) :
  (forall a env w, exists b w',
      f a env w = (Ok b, w') /\ requests w' = requests w /\ P b) ->
  forall l env w, exists bs w',
      mapM f l env w = (Ok bs, w') /\ requests w' = requests w /\ Forall P bs.
Proof.
  intros Hf l. induction l as [|a r IH]; intros env w; cbn [mapM].
  - exists [], w. repeat split. constructor.
  - destruct (Hf a env w) as (b & w1 & E1 & R1 & Pb).
    destruct (IH env w1) as (bs & w2 & E2 & R2 & Pbs).
    exists (b :: bs), w2.
    rewrite (bind_ok _ _ _ _ _ _ E1), (bind_ok _ _ _ _ _ _ E2).
    repeat split; [congruence | now constructor].
Qed.

(** A loop whose body always returns, sends the request [req x] and pushes
    articles that satisfy [P]. *)
Lemma for_of_spec {A B} (body : list B -> A -> M (list B))
      (req : A -> string * Z) (P : B -> Prop) :
  (forall acc x env w, exists ps w',
      body acc x env w = (Ok (acc ++ ps)%list, w')
      /\ requests w' = (requests w ++ [req x])%list /\ Forall P ps) ->
  forall xs acc env w, exists ps w',
      for_of xs body acc env w = (Ok (acc ++ ps)%list, w')
      /\ requests w' = (requests w ++ map req xs)%list /\ Forall P ps.
Proof.
  intros Hb xs. induction xs as [|x r IH]; intros acc env w; cbn [for_of map].
  - exists [], w. rewrite !app_nil_r. repeat split. constructor.
  - destruct (Hb acc x env w) as (ps & w1 & E1 & R1 & P1).
    destruct (IH (acc ++ ps)%list env w1) as (qs & w2 & E2 & R2 & P2).
    exists (ps ++ qs)%list, w2.
    rewrite (bind_ok _ _ _ _ _ _ E1), E2, R2, R1, <- !app_assoc.
    repeat split. now apply Forall_app.
Qed.

(** [fetchNewsFromAPI] always returns, after exactly one request. *)
Lemma fetchNewsFromAPI_run (query : string) (pageSize : Z) env w :
  exists articles w',
    fetchNewsFromAPI query pageSize env w = (Ok articles, w')
    /\ requests w' = (requests w ++ [(query, pageSize)])%list.
Proof.
  unfold fetchNewsFromAPI, try_catch, bind, axios_get.
  destruct (upstream env (List.length (requests w)) query pageSize);
    cbn; do 2 eexists; split; reflexivity.
Qed.

Lemma getLocationType_cases (query : string) :
  In (Some (getLocationType query)) [Some "local"; Some "regional"; Some "national"].
Proof.
  unfold getLocationType.
  destruct (JS.includes query "business"); [now left|].
  destruct (JS.includes query "economy"); [right; now left | right; right; now left].
Qed.

(** [getLocationBasedNews] always returns: the first [limit * 3] of the
    articles of three requests. *)
Lemma getLocationBasedNews_run (city state country : string) (limit : Z) env w :
  exists allNews w',
    getLocationBasedNews city state country limit env w
    = (Ok (JS.slice0 (limit * 3) allNews), w')
    /\ requests w' = (requests w ++ Spec.location_queries city state country limit)%list
    /\ Forall Spec.location_article allNews.
Proof.
  unfold getLocationBasedNews.
  match goal with
  | |- context [for_of ?xs ?body ?acc] =>
      assert (Hbody : forall acc0 q env0 w0, exists ps w',
                 body acc0 q env0 w0 = (Ok (acc0 ++ ps)%list, w')
                 /\ requests w' = (requests w0 ++ [(q, limit)])%list
                 /\ Forall Spec.location_article ps);
      [| destruct (for_of_spec body (fun q => (q, limit)) Spec.location_article
                               Hbody xs acc env w) as (ps & w' & E & R & HP)]
  end.
  - intros acc0 q env0 w0. cbv beta.
    destruct (fetchNewsFromAPI_run q limit env0 w0) as (arts & w1 & E1 & R1).
    rewrite (bind_ok _ _ _ _ _ _ E1).
    match goal with
    | |- context [mapM ?f arts] =>
        assert (Hf : forall a env1 w2, exists b w3,
                   f a env1 w2 = (Ok b, w3) /\ requests w3 = requests w2
                   /\ Spec.location_article b);
        [| destruct (mapM_spec f Spec.location_article Hf arts env0 w1)
            as (bs & w2 & E2 & R2 & HP)]
    end.
    + intros a env1 w2. do 2 eexists. split; [reflexivity|].
      split; [reflexivity|]. split; [reflexivity | apply getLocationType_cases].
    + exists bs, w2. rewrite (bind_ok _ _ _ _ _ _ E2). cbn.
      repeat split; [congruence | exact HP].
  - exists ps, w'. rewrite (bind_ok _ _ _ _ _ _ E). cbn.
    repeat split; assumption.
Qed.

(** [getIndustryNews] throws on a career field that names a property of
    [Object.prototype], before any request. *)
Lemma getIndustryNews_inherited (careerField : string) (limit : Z) env w :
  JsObject.get CAREER_INDUSTRIES careerField = JsObject.Inherited ->
  getIndustryNews careerField limit env w
  = (Throw "TypeError: industries.slice is not a function", w).
Proof.
  intros H. unfold getIndustryNews. rewrite H. reflexivity.
Qed.

(** On every other career field it returns the first [limit] of the
    articles of at most two requests. *)
Lemma getIndustryNews_run (careerField : string) (limit : Z) env w :
  JsObject.get CAREER_INDUSTRIES careerField <> JsObject.Inherited ->
  exists allNews w',
    getIndustryNews careerField limit env w = (Ok (JS.slice0 limit allNews), w')
    /\ requests w' = (requests w ++ Spec.industry_queries careerField limit)%list
    /\ Forall Spec.industry_article allNews.
Proof.
  intros Hget. unfold getIndustryNews, Spec.industry_queries.
  match goal with
  | |- context [for_of _ ?body ?acc] =>
      assert (Hbody : forall acc0 i env0 w0, exists ps w',
                 body acc0 i env0 w0 = (Ok (acc0 ++ ps)%list, w')
                 /\ requests w' = (requests w0 ++ [((i ++ " business news")%string, limit)])%list
                 /\ Forall Spec.industry_article ps);
      [| pose proof (fun xs => for_of_spec body (fun i => (i ++ " business news", limit))
                                 Spec.industry_article Hbody xs acc env w) as Hloop]
  end.
  - intros acc0 i env0 w0. cbv beta.
    destruct (fetchNewsFromAPI_run (i ++ " business news") limit env0 w0)
      as (arts & w1 & E1 & R1).
    rewrite (bind_ok _ _ _ _ _ _ E1).
    match goal with
    | |- context [mapM ?f arts] =>
        assert (Hf : forall a env1 w2, exists b w3,
                   f a env1 w2 = (Ok b, w3) /\ requests w3 = requests w2
                   /\ Spec.industry_article b);
        [| destruct (mapM_spec f Spec.industry_article Hf arts env0 w1)
            as (bs & w2 & E2 & R2 & HP)]
    end.
    + intros a env1 w2. do 2 eexists. split; [reflexivity|].
      split; [reflexivity|]. split; reflexivity.
    + exists bs, w2. rewrite (bind_ok _ _ _ _ _ _ E2). cbn.
      repeat split; [congruence | exact HP].
  - destruct (JsObject.get CAREER_INDUSTRIES careerField) as [l| |];
      [| contradiction |].
    + destruct (Hloop (JS.slice0 2 l)) as (ps & w' & E & R & HP).
      exists ps, w'. rewrite bind_ret, (bind_ok _ _ _ _ _ _ E).
      split; [reflexivity|]. split; [exact R | exact HP].
    + destruct (Hloop (JS.slice0 2 [careerField])) as (ps & w' & E & R & HP).
      exists ps, w'. rewrite bind_ret, (bind_ok _ _ _ _ _ _ E).
      split; [reflexivity|]. split; [exact R | exact HP].
Qed.

Lemma Forall_filter {A} (P : A -> Prop) (f : A -> bool) (l : list A) :
  Forall P l -> Forall P (filter f l).
Proof.
  rewrite !Forall_forall. intros H x Hx. apply filter_In in Hx. now apply H.
Qed.

End RunFacts.

(* ================================================================= *)
(** ** Fetch with fallback *)

(** C2. When the request for a query fails, [fetchNewsFromAPI] throws
    nothing: it returns a list of placeholder articles that is not empty,
    and the title of each of them contains the query. *)
Theorem fetchNewsFromAPI_fallback :
  forall (env : Effects.Env) (w : Effects.World) (query : string)
         (pageSize : Z) (message : string),
    Effects.upstream env (List.length (Effects.requests w)) query pageSize
    = Effects.Rejected message ->
    exists articles w',
      NewsService.fetchNewsFromAPI query pageSize env w = (Effects.Ok articles, w')
      /\ articles <> []
      /\ Forall (fun a => exists t, Raw.title a = Some t /\ JS.Contains t query)
                articles.
Proof.
  intros env w query pageSize message H.
  unfold NewsService.fetchNewsFromAPI, Effects.try_catch, Effects.bind,
    Effects.axios_get.
  rewrite H. cbn. eexists. eexists. split; [reflexivity|].
  split; [discriminate|].
  repeat constructor; cbn; eexists; (split; [reflexivity|]).
  - exists "Breaking: Major ", " Development Announced". reflexivity.
  - exists "", " Market Shows Strong Growth This Quarter". reflexivity.
  - exists "Innovation in ", ": What Business Leaders Need to Know". reflexivity.
Qed.

Lemma fetchNewsFromAPI_fallback_witness :
  exists articles w',
    NewsService.fetchNewsFromAPI "Ottawa business" 5
      (Spec.failing_env 0) Spec.empty_world = (Effects.Ok articles, w')
    /\ articles <> []
    /\ Forall (fun a => exists t, Raw.title a = Some t
                                  /\ JS.Contains t "Ottawa business")
              articles.
Proof.
  exact (fetchNewsFromAPI_fallback (Spec.failing_env 0) Spec.empty_world
           "Ottawa business" 5 "timeout of 10000ms exceeded" eq_refl).
Defined.

(* ================================================================= *)
(** ** Location news *)

(** C10, the counterexample: with the limit -1 and the news source down,
    nine placeholder articles are cut by [slice(0, -3)] to six, more than
    3 x (-1). *)
Lemma getLocationBasedNews_negative_limit :
  exists l w',
    NewsService.getLocationBasedNews "Ottawa" "ON" "CA" (-1)
      (Spec.failing_env 0) Spec.empty_world = (Effects.Ok l, w')
    /\ List.length l = 6%nat
    /\ ~ (Z.of_nat (List.length l) <= 3 * (-1))%Z.
Proof.
  eexists. eexists. split; [vm_compute; reflexivity|].
  split; [reflexivity | cbn; lia].
Qed.

(** C10, as amended.  For every city, state and country and every limit that
    is not negative, [getLocationBasedNews] sends its three queries with the
    page size [limit] and returns at most 3 x limit articles; [limit] itself
    is no bound: with the limit 5 and the news source down it returns nine. *)
Theorem getLocationBasedNews_at_most :
  (forall (city state country : string) (limit : Z)
          (env : Effects.Env) (w : Effects.World),
      (0 <= limit)%Z ->
      exists l w',
        NewsService.getLocationBasedNews city state country limit env w
        = (Effects.Ok l, w')
        /\ (Z.of_nat (List.length l) <= 3 * limit)%Z
        /\ Effects.requests w'
           = (Effects.requests w
              ++ Spec.location_queries city state country limit)%list)
  /\ List.length
       (Spec.returned (NewsService.getLocationBasedNews "Ottawa" "ON" "CA" 5
                         (Spec.failing_env 0) Spec.empty_world))
     = 9%nat.
Proof.
  split; [|vm_compute; reflexivity].
  intros city state country limit env w Hlimit.
  destruct (RunFacts.getLocationBasedNews_run city state country limit env w)
    as (allNews & w' & E & R & _).
  eexists. exists w'. split; [exact E|]. split; [|exact R].
  pose proof (JSFacts.slice0_length (limit * 3) allNews). lia.
Qed.

Lemma getLocationBasedNews_at_most_witness :
  exists l w',
    NewsService.getLocationBasedNews "Ottawa" "ON" "CA" 5
      (Spec.failing_env 0) Spec.empty_world = (Effects.Ok l, w')
    /\ (Z.of_nat (List.length l) <= 3 * 5)%Z
    /\ Effects.requests w'
       = (Effects.requests Spec.empty_world
          ++ Spec.location_queries "Ottawa" "ON" "CA" 5)%list.
Proof.
  apply (proj1 getLocationBasedNews_at_most "Ottawa" "ON" "CA" 5%Z
           (Spec.failing_env 0) Spec.empty_world).
  discriminate.
Defined.

(* ================================================================= *)
(** ** Cache refresh *)

Module RefreshFacts.
Import Effects NewsService.
Local Open Scope Z_scope.

(** When the statement runs, the rows that stay are those whose
    [created_at] (UTC) is not before the local civil time of six hours
    before the call. *)
Lemma refreshNewsCache_deletes env w :
  db_fails env (statements w) = false ->
  news_articles (snd (refreshNewsCache env w))
  = filter (fun r => negb (created_at r
                           <? (clock env (ticks w) - 6 * HOUR + utcOffset env * MINUTE)
                              / SECOND))
           (news_articles w).
Proof.
  intros H. unfold refreshNewsCache, try_catch, bind, moment, format_local,
              runQuery_delete_older, set_lastRefresh.
  cbn. rewrite H. reflexivity.
Qed.

(** When the statement fails, the error is swallowed and every row stays. *)
Lemma refreshNewsCache_db_failure env w :
  db_fails env (statements w) = true ->
  fst (refreshNewsCache env w) = Ok tt
  /\ news_articles (snd (refreshNewsCache env w)) = news_articles w.
Proof.
  intros H. unfold refreshNewsCache, try_catch, bind, moment, format_local,
              runQuery_delete_older, set_lastRefresh.
  cbn. rewrite H. split; reflexivity.
Qed.

(** On a server whose local time is UTC, a row written seven hours before
    the call goes and a row written one hour before it stays. *)
Lemma refreshNewsCache_scenario_utc env (now : Z) :
  utcOffset env = 0 -> db_fails env 0%nat = false -> clock env 0%nat = now ->
  news_articles
    (snd (refreshNewsCache env
            (Spec.world_with [Spec.cached_at (now - 7 * HOUR);
                              Spec.cached_at (now - 1 * HOUR)])))
  = [Spec.cached_at (now - 1 * HOUR)].
Proof.
  intros Hz Hdb Hnow.
  rewrite refreshNewsCache_deletes by exact Hdb.
  cbn [Spec.world_with news_articles ticks filter Spec.cached_at created_at].
  rewrite Hz, Hnow. unfold CURRENT_TIMESTAMP, HOUR, MINUTE, SECOND.
  replace ((now - 7 * 3600000) / 1000 <? (now - 6 * 3600000 + 0 * 60000) / 1000)
    with true by (symmetry; apply Z.ltb_lt; Z.div_mod_to_equations; lia).
  replace ((now - 1 * 3600000) / 1000 <? (now - 6 * 3600000 + 0 * 60000) / 1000)
    with false by (symmetry; apply Z.ltb_ge; Z.div_mod_to_equations; lia).
  reflexivity.
Qed.

End RefreshFacts.

(** C9, at the failing input.  On a server whose local time is five hours
    behind UTC, [refreshNewsCache] compares the UTC text of [created_at] with
    the local text of six hours before the call: of a row written seven
    hours before the call and a row written one hour before it, it deletes
    neither. *)
Theorem refreshNewsCache_keeps_old_row_behind_utc :
  let now := 1700000000000%Z in
  let rows := [Spec.cached_at (now - 7 * HOUR); Spec.cached_at (now - 1 * HOUR)] in
  Effects.clock (Spec.failing_env (-300)) 0 = now
  /\ fst (NewsService.refreshNewsCache (Spec.failing_env (-300)) (Spec.world_with rows))
     = Effects.Ok tt
  /\ Effects.news_articles
       (snd (NewsService.refreshNewsCache (Spec.failing_env (-300))
               (Spec.world_with rows)))
     = rows.
Proof.
  cbv zeta. split; [reflexivity|]. split; vm_compute; reflexivity.
Qed.

(* ================================================================= *)
(** ** Further facts about strings *)

Module StringFacts.
Import JS Props.

Lemma lower_char_idem (c : ascii) : lower_char (lower_char c) = lower_char c.
Proof.
  destruct c as [[] [] [] [] [] [] [] []]; reflexivity.
Qed.

Lemma toLowerCase_idem (s : string) : toLowerCase (toLowerCase s) = toLowerCase s.
Proof.
  induction s as [|c r IH]; cbn [toLowerCase]; [reflexivity|].
  now rewrite lower_char_idem, IH.
Qed.

Lemma toLowerCase_app (a b : string) :
  toLowerCase (a ++ b) = toLowerCase a ++ toLowerCase b.
Proof.
  induction a as [|c r IH]; cbn; [reflexivity | now rewrite IH].
Qed.

Lemma Contains_lower (s sub : string) :
  Contains s sub -> Contains (toLowerCase s) (toLowerCase sub).
Proof.
  intros (a & b & ->). exists (toLowerCase a), (toLowerCase b).
  now rewrite !toLowerCase_app.
Qed.

Lemma Contains_trans (s t u : string) :
  Contains s t -> Contains t u -> Contains s u.
Proof.
  intros (a & b & ->) (c & d & ->). exists (a ++ c), (d ++ b).
  now rewrite !JSFacts.append_assoc.
Qed.

Lemma includes_lower (s sub : string) :
  Contains s sub -> includes (toLowerCase s) (toLowerCase sub) = true.
Proof.
  intros H. now apply JSFacts.includes_iff, Contains_lower.
Qed.

Lemma includes_empty (s : string) : includes s "" = true.
Proof.
  apply JSFacts.includes_iff. now exists "", s.
Qed.

Lemma orElse_lower (t : option string) :
  toLowerCase (orElse (option_map toLowerCase t) "")
  = toLowerCase (orElse t "").
Proof.
  destruct t as [[|c r]|]; cbn [option_map orElse toLowerCase]; try reflexivity.
  now rewrite lower_char_idem, toLowerCase_idem.
Qed.

Lemma orElse_some (s : string) : orElse (Some s) "" = s.
Proof. now destruct s. Qed.

Lemma append_length (a b : string) :
  String.length (a ++ b) = (String.length a + String.length b)%nat.
Proof.
  induction a as [|c r IH]; cbn; [reflexivity | now rewrite IH].
Qed.

Lemma replaceAll_length (m : string -> option nat) (s : string) :
  forall k, (String.length (replaceAll m k s) <= String.length s)%nat.
Proof.
  induction s as [|c r IH]; intros k; cbn [replaceAll]; [apply Nat.le_refl|].
  destruct k as [|k].
  - destruct (m (String c r)) as [[|n]|]; cbn [String.length];
      try (specialize (IH 0%nat); lia); specialize (IH n); lia.
  - cbn [String.length]. specialize (IH k). lia.
Qed.

Lemma trimStart_length (s : string) :
  (String.length (trimStart s) <= String.length s)%nat.
Proof.
  induction s as [|c r IH]; cbn [trimStart]; [apply Nat.le_refl|].
  destruct (is_space c); cbn [String.length]; lia.
Qed.

Lemma trimEnd_length (s : string) :
  (String.length (trimEnd s) <= String.length s)%nat.
Proof.
  induction s as [|c r IH]; cbn [trimEnd]; [apply Nat.le_refl|].
  destruct (trimEnd r) as [|x r'].
  - destruct (is_space c); cbn [String.length]; lia.
  - cbn [String.length] in *. lia.
Qed.

Lemma trim_length (s : string) :
  (String.length (trim s) <= String.length s)%nat.
Proof.
  unfold trim. pose proof (trimEnd_length (trimStart s)).
  pose proof (trimStart_length s). lia.
Qed.

(** A text without the first character of a pattern has no match of it. *)
Lemma no_match_without (m : string -> option nat) (a : ascii) (s : string) :
  (forall c r, Ascii.eqb c a = false -> m (String c r) = None) ->
  m "" = None ->
  has_char a s = false -> no_match m s = true.
Proof.
  intros Hm H0. induction s as [|c r IH]; cbn [has_char no_match].
  - now rewrite H0.
  - intros H. apply orb_false_iff in H as [Hc Hr].
    rewrite (Hm c r Hc). auto.
Qed.

Lemma charAt_has_char (a : ascii) (s : string) :
  forall n, is_char a (charAt n s) = true -> has_char a s = true.
Proof.
  induction s as [|c r IH]; intros n; cbn; [discriminate|].
  destruct n as [|n]; cbn.
  - intros ->. reflexivity.
  - intros H. apply (IH n) in H. rewrite H. apply orb_true_r.
Qed.

End StringFacts.

(* ================================================================= *)
(** ** Further properties of the score *)

Module ScoreEdges.
Import NewsService Spec.
Local Open Scope Z_scope.

Lemma recency_cases (now : Z) (article : Raw.t) :
  publishedWithin 6 now article = true -> publishedWithin 24 now article = true.
Proof.
  unfold publishedWithin. destruct (Raw.publishedAt article) as [| |t];
    try discriminate.
  rewrite !andb_true_iff, !Z.ltb_lt. unfold HOUR. lia.
Qed.

Lemma score_bounds (now : Z) (article : Raw.t) (keyword : string) :
  0 <= calculateRelevanceScore now article keyword <= 9.
Proof.
  unfold calculateRelevanceScore.
  repeat match goal with
         | |- context [if ?b then _ else _] => destruct b
         end; lia.
Qed.

End ScoreEdges.

(** X1.  The sum of the four parts of the score is at most 9: the cap at 10
    never changes it. *)
Theorem calculateRelevanceScore_below_cap :
  forall (now : Z) (article : Raw.t) (keyword : string),
    (NewsService.calculateRelevanceScore now article keyword <= 9)%Z.
Proof.
  intros now article keyword. apply ScoreEdges.score_bounds.
Qed.

(** X2.  The score does not depend on the case of the keyword, of the title or
    of the description. *)
Theorem calculateRelevanceScore_ignores_case :
  forall (now : Z) (article : Raw.t) (keyword : string),
    NewsService.calculateRelevanceScore now article (JS.toLowerCase keyword)
    = NewsService.calculateRelevanceScore now article keyword
    /\ NewsService.calculateRelevanceScore now (Props.lower_text article) keyword
       = NewsService.calculateRelevanceScore now article keyword.
Proof.
  intros now article keyword. split.
  - unfold NewsService.calculateRelevanceScore.
    now rewrite StringFacts.toLowerCase_idem.
  - unfold NewsService.calculateRelevanceScore, NewsService.sourceName.
    cbn [Props.lower_text Raw.title Raw.description Raw.publishedAt Raw.source].
    now rewrite !StringFacts.orElse_lower.
Qed.

(** X3.  With the empty keyword the title and the description always match:
    the score is at least 5. *)
Theorem calculateRelevanceScore_empty_keyword :
  forall (now : Z) (article : Raw.t),
    (5 <= NewsService.calculateRelevanceScore now article "")%Z.
Proof.
  intros now article. unfold NewsService.calculateRelevanceScore.
  cbn [JS.toLowerCase]. rewrite !StringFacts.includes_empty.
  repeat match goal with
         | |- context [if ?b then _ else _] => destruct b
         end; lia.
Qed.

(** X4.  Recency at the edges: an article without a publication date, or dated
    less than six hours before the call (in the future too), gets the two
    recency points; one with an unreadable date, or dated a day or more
    before the call, gets none, so it scores at most 7. *)
Theorem calculateRelevanceScore_recency :
  forall (now : Z) (article : Raw.t) (keyword : string),
    (Raw.publishedAt article = PubMissing ->
     (2 <= NewsService.calculateRelevanceScore now article keyword)%Z)
    /\ (forall t, Raw.publishedAt article = PubAt t -> (now - t < 6 * HOUR)%Z ->
                  (2 <= NewsService.calculateRelevanceScore now article keyword)%Z)
    /\ (Raw.publishedAt article = PubInvalid ->
        (NewsService.calculateRelevanceScore now article keyword <= 7)%Z)
    /\ (forall t, Raw.publishedAt article = PubAt t -> (24 * HOUR <= now - t)%Z ->
                  (NewsService.calculateRelevanceScore now article keyword <= 7)%Z).
Proof.
  intros now article keyword.
  rewrite ScoreFacts.score_sum.
  unfold Spec.score_amended, Spec.recency_points, Spec.points.
  repeat split.
  - intros ->.
    repeat match goal with
           | |- context [if ?b then _ else _] => destruct b
           end; lia.
  - intros t -> Ht. replace (now - t <? 6 * HOUR)%Z with true
      by (symmetry; apply Z.ltb_lt; lia).
    repeat match goal with
           | |- context [if ?b then _ else _] => destruct b
           end; lia.
  - intros ->.
    repeat match goal with
           | |- context [if ?b then _ else _] => destruct b
           end; lia.
  - intros t -> Ht.
    replace (now - t <? 6 * HOUR)%Z with false
      by (symmetry; apply Z.ltb_ge; unfold HOUR in *; lia).
    replace (now - t <? 24 * HOUR)%Z with false
      by (symmetry; apply Z.ltb_ge; lia).
    repeat match goal with
           | |- context [if ?b then _ else _] => destruct b
           end; lia.
Qed.

Lemma calculateRelevanceScore_recency_witness :
  (2 <= NewsService.calculateRelevanceScore
          1700000000000
          (Raw.mk (Some "Markets") None None None PubMissing None) "tech")%Z
  /\ (2 <= NewsService.calculateRelevanceScore
             1700000000000 (Spec.scenario_article 1700003600000) "tech")%Z
  /\ (NewsService.calculateRelevanceScore
        1700000000000
        (Raw.mk (Some "Markets") None None None PubInvalid None) "tech" <= 7)%Z
  /\ (NewsService.calculateRelevanceScore
        1700000000000 (Spec.scenario_article 1600000000000) "tech" <= 7)%Z.
Proof.
  repeat split.
  - exact (proj1 (calculateRelevanceScore_recency 1700000000000
                    (Raw.mk (Some "Markets") None None None PubMissing None) "tech")
                 eq_refl).
  - apply (proj1 (proj2 (calculateRelevanceScore_recency 1700000000000
                           (Spec.scenario_article 1700003600000) "tech"))
                 1700003600000%Z eq_refl).
    reflexivity.
  - exact (proj1 (proj2 (proj2 (calculateRelevanceScore_recency 1700000000000
                    (Raw.mk (Some "Markets") None None None PubInvalid None) "tech")))
                 eq_refl).
  - apply (proj2 (proj2 (proj2 (calculateRelevanceScore_recency 1700000000000
                           (Spec.scenario_article 1600000000000) "tech")))
                 1600000000000%Z eq_refl).
    discriminate.
Defined.

(** X5.  For queries and keywords written in the characters of the model
    (code units below U+0100, where [toLowerCase] maps character by
    character): a placeholder article made for a query scores 7 against
    every keyword that occurs in the query, when it is scored less than four
    hours after it was made: 3 for the title, 2 for the description, 2 for
    recency and nothing for its source.  (Beyond these characters lower case
    depends on the neighbours of a letter, and a keyword that occurs in the
    query need not occur in the lower-cased title.) *)
Theorem placeholders_score_7 :
  forall (env : Effects.Env) (w : Effects.World) (query keyword : string) (now : Z),
    JS.Contains query keyword ->
    (forall i, (i < 3)%nat ->
               (now - Effects.clock env (Effects.ticks w + i) < 4 * HOUR)%Z) ->
    Forall (fun article =>
              NewsService.calculateRelevanceScore now article keyword = 7%Z)
           (Spec.returned (NewsService.getMockNewsData query env w)).
Proof.
  intros env w query keyword now Hk Hclock.
  pose proof (Hclock 0%nat ltac:(lia)) as H0.
  pose proof (Hclock 1%nat ltac:(lia)) as H1.
  pose proof (Hclock 2%nat ltac:(lia)) as H2.
  rewrite Nat.add_0_r in H0. rewrite Nat.add_1_r in H1.
  replace (Effects.ticks w + 2)%nat with (S (S (Effects.ticks w))) in H2 by lia.
  unfold HOUR in *.
  assert (Hin : forall a b, JS.includes (JS.toLowerCase (a ++ query ++ b))
                                        (JS.toLowerCase keyword) = true).
  { intros a b. apply StringFacts.includes_lower.
    apply (StringFacts.Contains_trans _ query); [now exists a, b | exact Hk]. }
  assert (Hin0 : forall b, JS.includes (JS.toLowerCase (query ++ b))
                                       (JS.toLowerCase keyword) = true)
    by (intros b; exact (Hin "" b)).
  cbv [Spec.returned NewsService.getMockNewsData Effects.bind Effects.moment
       Effects.ret fst].
  cbn [Effects.ticks].
  repeat constructor; rewrite ScoreFacts.score_sum;
    cbv [Spec.score_amended Spec.recency_points Spec.points
         Raw.title Raw.description Raw.publishedAt];
    rewrite !StringFacts.orElse_some, ?Hin, ?Hin0.
  - replace (now - Effects.clock env (Effects.ticks w) <? 6 * HOUR)%Z with true
      by (symmetry; apply Z.ltb_lt; unfold HOUR; lia).
    reflexivity.
  - replace (now - (Effects.clock env (S (Effects.ticks w)) - 1 * HOUR) <? 6 * HOUR)%Z
      with true by (symmetry; apply Z.ltb_lt; unfold HOUR; lia).
    reflexivity.
  - replace (now - (Effects.clock env (S (S (Effects.ticks w))) - 2 * HOUR)
             <? 6 * HOUR)%Z
      with true by (symmetry; apply Z.ltb_lt; unfold HOUR; lia).
    reflexivity.
Qed.

Lemma placeholders_score_7_witness :
  Forall (fun article =>
            NewsService.calculateRelevanceScore 1700000000005 article "business" = 7%Z)
         (Spec.returned (NewsService.getMockNewsData "global business economy"
                           (Spec.failing_env 0) Spec.empty_world)).
Proof.
  apply (placeholders_score_7 (Spec.failing_env 0) Spec.empty_world
           "global business economy" "business" 1700000000005).
  - exists "global ", " economy". reflexivity.
  - intros i Hi.
    cbv [Spec.failing_env Effects.clock Spec.empty_world Effects.ticks HOUR Nat.add].
    lia.
Defined.

(* ================================================================= *)
(** ** Further properties of the sanitizer and of the labels *)

Module PlainTextFacts.
Import JS NewsService Spec Props.

Lemma has_gt_has_char (s : string) : has_gt s = has_char ">" s.
Proof.
  induction s as [|c r IH]; cbn; [reflexivity | now rewrite IH].
Qed.

Lemma no_tag_without_gt (s : string) :
  has_char ">" s = false -> no_match match_tag s = true.
Proof.
  induction s as [|c r IH]; [reflexivity|].
  cbn [has_char]. intros H. apply orb_false_iff in H as [_ Hr].
  cbn [no_match].
  assert (E : match_tag (String c r) = None).
  { apply SanitizeFacts.match_tag_cons. right. now rewrite has_gt_has_char. }
  rewrite E. auto.
Qed.

Lemma no_entity_without_semicolon (s : string) :
  has_char ";" s = false -> no_match match_entity s = true.
Proof.
  induction s as [|c r IH]; [reflexivity|].
  cbn [has_char]. intros H. apply orb_false_iff in H as [_ Hr].
  cbn [no_match].
  assert (E : match_entity (String c r) = None).
  { unfold match_entity. destruct (Ascii.eqb c "&"); [|reflexivity].
    destruct (is_char ";" (charAt (span (fun c0 => Ascii.eqb c0 "#" || is_word c0) r) r))
      eqn:E; [|now rewrite andb_false_r].
    apply StringFacts.charAt_has_char in E. congruence. }
  rewrite E. auto.
Qed.

Lemma no_tag_without_lt (s : string) :
  has_char "<" s = false -> no_match match_tag s = true.
Proof.
  apply StringFacts.no_match_without; [|reflexivity].
  intros c r H. unfold match_tag. now rewrite H.
Qed.

Lemma no_entity_without_amp (s : string) :
  has_char "&" s = false -> no_match match_entity s = true.
Proof.
  apply StringFacts.no_match_without; [|reflexivity].
  intros c r H. unfold match_entity. now rewrite H.
Qed.

Lemma sanitize_trimmed (text : option string) :
  trim (sanitizeText text) = sanitizeText text.
Proof.
  destruct text as [[|c r]|]; try reflexivity. apply SanitizeFacts.trim_idem.
Qed.

End PlainTextFacts.

(** X6.  The output of [sanitizeText] has no white space at either end and is
    never longer than its input. *)
Theorem sanitizeText_trimmed_and_shorter :
  forall text : option string,
    JS.trim (NewsService.sanitizeText text) = NewsService.sanitizeText text
    /\ (String.length (NewsService.sanitizeText text) <= Props.text_length text)%nat.
Proof.
  intros text. split; [apply PlainTextFacts.sanitize_trimmed|].
  destruct text as [[|c r]|]; cbn [Props.text_length]; try apply Nat.le_0_l.
  unfold NewsService.sanitizeText, NewsService.strip_entities, NewsService.strip_tags.
  etransitivity; [apply StringFacts.trim_length|].
  etransitivity; [apply StringFacts.replaceAll_length|].
  apply StringFacts.replaceAll_length.
Qed.

(** X7.  The sanitizer fails open: a text in which no tag can close (no [<] or no
    [>]) and no entity can close (no [&] or no [;]) is only trimmed. *)
Theorem sanitizeText_plain_text :
  forall s : string,
    (Props.has_char "<" s = false \/ Props.has_char ">" s = false) ->
    (Props.has_char "&" s = false \/ Props.has_char ";" s = false) ->
    NewsService.sanitizeText (Some s) = JS.trim s.
Proof.
  intros s Htag Hent.
  assert (T : JS.no_match NewsService.match_tag s = true)
    by (destruct Htag; [now apply PlainTextFacts.no_tag_without_lt
                       | now apply PlainTextFacts.no_tag_without_gt]).
  assert (E : JS.no_match NewsService.match_entity s = true)
    by (destruct Hent; [now apply PlainTextFacts.no_entity_without_amp
                       | now apply PlainTextFacts.no_entity_without_semicolon]).
  destruct s as [|c r]; [reflexivity|].
  unfold NewsService.sanitizeText, NewsService.strip_entities, NewsService.strip_tags.
  now rewrite (SanitizeFacts.replaceAll_no_match _ _ T),
              (SanitizeFacts.replaceAll_no_match _ _ E).
Qed.

Lemma sanitizeText_plain_text_witness :
  NewsService.sanitizeText (Some " profit < 5% & rising ") = "profit < 5% & rising"
  /\ NewsService.sanitizeText (Some "up > 5%; down") = "up > 5%; down".
Proof.
  split.
  - exact (sanitizeText_plain_text " profit < 5% & rising "
             (or_intror eq_refl) (or_intror eq_refl)).
  - exact (sanitizeText_plain_text "up > 5%; down"
             (or_introl eq_refl) (or_introl eq_refl)).
Defined.

(** X8.  [getLocationValue] returns one of its three places; for the city query
    it is the city; and an empty city is "contained" in every query, so it
    is returned for all of them. *)
Theorem getLocationValue_cases :
  forall query city state country : string,
    In (NewsService.getLocationValue query city state country) [city; state; country]
    /\ NewsService.getLocationValue (city ++ " business") city state country = city
    /\ NewsService.getLocationValue query "" state country = "".
Proof.
  intros query city state country. unfold NewsService.getLocationValue.
  split; [|split].
  - destruct (JS.includes query city); [now left|].
    destruct (JS.includes query state); [right; now left | right; right; now left].
  - assert (H : JS.includes (city ++ " business") city = true)
      by (apply JSFacts.includes_iff; now exists "", " business").
    now rewrite H.
  - now rewrite StringFacts.includes_empty.
Qed.

(* ================================================================= *)
(** ** Further facts about running the service *)

Module FrameFacts.
Import Effects NewsService Props.
Local Open Scope js_scope.

Lemma same_database_refl (w : World) : same_database w w.
Proof. now repeat split. Qed.

Lemma same_database_trans (w1 w2 w3 : World) :
  same_database w1 w2 -> same_database w2 w3 -> same_database w1 w3.
Proof.
  unfold same_database. intros (A1 & B1 & C1) (A2 & B2 & C2).
  repeat split; congruence.
Qed.

Lemma mapM_frame {A B} (f : A -> M B) (P : A -> B -> Prop) env :
  (forall a w, exists b w',
      f a env w = (Ok b, w') /\ requests w' = requests w
      /\ same_database w w' /\ P a b) ->
  forall l w, exists bs w',
      mapM f l env w = (Ok bs, w') /\ requests w' = requests w
      /\ same_database w w' /\ Forall2 P l bs.
Proof.
  intros Hf l. induction l as [|a r IH]; intros w; cbn [mapM].
  - exists [], w. repeat split. constructor.
  - destruct (Hf a w) as (b & w1 & E1 & R1 & D1 & Pb).
    destruct (IH w1) as (bs & w2 & E2 & R2 & D2 & Pbs).
    exists (b :: bs), w2.
    rewrite (RunFacts.bind_ok _ _ _ _ _ _ E1), (RunFacts.bind_ok _ _ _ _ _ _ E2).
    split; [reflexivity|]. split; [congruence|].
    split; [now apply (same_database_trans w w1 w2) | now constructor].
Qed.

Lemma for_of_frame {A B} (body : list B -> A -> M (list B))
      (req : A -> string * Z) (Q : A -> list B -> Prop) env :
  (forall acc x w, exists ps w',
      body acc x env w = (Ok (acc ++ ps)%list, w')
      /\ requests w' = (requests w ++ [req x])%list
      /\ same_database w w' /\ Q x ps) ->
  forall xs acc w, exists pss w',
      for_of xs body acc env w = (Ok (acc ++ List.concat pss)%list, w')
      /\ requests w' = (requests w ++ map req xs)%list
      /\ same_database w w' /\ Forall2 Q xs pss.
Proof.
  intros Hb xs. induction xs as [|x r IH]; intros acc w; cbn [for_of map].
  - exists [], w. cbn [List.concat]. rewrite !app_nil_r.
    repeat split. constructor.
  - destruct (Hb acc x w) as (ps & w1 & E1 & R1 & D1 & Q1).
    destruct (IH (acc ++ ps)%list w1) as (pss & w2 & E2 & R2 & D2 & Q2).
    exists (ps :: pss), w2.
    rewrite (RunFacts.bind_ok _ _ _ _ _ _ E1), E2, R2, R1. cbn [List.concat].
    rewrite <- !app_assoc.
    split; [reflexivity|]. split; [reflexivity|].
    split; [now apply (same_database_trans w w1 w2) | now constructor].
Qed.

Lemma Forall2_right {A B} (P : B -> Prop) (l : list A) (bs : list B) :
  Forall2 (fun _ b => P b) l bs -> Forall P bs.
Proof.
  induction 1; constructor; assumption.
Qed.

(** What [fetchNewsFromAPI] returns, by the answer of the news source. *)
Lemma fetch_frame (query : string) (pageSize : Z) env w :
  exists articles w',
    fetchNewsFromAPI query pageSize env w = (Ok articles, w')
    /\ requests w' = (requests w ++ [(query, pageSize)])%list
    /\ same_database w w'
    /\ match upstream env (List.length (requests w)) query pageSize with
       | Resolved (Some l) => articles = l /\ ticks w' = ticks w
       | Resolved None => articles = [] /\ ticks w' = ticks w
       | NoBody | Rejected _ => List.length articles = 3%nat
       end.
Proof.
  unfold fetchNewsFromAPI, try_catch, bind, axios_get.
  destruct (upstream env (List.length (requests w)) query pageSize) as [[l|]| |msg];
    cbn; do 2 eexists; (split; [reflexivity|]); (split; [reflexivity|]);
    (split; [apply same_database_refl || (repeat split) |]); auto.
Qed.

Lemma well_formed_made (uuid : string) (now : Z) (article : Raw.t) (keyword : string)
      u i p cat lt lv ind su :
  well_formed
    (mkArticle uuid (sanitizeText (Raw.title article))
               (sanitizeText (Raw.description article)) u i p
               (JS.orElse (sourceName article) "Unknown") su cat lt lv ind
               (calculateRelevanceScore now article keyword)).
Proof.
  unfold well_formed, clean;
    cbn [relevance_score title description source_name].
  split; [apply ScoreEdges.score_bounds|].
  split; [split; [apply SanitizeFacts.closed_no_tag, SanitizeFacts.sanitize_closed
                 | apply PlainTextFacts.sanitize_trimmed]|].
  split; [split; [apply SanitizeFacts.closed_no_tag, SanitizeFacts.sanitize_closed
                 | apply PlainTextFacts.sanitize_trimmed]|].
  destruct (sourceName article) as [[|c r]|]; discriminate.
Qed.

(** The articles of [getLocationBasedNews], query by query. *)
Lemma getLocationBasedNews_made (city state country : string) (limit : Z) env w :
  exists p1 p2 p3 w',
    getLocationBasedNews city state country limit env w
    = (Ok (JS.slice0 (limit * 3) (p1 ++ p2 ++ p3)%list), w')
    /\ same_database w w'
    /\ Forall (location_made city state country (city ++ " business")) p1
    /\ Forall (location_made city state country (state ++ " economy")) p2
    /\ Forall (location_made city state country (country ++ " business news")) p3
    /\ (always_rejects env ->
        List.length p1 = 3%nat /\ List.length p2 = 3%nat /\ List.length p3 = 3%nat).
Proof.
  unfold getLocationBasedNews.
  set (Q := fun (q : string) (ps : list Article) =>
              Forall (location_made city state country q) ps
              /\ (always_rejects env -> List.length ps = 3%nat)).
  match goal with
  | |- context [for_of ?xs ?body ?acc] =>
      assert (Hbody : forall acc0 q w0, exists ps w',
                 body acc0 q env w0 = (Ok (acc0 ++ ps)%list, w')
                 /\ requests w' = (requests w0 ++ [(q, limit)])%list
                 /\ same_database w0 w' /\ Q q ps);
      [| destruct (for_of_frame body (fun q => (q, limit)) Q env Hbody xs acc w)
          as (pss & w' & E & R & D & HQ)]
  end.
  - intros acc0 q w0. cbv beta.
    destruct (fetch_frame q limit env w0) as (arts & w1 & E1 & R1 & D1 & U1).
    rewrite (RunFacts.bind_ok _ _ _ _ _ _ E1).
    match goal with
    | |- context [mapM ?f arts] =>
        assert (Hf : forall a w2, exists b w3,
                   f a env w2 = (Ok b, w3) /\ requests w3 = requests w2
                   /\ same_database w2 w3
                   /\ (fun _ b => location_made city state country q b) a b);
        [| destruct (mapM_frame f _ env Hf arts w1)
            as (bs & w2 & E2 & R2 & D2 & HP)]
    end.
    + intros a w2. do 2 eexists. split; [reflexivity|].
      split; [reflexivity|]. split; [now repeat split|].
      repeat split; apply well_formed_made.
    + exists bs, w2. rewrite (RunFacts.bind_ok _ _ _ _ _ _ E2). cbn [ret].
      split; [reflexivity|]. split; [congruence|].
      split; [now apply (same_database_trans w0 w1 w2)|].
      split; [now apply Forall2_right in HP|].
      intros Hrej. apply Forall2_length in HP. rewrite <- HP.
      destruct (Hrej (List.length (requests w0)) q limit) as (msg & Hmsg).
      now rewrite Hmsg in U1.
  - inversion HQ as [|q1 p1 qs1 ps1 [F1 L1] HQ1]; subst.
    inversion HQ1 as [|q2 p2 qs2 ps2 [F2 L2] HQ2]; subst.
    inversion HQ2 as [|q3 p3 qs3 ps3 [F3 L3] HQ3]; subst.
    inversion HQ3; subst.
    exists p1, p2, p3, w'. rewrite (RunFacts.bind_ok _ _ _ _ _ _ E).
    cbn [ret List.concat app]. rewrite app_nil_r.
    split; [reflexivity|]. split; [exact D|].
    split; [exact F1|]. split; [exact F2|]. split; [exact F3|].
    intros Hrej. auto.
Qed.

End FrameFacts.

Module ProducerFacts.
Import Effects NewsService Props FrameFacts.
Local Open Scope js_scope.

Lemma Forall2_concat {A B} (P : A -> B -> Prop) (R : A -> list B -> Prop)
      (xs : list A) (pss : list (list B)) :
  (forall x ps, R x ps -> Forall (P x) ps) ->
  Forall2 R xs pss ->
  Forall (fun b => exists x, In x xs /\ P x b) (List.concat pss).
Proof.
  intros HR H. induction H as [|x ps xs pss Hx _ IH]; cbn [List.concat].
  - constructor.
  - apply Forall_app. split.
    + apply HR in Hx. revert Hx. apply Forall_impl.
      intros b Hb. exists x. split; [now left | exact Hb].
    + revert IH. apply Forall_impl. intros b (y & Hy & Hb).
      exists y. split; [now right | exact Hb].
Qed.

(** The articles of [getIndustryNews], industry by industry; the first
    batch is as long as the answer to the first request. *)
Lemma getIndustryNews_made (careerField : string) (limit : Z) env w :
  JsObject.get CAREER_INDUSTRIES careerField <> JsObject.Inherited ->
  exists pss w',
    getIndustryNews careerField limit env w
    = (Ok (JS.slice0 limit (List.concat pss)), w')
    /\ requests w'
       = (requests w
          ++ map (fun i => ((i ++ " business news")%string, limit))
                 (industries_asked careerField))%list
    /\ same_database w w'
    /\ Forall2 (fun i ps => Forall (industry_made i) ps
                            /\ (always_rejects env -> List.length ps = 3%nat))
               (industries_asked careerField) pss
    /\ (forall l,
           upstream env (List.length (requests w))
                    (hd "" (industries_asked careerField) ++ " business news") limit
           = Resolved (Some l) ->
           industries_asked careerField <> [] ->
           List.length (hd [] pss) = List.length l).
Proof.
  intros Hget. unfold getIndustryNews, industries_asked.
  set (Q := fun (i : string) (ps : list Article) =>
              Forall (industry_made i) ps
              /\ (always_rejects env -> List.length ps = 3%nat)).
  match goal with
  | |- context [for_of _ ?b _] => set (body := b)
  end.
  assert (Hbody : forall acc0 i w0, exists ps w',
             body acc0 i env w0 = (Ok (acc0 ++ ps)%list, w')
             /\ requests w' = (requests w0 ++ [((i ++ " business news")%string, limit)])%list
             /\ same_database w0 w' /\ Q i ps
             /\ (forall l, upstream env (List.length (requests w0))
                                    (i ++ " business news") limit
                           = Resolved (Some l) ->
                           List.length ps = List.length l));
    [| assert (Hloop : forall xs acc0 w0, exists pss w',
                  for_of xs body acc0 env w0 = (Ok (acc0 ++ List.concat pss)%list, w')
                  /\ requests w'
                     = (requests w0
                        ++ map (fun i => ((i ++ " business news")%string, limit)) xs)%list
                  /\ same_database w0 w' /\ Forall2 Q xs pss
                  /\ (forall l, upstream env (List.length (requests w0))
                                         (hd "" xs ++ " business news") limit
                                = Resolved (Some l) ->
                                xs <> [] ->
                                List.length (hd [] pss) = List.length l))].
  - intros acc0 i w0. unfold body.
    destruct (fetch_frame (i ++ " business news") limit env w0)
      as (arts & w1 & E1 & R1 & D1 & U1).
    rewrite (RunFacts.bind_ok _ _ _ _ _ _ E1).
    match goal with
    | |- context [mapM ?f arts] =>
        assert (Hf : forall a w2, exists b w3,
                   f a env w2 = (Ok b, w3) /\ requests w3 = requests w2
                   /\ same_database w2 w3
                   /\ (fun _ b => industry_made i b) a b);
        [| destruct (mapM_frame f _ env Hf arts w1)
            as (bs & w2 & E2 & R2 & D2 & HP)]
    end.
    + intros a w2. do 2 eexists. split; [reflexivity|].
      split; [reflexivity|]. split; [now repeat split|].
      repeat split; apply well_formed_made.
    + exists bs, w2. rewrite (RunFacts.bind_ok _ _ _ _ _ _ E2). cbn [ret].
      split; [reflexivity|]. split; [congruence|].
      split; [now apply (same_database_trans w0 w1 w2)|].
      pose proof (Forall2_length HP) as HL.
      split; [split; [now apply Forall2_right in HP|]|].
      * intros Hrej. rewrite <- HL.
        destruct (Hrej (List.length (requests w0)) (i ++ " business news") limit)
          as (msg & Hmsg).
        now rewrite Hmsg in U1.
      * intros l Hl. rewrite Hl in U1. destruct U1 as [-> _]. now symmetry.
  - intros [|x xs] acc0 w0.
    + exists [], w0. cbn [for_of map List.concat]. rewrite !app_nil_r.
      split; [reflexivity|]. split; [reflexivity|].
      split; [apply same_database_refl|]. split; [constructor|].
      intros l _ H. now contradiction H.
    + cbn [for_of map hd].
      destruct (Hbody acc0 x w0) as (ps & w1 & E1 & R1 & D1 & Q1 & U1).
      assert (Hweak : forall acc1 i w2, exists ps' w',
                 body acc1 i env w2 = (Ok (acc1 ++ ps')%list, w')
                 /\ requests w' = (requests w2 ++ [((i ++ " business news")%string, limit)])%list
                 /\ same_database w2 w' /\ Q i ps').
      { intros acc1 i w2. destruct (Hbody acc1 i w2) as (p & w3 & A1 & A2 & A3 & A4 & _).
        now exists p, w3. }
      destruct (for_of_frame body (fun i => ((i ++ " business news")%string, limit))
                             Q env Hweak xs (acc0 ++ ps)%list w1)
        as (pss & w2 & E2 & R2 & D2 & Q2).
      exists (ps :: pss), w2.
      rewrite (RunFacts.bind_ok _ _ _ _ _ _ E1), E2, R2, R1. cbn [List.concat hd].
      rewrite <- !app_assoc.
      split; [reflexivity|]. split; [reflexivity|].
      split; [now apply (same_database_trans w0 w1 w2)|].
      split; [now constructor|].
      intros l Hl _. now apply U1.
  - destruct (JsObject.get CAREER_INDUSTRIES careerField) as [l| |];
      [| contradiction |].
    + destruct (Hloop (JS.slice0 2 l) [] w) as (pss & w' & E & R & D & HQ & HU).
      exists pss, w'. rewrite RunFacts.bind_ret, (RunFacts.bind_ok _ _ _ _ _ _ E).
      split; [reflexivity|]. split; [exact R|]. split; [exact D|].
      split; [exact HQ | exact HU].
    + destruct (Hloop (JS.slice0 2 [careerField]) [] w)
        as (pss & w' & E & R & D & HQ & HU).
      exists pss, w'. rewrite RunFacts.bind_ret, (RunFacts.bind_ok _ _ _ _ _ _ E).
      split; [reflexivity|]. split; [exact R|]. split; [exact D|].
      split; [exact HQ | exact HU].
Qed.

End ProducerFacts.

(* ================================================================= *)
(** ** Asynchronous calls *)

Module AsyncFacts.
Import Effects NewsService Props.

Lemma Runs_impl {A} env (p : Proc A) :
  forall P Q : list (string * Z) -> Res A -> Prop,
    (forall qs r, P qs r -> Q qs r) -> Runs env P p -> Runs env Q p.
Proof.
  induction p as [r|q n resume IH] using Proc_induction; intros P Q H; cbn [Runs].
  - apply H.
  - intros HR k w. destruct (HR k w) as (R1 & D1 & R2).
    split; [exact R1|]. split; [exact D1|].
    revert R2. apply IH. intros qs r. apply H.
Qed.

Lemma Starts_impl {A} env (t : Task A) (P Q : list (string * Z) -> Res A -> Prop) :
  (forall qs r, P qs r -> Q qs r) -> Starts env P t -> Starts env Q t.
Proof.
  intros H HS w. destruct (HS w) as (R1 & D1 & R2).
  split; [exact R1|]. split; [exact D1|]. revert R2. now apply Runs_impl.
Qed.

Lemma Starts_ret {A} env (a : A) (P : list (string * Z) -> Res A -> Prop) :
  P [] (Ok a) -> Starts env P (task_ret a).
Proof.
  intros H w. cbn. split; [reflexivity|].
  split; [apply FrameFacts.same_database_refl | exact H].
Qed.

Lemma Starts_throw {A} env (e : string) (P : list (string * Z) -> Res A -> Prop) :
  P [] (Throw e) -> Starts env P (task_throw e).
Proof.
  intros H w. cbn. split; [reflexivity|].
  split; [apply FrameFacts.same_database_refl | exact H].
Qed.

Lemma Starts_sync {A} env (m : M A) (P : list (string * Z) -> Res A -> Prop) :
  (forall w, requests (snd (m env w)) = requests w
             /\ same_database w (snd (m env w))
             /\ P [] (fst (m env w))) ->
  Starts env P (sync m).
Proof.
  intros H w. specialize (H w). unfold sync. destruct (m env w) as [r w']. exact H.
Qed.

Lemma Runs_bind {A B} env (k : A -> Task B) (p : Proc A) :
  forall Q : list (string * Z) -> Res B -> Prop,
    Runs env (fun qs r =>
                match r with
                | Ok a => Starts env (fun qs' r' => Q (qs ++ qs')%list r') (k a)
                | Throw e => Q qs (Throw e)
                end) p ->
    forall w,
      requests (snd (bindP p k env w)) = requests w
      /\ same_database w (snd (bindP p k env w))
      /\ Runs env Q (fst (bindP p k env w)).
Proof.
  induction p as [[a|e]|q n resume IH] using Proc_induction; intros Q H w;
    cbn [bindP Runs] in *.
  - apply H.
  - split; [reflexivity|]. split; [apply FrameFacts.same_database_refl | exact H].
  - split; [reflexivity|]. split; [apply FrameFacts.same_database_refl|].
    cbn [fst Runs]. intros k0 w0. destruct (H k0 w0) as (R1 & D1 & R2).
    specialize (IH (upstream env k0 q n) env w0 (fun qs r => Q ((q, n) :: qs) r)).
    destruct (resume (upstream env k0 q n) env w0) as [p' w1]. cbn [fst snd] in *.
    destruct (IH R2 w1) as (R3 & D3 & R4).
    split; [congruence|].
    split; [now apply (FrameFacts.same_database_trans w0 w1) | exact R4].
Qed.

Lemma Starts_bind {A B} env (t : Task A) (k : A -> Task B)
      (Q : list (string * Z) -> Res B -> Prop) :
  Starts env (fun qs r =>
                match r with
                | Ok a => Starts env (fun qs' r' => Q (qs ++ qs')%list r') (k a)
                | Throw e => Q qs (Throw e)
                end) t ->
  Starts env Q (task_bind t k).
Proof.
  intros H w. unfold task_bind. destruct (H w) as (R1 & D1 & R2).
  destruct (t env w) as [p w1]. cbn [fst snd] in *.
  destruct (Runs_bind env k p Q R2 w1) as (R3 & D3 & R4).
  split; [congruence|].
  split; [now apply (FrameFacts.same_database_trans w w1) | exact R4].
Qed.

Lemma Runs_catch {A} env (h : string -> Task A) (p : Proc A) :
  forall Q : list (string * Z) -> Res A -> Prop,
    Runs env (fun qs r =>
                match r with
                | Ok a => Q qs (Ok a)
                | Throw e => Starts env (fun qs' r' => Q (qs ++ qs')%list r') (h e)
                end) p ->
    forall w,
      requests (snd (catchP p h env w)) = requests w
      /\ same_database w (snd (catchP p h env w))
      /\ Runs env Q (fst (catchP p h env w)).
Proof.
  induction p as [[a|e]|q n resume IH] using Proc_induction; intros Q H w;
    cbn [catchP Runs] in *.
  - split; [reflexivity|]. split; [apply FrameFacts.same_database_refl | exact H].
  - apply H.
  - split; [reflexivity|]. split; [apply FrameFacts.same_database_refl|].
    cbn [fst Runs]. intros k0 w0. destruct (H k0 w0) as (R1 & D1 & R2).
    specialize (IH (upstream env k0 q n) env w0 (fun qs r => Q ((q, n) :: qs) r)).
    destruct (resume (upstream env k0 q n) env w0) as [p' w1]. cbn [fst snd] in *.
    destruct (IH R2 w1) as (R3 & D3 & R4).
    split; [congruence|].
    split; [now apply (FrameFacts.same_database_trans w0 w1) | exact R4].
Qed.

Lemma Starts_try {A} env (t : Task A) (h : string -> Task A)
      (Q : list (string * Z) -> Res A -> Prop) :
  Starts env (fun qs r =>
                match r with
                | Ok a => Q qs (Ok a)
                | Throw e => Starts env (fun qs' r' => Q (qs ++ qs')%list r') (h e)
                end) t ->
  Starts env Q (task_try t h).
Proof.
  intros H w. unfold task_try. destruct (H w) as (R1 & D1 & R2).
  destruct (t env w) as [p w1]. cbn [fst snd] in *.
  destruct (Runs_catch env h p Q R2 w1) as (R3 & D3 & R4).
  split; [congruence|].
  split; [now apply (FrameFacts.same_database_trans w w1) | exact R4].
Qed.

Lemma Starts_await env (q : string) (n : Z)
      (P : list (string * Z) -> Res (option (option (list Raw.t))) -> Prop) :
  (forall k, P [(q, n)] (match upstream env k q n with
                         | Resolved articles => Ok (Some articles)
                         | NoBody => Ok None
                         | Rejected msg => Throw msg
                         end)) ->
  Starts env P (await_axios_get q n).
Proof.
  intros H w. cbn. split; [reflexivity|].
  split; [apply FrameFacts.same_database_refl|].
  intros k w0. cbn. split; [reflexivity|].
  split; [apply FrameFacts.same_database_refl | apply H].
Qed.

Lemma Starts_for_of {A B} env (body : list B -> A -> Task (list B))
      (req : A -> string * Z) (Q : A -> list B -> Prop) :
  (forall acc x,
      Starts env (fun qs r => qs = [req x]
                              /\ exists ps, r = Ok (acc ++ ps)%list /\ Q x ps)
             (body acc x)) ->
  forall xs acc,
    Starts env (fun qs r => qs = map req xs
                            /\ exists pss, r = Ok (acc ++ List.concat pss)%list
                                           /\ Forall2 Q xs pss)
           (task_for_of xs body acc).
Proof.
  intros Hb xs. induction xs as [|x xs IH]; intros acc; cbn [task_for_of map].
  - apply Starts_ret. split; [reflexivity|]. exists [].
    cbn [List.concat]. rewrite app_nil_r. split; [reflexivity | constructor].
  - apply Starts_bind. eapply Starts_impl; [|apply Hb].
    intros qs r (-> & ps & -> & HQ).
    eapply Starts_impl; [|apply (IH (acc ++ ps)%list)].
    intros qs' r' (-> & pss & -> & HF).
    split; [reflexivity|]. exists (ps :: pss).
    cbn [List.concat]. rewrite app_assoc. split; [reflexivity | now constructor].
Qed.

End AsyncFacts.

(* ================================================================= *)
(** ** Calls that run together *)

Module JoinFacts.
Import Effects NewsService Props AsyncFacts.

Lemma send_spec {A} (p : Proc A) w :
  requests (snd (send p w)) = (requests w ++ pending p)%list
  /\ same_database w (snd (send p w)).
Proof.
  destruct p; cbn; rewrite ?app_nil_r; repeat split.
Qed.

(** [settle3] step by step. *)
Lemma settle3_eq {A B C} env (pa : Proc A) ka (pb : Proc B) kb (pc : Proc C) kc err w :
  settle3 env pa ka pb kb pc kc err w
  = schedule env
      (fun pa' w' => let (ka', w'') := send pa' w' in
                     settle3 env pa' ka' pb kb pc kc (first_error err pa') w'')
      (fun pb' w' => let (kb', w'') := send pb' w' in
                     settle3 env pa ka pb' kb' pc kc (first_error err pb') w'')
      (fun pc' w' => let (kc', w'') := send pc' w' in
                     settle3 env pa ka pb kb pc' kc' (first_error err pc') w'')
      pa ka pb kb pc kc err w.
Proof.
  destruct pa, pb, pc; reflexivity.
Qed.

(** A settled call keeps its result. *)
Lemma Runs_settled {A} env (P : list (string * Z) -> Res A -> Prop) (p : Proc A) :
  Runs env P p ->
  Runs env (fun qs r => P qs r /\ forall r0, p = Settled r0 -> r = r0) p.
Proof.
  destruct p as [r|q n f]; cbn [Runs].
  - intros H. split; [exact H|]. intros r0 E. now injection E.
  - intros H k w. destruct (H k w) as (R & D & HR).
    split; [exact R|]. split; [exact D|].
    revert HR. apply Runs_impl. intros qs r HP. split; [exact HP | discriminate].
Qed.

Lemma first_error_none {A} (err : option string) (p : Proc A) :
  first_error err p = None -> err = None /\ not_thrown p.
Proof.
  destruct err as [e|]; [discriminate|].
  destruct p as [[a|e]|q n f]; cbn; try discriminate; auto.
Qed.

Lemma first_thrown_step {A B C D} (err err' : option string) (p : Proc D)
      (r : Res A * Res B * Res C) :
  (forall e, p = Settled (Throw e) ->
             fst (fst r) = Throw e \/ snd (fst r) = Throw e \/ snd r = Throw e) ->
  first_thrown (first_error err p) err' r -> first_thrown err err' r.
Proof.
  intros Hp. unfold first_thrown. destruct err' as [e|].
  - intros [H|[H1 H2]].
    + destruct err as [e0|]; [left; exact H|]. right. split; [reflexivity|].
      apply Hp. destruct p as [[a|e1]|q n f]; cbn in H; try discriminate.
      now injection H as ->.
    + right. split; [|exact H2]. now apply first_error_none in H1.
  - intros [H1 H2]. split; [|exact H2]. now apply first_error_none in H1.
Qed.

Lemma perm_a {X} (x : X) (Y N : list X) :
  Permutation (([x] ++ Y) ++ N) (x :: N ++ Y).
Proof.
  cbn. apply perm_skip, Permutation_app_comm.
Qed.

Lemma perm_b {X} (x : X) (L Y N : list X) :
  Permutation ((L ++ [x] ++ Y) ++ N) (x :: L ++ N ++ Y).
Proof.
  rewrite <- app_assoc. cbn. symmetry. apply Permutation_cons_app.
  apply Permutation_app_head, Permutation_app_comm.
Qed.

Lemma perm_c {X} (x : X) (L Y N : list X) :
  Permutation ((L ++ Y ++ [x]) ++ N) (x :: L ++ Y ++ N).
Proof.
  rewrite <- !app_assoc. cbn. symmetry.
  rewrite (app_assoc L Y (x :: N)), (app_assoc L Y N).
  now apply Permutation_cons_app.
Qed.

Section Steps.
Context {A B C : Type}.
Variables (Pa : list (string * Z) -> Res A -> Prop)
          (Pb : list (string * Z) -> Res B -> Prop)
          (Pc : list (string * Z) -> Res C -> Prop).
Variables (x : string * Z) (sent sent' new : list (string * Z)).
Variables (err : option string) (w w2 : World).
Variable e : (option string * (Res A * Res B * Res C)) * World.
Hypothesis Hreq : requests w2 = (requests w ++ new)%list.
Hypothesis Hdb : same_database w w2.
Hypothesis Hperm : Permutation (sent ++ new) (x :: sent').

Lemma perm_sent (issued rest : list (string * Z)) :
  Permutation (sent' ++ issued) rest ->
  Permutation (sent ++ new ++ issued) (x :: rest).
Proof.
  intros H. rewrite app_assoc.
  transitivity ((x :: sent') ++ issued)%list.
  - now apply Permutation_app_tail.
  - cbn. now apply perm_skip.
Qed.

Lemma Settles_a (p : Proc A) :
  Settles (fun qs r => Pa (x :: qs) r /\ forall r0, p = Settled r0 -> r = r0)
          Pb Pc sent' (first_error err p) w2 e ->
  Settles Pa Pb Pc sent err w e.
Proof.
  intros (issued & (qa & qb & qc & [Ha Hr] & Hb & Hc & HP) & Hf & R & D).
  exists (new ++ issued)%list. split; [|split; [|split]].
  - exists (x :: qa), qb, qc. split; [exact Ha|]. split; [exact Hb|].
    split; [exact Hc|]. now apply perm_sent.
  - revert Hf. apply first_thrown_step. intros e0 E. left. now apply Hr.
  - rewrite R, Hreq. now rewrite app_assoc.
  - now apply (FrameFacts.same_database_trans w w2).
Qed.

Lemma Settles_b (p : Proc B) :
  Settles Pa (fun qs r => Pb (x :: qs) r /\ forall r0, p = Settled r0 -> r = r0)
          Pc sent' (first_error err p) w2 e ->
  Settles Pa Pb Pc sent err w e.
Proof.
  intros (issued & (qa & qb & qc & Ha & [Hb Hr] & Hc & HP) & Hf & R & D).
  exists (new ++ issued)%list. split; [|split; [|split]].
  - exists qa, (x :: qb), qc. split; [exact Ha|]. split; [exact Hb|].
    split; [exact Hc|].
    transitivity (x :: qa ++ qb ++ qc); [now apply perm_sent|].
    cbn. apply Permutation_middle.
  - revert Hf. apply first_thrown_step. intros e0 E. right. left. now apply Hr.
  - rewrite R, Hreq. now rewrite app_assoc.
  - now apply (FrameFacts.same_database_trans w w2).
Qed.

Lemma Settles_c (p : Proc C) :
  Settles Pa Pb (fun qs r => Pc (x :: qs) r /\ forall r0, p = Settled r0 -> r = r0)
          sent' (first_error err p) w2 e ->
  Settles Pa Pb Pc sent err w e.
Proof.
  intros (issued & (qa & qb & qc & Ha & Hb & [Hc Hr] & HP) & Hf & R & D).
  exists (new ++ issued)%list. split; [|split; [|split]].
  - exists qa, qb, (x :: qc). split; [exact Ha|]. split; [exact Hb|].
    split; [exact Hc|].
    transitivity (x :: qa ++ qb ++ qc); [now apply perm_sent|].
    rewrite !app_assoc. apply Permutation_middle.
  - revert Hf. apply first_thrown_step. intros e0 E. right. right. now apply Hr.
  - rewrite R, Hreq. now rewrite app_assoc.
  - now apply (FrameFacts.same_database_trans w w2).
Qed.

End Steps.

Lemma Settles_done {A B C}
      (Pa : list (string * Z) -> Res A -> Prop)
      (Pb : list (string * Z) -> Res B -> Prop)
      (Pc : list (string * Z) -> Res C -> Prop) ra rb rc err w :
  Pa [] ra -> Pb [] rb -> Pc [] rc ->
  (err = None ->
   not_thrown (Settled ra) /\ not_thrown (Settled rb) /\ not_thrown (Settled rc)) ->
  Settles Pa Pb Pc [] err w ((err, (ra, rb, rc)), w).
Proof.
  intros Ha Hb Hc He. exists []. cbn [fst snd]. split; [|split; [|split]].
  - exists [], [], []. cbn. repeat split; auto.
  - unfold first_thrown. destruct err as [e|]; [now left|].
    split; [reflexivity|]. destruct (He eq_refl) as (H1 & H2 & H3).
    destruct ra, rb, rc; cbn in *; try contradiction. eauto.
  - now rewrite app_nil_r.
  - apply FrameFacts.same_database_refl.
Qed.

Section Run.
Context {A B C : Type}.
Variable env : Env.
Variables (Pa0 : list (string * Z) -> Res A -> Prop)
          (Pb0 : list (string * Z) -> Res B -> Prop)
          (Pc0 : list (string * Z) -> Res C -> Prop).
Variables (q : string) (n : Z) (k : nat) (err : option string) (w : World).
Variables (sent : list (string * Z))
          (sent' : list (string * Z) -> list (string * Z)).
Variable O : Prop.
Hypothesis HO : err = None -> O.
Hypothesis Hperm : forall N, Permutation (sent ++ N) ((q, n) :: sent' N).

Lemma run_a (fa : Outcome -> Env -> World -> Proc A * World)
      (K : Proc A -> nat -> option string -> World
           -> (option string * (Res A * Res B * Res C)) * World) :
  Runs env Pa0 (Awaiting q n fa) ->
  (forall o w0 Pa' ka' err' w',
      Runs env Pa' (fst (fa o env w0)) ->
      (err' = None -> not_thrown (fst (fa o env w0)) /\ O) ->
      Settles Pa' Pb0 Pc0 (sent' (pending (fst (fa o env w0)))) err' w'
              (K (fst (fa o env w0)) ka' err' w')) ->
  Settles Pa0 Pb0 Pc0 sent err w
          (let (p, w') := fa (upstream env k q n) env w in
           let (ka', w'') := send p w' in K p ka' (first_error err p) w'').
Proof.
  intros HP IH.
  destruct (HP k w) as (R1 & D1 & HR). specialize (IH (upstream env k q n) w).
  destruct (fa (upstream env k q n) env w) as [p1 w1]. cbn [fst snd] in *.
  destruct (send_spec p1 w1) as (R2 & D2).
  destruct (send p1 w1) as [k1 w2]. cbn [fst snd] in *.
  apply Runs_settled in HR.
  eapply Settles_a with (p := p1) (new := pending p1) (w2 := w2) (x := (q, n))
                        (sent' := sent' (pending p1)).
  - congruence.
  - now apply (FrameFacts.same_database_trans w w1).
  - apply Hperm.
  - apply IH; [exact HR|]. intros E. apply first_error_none in E as [E1 E2]. auto.
Qed.

Lemma run_b (fb : Outcome -> Env -> World -> Proc B * World)
      (K : Proc B -> nat -> option string -> World
           -> (option string * (Res A * Res B * Res C)) * World) :
  Runs env Pb0 (Awaiting q n fb) ->
  (forall o w0 Pb' kb' err' w',
      Runs env Pb' (fst (fb o env w0)) ->
      (err' = None -> not_thrown (fst (fb o env w0)) /\ O) ->
      Settles Pa0 Pb' Pc0 (sent' (pending (fst (fb o env w0)))) err' w'
              (K (fst (fb o env w0)) kb' err' w')) ->
  Settles Pa0 Pb0 Pc0 sent err w
          (let (p, w') := fb (upstream env k q n) env w in
           let (kb', w'') := send p w' in K p kb' (first_error err p) w'').
Proof.
  intros HP IH.
  destruct (HP k w) as (R1 & D1 & HR). specialize (IH (upstream env k q n) w).
  destruct (fb (upstream env k q n) env w) as [p1 w1]. cbn [fst snd] in *.
  destruct (send_spec p1 w1) as (R2 & D2).
  destruct (send p1 w1) as [k1 w2]. cbn [fst snd] in *.
  apply Runs_settled in HR.
  eapply Settles_b with (p := p1) (new := pending p1) (w2 := w2) (x := (q, n))
                        (sent' := sent' (pending p1)).
  - congruence.
  - now apply (FrameFacts.same_database_trans w w1).
  - apply Hperm.
  - apply IH; [exact HR|]. intros E. apply first_error_none in E as [E1 E2]. auto.
Qed.

Lemma run_c (fc : Outcome -> Env -> World -> Proc C * World)
      (K : Proc C -> nat -> option string -> World
           -> (option string * (Res A * Res B * Res C)) * World) :
  Runs env Pc0 (Awaiting q n fc) ->
  (forall o w0 Pc' kc' err' w',
      Runs env Pc' (fst (fc o env w0)) ->
      (err' = None -> not_thrown (fst (fc o env w0)) /\ O) ->
      Settles Pa0 Pb0 Pc' (sent' (pending (fst (fc o env w0)))) err' w'
              (K (fst (fc o env w0)) kc' err' w')) ->
  Settles Pa0 Pb0 Pc0 sent err w
          (let (p, w') := fc (upstream env k q n) env w in
           let (kc', w'') := send p w' in K p kc' (first_error err p) w'').
Proof.
  intros HP IH.
  destruct (HP k w) as (R1 & D1 & HR). specialize (IH (upstream env k q n) w).
  destruct (fc (upstream env k q n) env w) as [p1 w1]. cbn [fst snd] in *.
  destruct (send_spec p1 w1) as (R2 & D2).
  destruct (send p1 w1) as [k1 w2]. cbn [fst snd] in *.
  apply Runs_settled in HR.
  eapply Settles_c with (p := p1) (new := pending p1) (w2 := w2) (x := (q, n))
                        (sent' := sent' (pending p1)).
  - congruence.
  - now apply (FrameFacts.same_database_trans w w1).
  - apply Hperm.
  - apply IH; [exact HR|]. intros E. apply first_error_none in E as [E1 E2]. auto.
Qed.

End Run.

(** However the answers arrive, three calls that run together send, between
    them, the requests each would send, and settle as each would. *)
Lemma settle3_spec {A B C} env :
  forall (pa : Proc A) (Pa : list (string * Z) -> Res A -> Prop), Runs env Pa pa ->
  forall (pb : Proc B) (Pb : list (string * Z) -> Res B -> Prop), Runs env Pb pb ->
  forall (pc : Proc C) (Pc : list (string * Z) -> Res C -> Prop), Runs env Pc pc ->
  forall ka kb kc err w,
    (err = None -> not_thrown pa /\ not_thrown pb /\ not_thrown pc) ->
    Settles Pa Pb Pc (pending pa ++ pending pb ++ pending pc)%list err w
            (settle3 env pa ka pb kb pc kc err w).
Proof.
  induction pa as [ra|qa na fa IHa] using Proc_induction; intros Pa HPa;
    induction pb as [rb|qb nb fb IHb] using Proc_induction; intros Pb HPb;
    induction pc as [rc|qc nc fc IHc] using Proc_induction;
    intros Pc HPc ka kb kc err w Herr;
    rewrite settle3_eq; cbn [schedule];
    try (destruct (Nat.even _));
    try (destruct (Nat.modulo _ _) as [|[|m]]);
    match goal with
    | |- Settles _ _ _ _ _ _ (_, _) => now apply Settles_done
    | |- Settles _ _ _ (pending ?pa ++ pending ?pb ++ pending ?pc) _ _
                 (let (_, _) := fa _ _ _ in _) =>
        apply (run_a env Pa Pb Pc qa na ka err w _
                     (fun N => N ++ pending pb ++ pending pc)%list
                     (not_thrown pb /\ not_thrown pc)
                     ltac:(tauto)
                     (fun N => perm_a (qa, na) (pending pb ++ pending pc)%list N)
                     fa
                     (fun p k e w => settle3 env p k pb kb pc kc e w) HPa);
        intros o w0 Pa' ka' err' w' HR HE;
        apply (IHa o env w0 Pa' HR pb Pb HPb pc Pc HPc ka' kb kc err' w'); exact HE
    | |- Settles _ _ _ (pending ?pa ++ pending ?pb ++ pending ?pc) _ _
                 (let (_, _) := fb _ _ _ in _) =>
        apply (run_b env Pa Pb Pc qb nb kb err w _
                     (fun N => pending pa ++ N ++ pending pc)%list
                     (not_thrown pa /\ not_thrown pc)
                     ltac:(tauto)
                     (fun N => perm_b (qb, nb) (pending pa) (pending pc) N)
                     fb
                     (fun p k e w => settle3 env pa ka p k pc kc e w) HPb);
        intros o w0 Pb' kb' err' w' HR HE;
        apply (IHb o env w0 Pb' HR pc Pc HPc ka kb' kc err' w'); tauto
    | |- Settles _ _ _ (pending ?pa ++ pending ?pb ++ pending ?pc) _ _
                 (let (_, _) := fc _ _ _ in _) =>
        apply (run_c env Pa Pb Pc qc nc kc err w _
                     (fun N => pending pa ++ pending pb ++ N)%list
                     (not_thrown pa /\ not_thrown pb)
                     ltac:(tauto)
                     (fun N => perm_c (qc, nc) (pending pa) (pending pb) N)
                     fc
                     (fun p k e w => settle3 env pa ka pb kb p k e w) HPc);
        intros o w0 Pc' kc' err' w' HR HE;
        apply (IHc o env w0 Pc' HR ka kb kc' err' w'); tauto
    end.
Qed.

(** [Promise.all] of three calls: whatever the order of the answers, the
    requests sent are those of the three calls, in some order, each call
    settles as it would alone, and the result is the three values or the
    error of one of the calls that threw. *)
Lemma Promise_all3_spec {A B C} env (a : Task A) (b : Task B) (c : Task C)
      (Pa : list (string * Z) -> Res A -> Prop)
      (Pb : list (string * Z) -> Res B -> Prop)
      (Pc : list (string * Z) -> Res C -> Prop) :
  Starts env Pa a -> Starts env Pb b -> Starts env Pc c ->
  forall w, exists ra rb rc qa qb qc issued,
    Pa qa ra /\ Pb qb rb /\ Pc qc rc
    /\ requests (snd (Promise_all3 a b c env w)) = (requests w ++ issued)%list
    /\ Permutation issued (qa ++ qb ++ qc)
    /\ same_database w (snd (Promise_all3 a b c env w))
    /\ match ra, rb, rc with
       | Ok x, Ok y, Ok z => fst (Promise_all3 a b c env w) = Ok (x, y, z)
       | _, _, _ =>
           exists e, fst (Promise_all3 a b c env w) = Throw e
                     /\ (ra = Throw e \/ rb = Throw e \/ rc = Throw e)
       end.
Proof.
  intros Ha Hb Hc w. unfold Promise_all3.
  destruct (Ha w) as (R1 & D1 & HRa). destruct (a env w) as [pa w1].
  destruct (send_spec pa w1) as (R2 & D2). destruct (send pa w1) as [ka w2].
  destruct (Hb w2) as (R3 & D3 & HRb). destruct (b env w2) as [pb w3].
  destruct (send_spec pb w3) as (R4 & D4). destruct (send pb w3) as [kb w4].
  destruct (Hc w4) as (R5 & D5 & HRc). destruct (c env w4) as [pc w5].
  destruct (send_spec pc w5) as (R6 & D6). destruct (send pc w5) as [kc w6].
  cbn [fst snd] in *.
  apply Runs_settled in HRa, HRb, HRc.
  destruct (settle3_spec env pa _ HRa pb _ HRb pc _ HRc ka kb kc
              (first_error (first_error (first_error None pa) pb) pc) w6)
    as (issued & (qa & qb & qc & [Pa1 Pa2] & [Pb1 Pb2] & [Pc1 Pc2] & HP) & Hf & R & D).
  { intros E. apply first_error_none in E as [E E3].
    apply first_error_none in E as [E E2].
    apply first_error_none in E as [_ E1]. auto. }
  destruct (settle3 env pa ka pb kb pc kc _ w6) as [[errf [[ra rb] rc]] w'].
  cbn [fst snd] in *.
  apply first_thrown_step in Hf; [|intros e E; right; right; now apply Pc2].
  apply first_thrown_step in Hf; [|intros e E; right; left; now apply Pb2].
  apply first_thrown_step in Hf; [|intros e E; left; now apply Pa2].
  exists ra, rb, rc, qa, qb, qc, (pending pa ++ pending pb ++ pending pc ++ issued)%list.
  split; [exact Pa1|]. split; [exact Pb1|]. split; [exact Pc1|].
  assert (Hreq : requests w' = (requests w ++ pending pa ++ pending pb
                                           ++ pending pc ++ issued)%list).
  { rewrite R, R6, R5, R4, R3, R2, R1, <- !app_assoc. reflexivity. }
  assert (Hdb : same_database w w').
  { repeat (eapply FrameFacts.same_database_trans; [eassumption|]).
    apply FrameFacts.same_database_refl. }
  assert (Hperm : Permutation (pending pa ++ pending pb ++ pending pc ++ issued)
                              (qa ++ qb ++ qc)).
  { rewrite <- HP, <- !app_assoc. reflexivity. }
  unfold first_thrown in Hf. cbn [fst snd] in Hf.
  destruct errf as [e|].
  - destruct Hf as [Hf|[_ Hf]]; [discriminate|].
    cbn [fst snd].
    split; [exact Hreq|]. split; [exact Hperm|]. split; [exact Hdb|].
    destruct Hf as [-> | [-> | ->]].
    + exists e. split; [reflexivity | auto].
    + destruct ra; exists e; (split; [reflexivity | auto]).
    + destruct ra, rb; exists e; (split; [reflexivity | auto]).
  - destruct Hf as [_ (x & y & z & E)]. injection E as -> -> ->.
    cbn [fst snd].
    split; [exact Hreq|]. split; [exact Hperm|]. split; [exact Hdb|]. reflexivity.
Qed.

End JoinFacts.

(* ================================================================= *)
(** ** The three groups, started together *)

Module TaskFacts.
Import Effects NewsService Props AsyncFacts JoinFacts.

Lemma mock_spec env (q : string) (P : list (string * Z) -> Res (list Raw.t) -> Prop) :
  (forall arts, List.length arts = 3%nat -> P [] (Ok arts)) ->
  Starts env P (sync (getMockNewsData q)).
Proof.
  intros H. apply Starts_sync. intros w. cbn.
  split; [reflexivity|]. split; [now repeat split|]. now apply H.
Qed.

(** One request; the call returns articles, three of them when the news
    source answers no request. *)
Lemma fetch_task_spec env (q : string) (n : Z) :
  Starts env (fun qs r => qs = [(q, n)]
                          /\ exists arts, r = Ok arts
                                          /\ (always_rejects env ->
                                              List.length arts = 3%nat))
         (fetchNewsFromAPI_task q n).
Proof.
  unfold fetchNewsFromAPI_task. apply Starts_try, Starts_bind, Starts_await.
  intros k.
  assert (Hmock : forall qs, qs = [(q, n)] ->
             Starts env
               (fun qs' r' => (qs ++ qs')%list = [(q, n)]
                              /\ exists arts, r' = Ok arts
                                              /\ (always_rejects env ->
                                                  List.length arts = 3%nat))
               (sync (getMockNewsData q))).
  { intros qs ->. apply mock_spec. intros arts HL.
    split; [reflexivity|]. exists arts. auto. }
  destruct (upstream env k q n) as [[l|]| |msg] eqn:U; cbv beta iota.
  - apply Starts_ret. split; [reflexivity|]. eexists. split; [reflexivity|].
    intros Hrej. destruct (Hrej k q n). congruence.
  - apply Starts_ret. split; [reflexivity|]. eexists. split; [reflexivity|].
    intros Hrej. destruct (Hrej k q n). congruence.
  - apply Starts_throw. now apply Hmock.
  - now apply Hmock.
Qed.

(** An article made from one answer, by the code that follows the [await]. *)
Lemma made_spec env (f : Raw.t -> M Article) (Q : Article -> Prop)
      (arts : list Raw.t) (acc : list Article)
      (P : list (string * Z) -> Res (list Article) -> Prop) :
  (forall a w, exists b w',
      f a env w = (Ok b, w') /\ requests w' = requests w
      /\ same_database w w' /\ Q b) ->
  (forall bs, Forall Q bs -> List.length bs = List.length arts ->
              P [] (Ok (acc ++ bs)%list)) ->
  Starts env P (processedArticles <- sync (mapM f arts) ;;
                task_ret (acc ++ processedArticles)%list)%task.
Proof.
  intros Hf HP. apply Starts_bind, Starts_sync. intros w.
  destruct (FrameFacts.mapM_frame f (fun _ b => Q b) env Hf arts w)
    as (bs & w' & E & R & D & HQ).
  rewrite E. cbn [fst snd]. split; [exact R|]. split; [exact D|].
  apply Starts_ret. cbn [app]. apply HP.
  - now apply FrameFacts.Forall2_right in HQ.
  - symmetry. now apply Forall2_length in HQ.
Qed.

(** [getLocationBasedNews], started: three requests, and the articles made
    from the three answers. *)
Lemma location_task_spec env (city state country : string) (limit : Z) :
  Starts env
    (fun qs r =>
       qs = Spec.location_queries city state country limit
       /\ exists p1 p2 p3,
           r = Ok (JS.slice0 (limit * 3) (p1 ++ p2 ++ p3)%list)
           /\ Forall (location_made city state country (city ++ " business")) p1
           /\ Forall (location_made city state country (state ++ " economy")) p2
           /\ Forall (location_made city state country (country ++ " business news")) p3
           /\ (always_rejects env ->
               List.length p1 = 3%nat /\ List.length p2 = 3%nat
               /\ List.length p3 = 3%nat))
    (getLocationBasedNews_task city state country limit).
Proof.
  unfold getLocationBasedNews_task. cbv zeta. apply Starts_bind.
  set (Q := fun (q : string) (ps : list Article) =>
              Forall (location_made city state country q) ps
              /\ (always_rejects env -> List.length ps = 3%nat)).
  eapply Starts_impl; [|apply (Starts_for_of env _ (fun q => (q, limit)) Q)].
  - intros qs r (-> & pss & -> & HQ).
    inversion HQ as [|q1 p1 qs1 ps1 [F1 L1] HQ1]; subst.
    inversion HQ1 as [|q2 p2 qs2 ps2 [F2 L2] HQ2]; subst.
    inversion HQ2 as [|q3 p3 qs3 ps3 [F3 L3] HQ3]; subst.
    inversion HQ3; subst.
    apply Starts_ret. cbn [map app List.concat]. rewrite !app_nil_r.
    split; [reflexivity|]. exists p1, p2, p3. split; [reflexivity|].
    repeat split; auto.
  - intros acc q. cbv beta. apply Starts_bind.
    eapply Starts_impl; [|apply fetch_task_spec].
    intros qs r (-> & arts & -> & HL).
    apply (made_spec env _ (location_made city state country q)).
    + intros a w. do 2 eexists. split; [reflexivity|].
      split; [reflexivity|]. split; [now repeat split|].
      repeat split; apply FrameFacts.well_formed_made.
    + intros bs HF Hlen. cbn [app]. split; [reflexivity|]. exists bs.
      split; [reflexivity|]. split; [exact HF|].
      intros Hrej. rewrite Hlen. now apply HL.
Qed.

(** [getIndustryNews], started, on a career field that is no inherited
    property: one request per industry asked about. *)
Lemma industry_task_spec env (careerField : string) (limit : Z) :
  JsObject.get CAREER_INDUSTRIES careerField <> JsObject.Inherited ->
  Starts env
    (fun qs r =>
       qs = Spec.industry_queries careerField limit
       /\ exists pss,
           r = Ok (JS.slice0 limit (List.concat pss))
           /\ Forall2 (fun i ps => Forall (industry_made i) ps
                                   /\ (always_rejects env -> List.length ps = 3%nat))
                      (industries_asked careerField) pss)
    (getIndustryNews_task careerField limit).
Proof.
  intros Hget. unfold getIndustryNews_task.
  set (Q := fun (i : string) (ps : list Article) =>
              Forall (industry_made i) ps
              /\ (always_rejects env -> List.length ps = 3%nat)).
  match goal with
  | |- context [task_for_of _ ?b _] => set (body := b)
  end.
  assert (Hloop : forall xs,
             Starts env
               (fun qs r =>
                  qs = map (fun i => ((i ++ " business news")%string, limit)) xs
                  /\ exists pss, r = Ok (JS.slice0 limit (List.concat pss))
                                 /\ Forall2 Q xs pss)
               (allNews <- task_for_of xs body [] ;;
                task_ret (JS.slice0 limit allNews))%task).
  { intros xs. apply Starts_bind.
    eapply Starts_impl;
      [|apply (Starts_for_of env body
                             (fun i => ((i ++ " business news")%string, limit)) Q)].
    - intros qs r (-> & pss & -> & HQ). apply Starts_ret. rewrite app_nil_r.
      split; [reflexivity|]. exists pss. now split.
    - intros acc i. unfold body. apply Starts_bind.
      eapply Starts_impl; [|apply fetch_task_spec].
      intros qs r (-> & arts & -> & HL).
      apply (made_spec env _ (industry_made i)).
      + intros a w. do 2 eexists. split; [reflexivity|].
        split; [reflexivity|]. split; [now repeat split|].
        repeat split; apply FrameFacts.well_formed_made.
      + intros bs HF Hlen. cbn [app]. split; [reflexivity|]. exists bs.
        split; [reflexivity|]. split; [exact HF|].
        intros Hrej. rewrite Hlen. now apply HL. }
  unfold Spec.industry_queries, industries_asked.
  destruct (JsObject.get CAREER_INDUSTRIES careerField) as [l| |];
    [| contradiction |].
  - apply Starts_bind, Starts_ret. cbn [app]. apply (Hloop (JS.slice0 2 l)).
  - apply Starts_bind, Starts_ret. cbn [app]. apply (Hloop (JS.slice0 2 [careerField])).
Qed.

(** On a career field that names an inherited property it throws at once,
    before any request. *)
Lemma industry_task_inherited env (careerField : string) (limit : Z) :
  JsObject.get CAREER_INDUSTRIES careerField = JsObject.Inherited ->
  Starts env
    (fun qs r => qs = [] /\ r = Throw "TypeError: industries.slice is not a function")
    (getIndustryNews_task careerField limit).
Proof.
  intros Hget. unfold getIndustryNews_task. rewrite Hget.
  apply Starts_bind, Starts_throw. now split.
Qed.

End TaskFacts.

Module PersonalizedFacts.
Import Effects NewsService Props FrameFacts AsyncFacts JoinFacts TaskFacts.

(** The parts of a personalized-news result: the articles of the three
    groups, whatever the order in which the answers came. *)
Lemma getPersonalizedNews_made (p : UserProfile) env w :
  JsObject.get CAREER_INDUSTRIES (career_field p) <> JsObject.Inherited ->
  exists p1 p2 p3 pss glob issued w',
    getPersonalizedNews p env w
    = (Ok (mkNews
             (JS.slice0 5 (filter (has_location_type "local")
                                  (JS.slice0 (5 * 3) (p1 ++ p2 ++ p3)%list)))
             (JS.slice0 5 (filter (has_location_type "regional")
                                  (JS.slice0 (5 * 3) (p1 ++ p2 ++ p3)%list)))
             (JS.slice0 5 (filter (has_location_type "national")
                                  (JS.slice0 (5 * 3) (p1 ++ p2 ++ p3)%list)))
             (JS.slice0 5 (JS.slice0 5 (List.concat pss)))
             (JS.slice0 5 glob)), w')
    /\ requests w' = (requests w ++ issued)%list
    /\ Permutation issued (Spec.requests_of p)
    /\ same_database w w'
    /\ Forall (location_made (city p) (state p) (country p) (city p ++ " business")) p1
    /\ Forall (location_made (city p) (state p) (country p) (state p ++ " economy")) p2
    /\ Forall (location_made (city p) (state p) (country p)
                             (country p ++ " business news")) p3
    /\ Forall2 (fun i ps => Forall (industry_made i) ps
                            /\ (always_rejects env -> List.length ps = 3%nat))
               (industries_asked (career_field p)) pss
    /\ Forall global_made glob
    /\ (always_rejects env ->
        List.length p1 = 3%nat /\ List.length p2 = 3%nat /\ List.length p3 = 3%nat
        /\ List.length glob = 3%nat).
Proof.
  intros Hget.
  destruct (Promise_all3_spec
              env _ _ _ _ _ _
              (location_task_spec env (city p) (state p) (country p) 5)
              (industry_task_spec env (career_field p) 5 Hget)
              (fetch_task_spec env "global business economy" 5) w)
    as (ra & rb & rc & qa & qb & qc & issued & Ha & Hb & Hc & R & HP & D & Hres).
  destruct Ha as (-> & p1 & p2 & p3 & -> & F1 & F2 & F3 & L).
  destruct Hb as (-> & pss & -> & HQ).
  destruct Hc as (-> & raw & -> & Lg).
  destruct (Promise_all3 _ _ _ env w) as [r w1] eqn:E.
  cbn [fst snd] in *. subst r.
  unfold getPersonalizedNews, try_catch. cbv zeta.
  rewrite (RunFacts.bind_ok _ _ _ _ _ _ E). cbv beta iota.
  match goal with
  | |- context [mapM ?f raw] =>
      assert (Hf : forall a w4, exists b w5,
                 f a env w4 = (Ok b, w5) /\ requests w5 = requests w4
                 /\ same_database w4 w5
                 /\ (fun _ b => global_made b) a b);
      [| destruct (mapM_frame f _ env Hf raw w1)
          as (pg & w4 & E4 & R4 & D4 & P4)]
  end.
  - intros a w4. do 2 eexists. split; [reflexivity|].
    split; [reflexivity|]. split; [now repeat split|].
    repeat split; apply well_formed_made.
  - rewrite (RunFacts.bind_ok _ _ _ _ _ _ E4). cbn [ret].
    exists p1, p2, p3, pss, pg, issued, w4.
    split; [reflexivity|]. split; [congruence|].
    split; [exact HP|].
    split; [now apply (same_database_trans w w1 w4)|].
    split; [exact F1|]. split; [exact F2|]. split; [exact F3|].
    split; [exact HQ|].
    pose proof (Forall2_length P4) as HL.
    split; [now apply Forall2_right in P4|].
    intros Hrej. destruct (L Hrej) as (L1 & L2 & L3).
    rewrite <- HL. auto.
Qed.

(** On a career field that names a property of [Object.prototype] the
    industry group throws, and so does the call; the other two groups still
    send their requests. *)
Lemma getPersonalizedNews_throws (p : UserProfile) env w :
  JsObject.get CAREER_INDUSTRIES (career_field p) = JsObject.Inherited ->
  exists issued w',
    getPersonalizedNews p env w = (Throw "Failed to fetch personalized news", w')
    /\ requests w' = (requests w ++ issued)%list
    /\ Permutation issued (Spec.requests_of p)
    /\ same_database w w'.
Proof.
  intros Hget.
  destruct (Promise_all3_spec
              env _ _ _ _ _ _
              (location_task_spec env (city p) (state p) (country p) 5)
              (industry_task_inherited env (career_field p) 5 Hget)
              (fetch_task_spec env "global business economy" 5) w)
    as (ra & rb & rc & qa & qb & qc & issued & Ha & Hb & Hc & R & HP & D & Hres).
  destruct Ha as (-> & p1 & p2 & p3 & -> & _).
  destruct Hb as (-> & ->).
  destruct Hc as (-> & raw & -> & _).
  destruct Hres as (e & Hres & _).
  destruct (Promise_all3 _ _ _ env w) as [r w1] eqn:E.
  cbn [fst snd] in *. subst r.
  unfold getPersonalizedNews, try_catch. cbv zeta.
  rewrite (RunFacts.bind_throw _ _ _ _ _ _ E).
  exists issued, w1. split; [reflexivity|]. split; [exact R|].
  split; [|exact D].
  unfold Spec.requests_of, Spec.industry_queries. now rewrite Hget.
Qed.

Lemma made_location_article (city state country query : string) (a : Article) :
  location_made city state country query a -> Spec.location_article a.
Proof.
  intros (Hc & Ht & _). split; [exact Hc|]. rewrite Ht.
  apply RunFacts.getLocationType_cases.
Qed.

Lemma made_industry_article (i : string) (a : Article) :
  industry_made i a -> Spec.industry_article a.
Proof.
  intros (Hc & _ & Ht & _). now split.
Qed.

Lemma made_global_article (a : Article) : global_made a -> Spec.global_article a.
Proof.
  intros (Hc & Ht & _). now split.
Qed.

Lemma location_articles (city state country : string) (p1 p2 p3 : list Article) :
  Forall (location_made city state country (city ++ " business")) p1 ->
  Forall (location_made city state country (state ++ " economy")) p2 ->
  Forall (location_made city state country (country ++ " business news")) p3 ->
  Forall Spec.location_article (p1 ++ p2 ++ p3)%list.
Proof.
  intros F1 F2 F3.
  apply Forall_app; split; [|apply Forall_app; split];
    [revert F1 | revert F2 | revert F3]; apply Forall_impl;
    intros a; apply made_location_article.
Qed.

Lemma industry_articles env (xs : list string) (pss : list (list Article)) :
  Forall2 (fun i ps => Forall (industry_made i) ps
                       /\ (always_rejects env -> List.length ps = 3%nat)) xs pss ->
  Forall Spec.industry_article (List.concat pss).
Proof.
  intros H.
  apply (ProducerFacts.Forall2_concat (fun i a => industry_made i a)) in H.
  - revert H. apply Forall_impl. intros a (i & _ & Hi).
    now apply (made_industry_article i).
  - now intros x ps [Hx _].
Qed.

End PersonalizedFacts.

(* ================================================================= *)
(** ** A call awaited on its own *)

(** The three functions as [getPersonalizedNews] starts them are the
    functions [fetchNewsFromAPI], [getLocationBasedNews] and
    [getIndustryNews]: awaited on its own, each does what the function
    does. *)
Module AloneFacts.
Import Effects NewsService Props AsyncFacts.

Lemma bind_ext {A B} (m m' : M A) (k k' : A -> M B) env w :
  m env w = m' env w ->
  (forall a w', k a env w' = k' a env w') ->
  bind m k env w = bind m' k' env w.
Proof.
  intros Hm Hk. unfold bind. rewrite Hm.
  destruct (m' env w) as [[a|e] w']; [apply Hk | reflexivity].
Qed.

Lemma try_ext {A} (m m' : M A) (h h' : string -> M A) env w :
  m env w = m' env w ->
  (forall e w', h e env w' = h' e env w') ->
  try_catch m h env w = try_catch m' h' env w.
Proof.
  intros Hm Hh. unfold try_catch. rewrite Hm.
  destruct (m' env w) as [[a|e] w']; [reflexivity | apply Hh].
Qed.

Lemma alone_sync {A} (m : M A) env w : alone (sync m) env w = m env w.
Proof.
  unfold alone, sync. now destruct (m env w).
Qed.

Lemma alone_await (q : string) (n : Z) env w :
  alone (await_axios_get q n) env w = axios_get q n env w.
Proof.
  unfold alone, await_axios_get, axios_get. cbn.
  now destruct (upstream env (List.length (requests w)) q n).
Qed.

Lemma aloneP_bind {A B} (k : A -> Task B) env (p : Proc A) :
  forall w,
    (let (p', w') := bindP p k env w in aloneP p' env w')
    = bind (aloneP p) (fun a => alone (k a)) env w.
Proof.
  induction p as [[a|e]|q n resume IH] using Proc_induction; intros w.
  - reflexivity.
  - reflexivity.
  - unfold bind. cbn [bindP aloneP send].
    specialize (IH (upstream env (List.length (requests w)) q n) env).
    match goal with
    | |- context [resume ?o env ?w1] =>
        specialize (IH w1); destruct (resume o env w1) as [p1 w2]
    end.
    cbn [fst] in IH. exact (IH w2).
Qed.

Lemma alone_bind {A B} (t : Task A) (k : A -> Task B) env w :
  alone (task_bind t k) env w = bind (alone t) (fun a => alone (k a)) env w.
Proof.
  unfold alone at 1, task_bind. unfold bind, alone at 1.
  destruct (t env w) as [p w1]. apply aloneP_bind.
Qed.

Lemma aloneP_catch {A} (h : string -> Task A) env (p : Proc A) :
  forall w,
    (let (p', w') := catchP p h env w in aloneP p' env w')
    = try_catch (aloneP p) (fun e => alone (h e)) env w.
Proof.
  induction p as [[a|e]|q n resume IH] using Proc_induction; intros w.
  - reflexivity.
  - reflexivity.
  - unfold try_catch. cbn [catchP aloneP send].
    specialize (IH (upstream env (List.length (requests w)) q n) env).
    match goal with
    | |- context [resume ?o env ?w1] =>
        specialize (IH w1); destruct (resume o env w1) as [p1 w2]
    end.
    cbn [fst] in IH. exact (IH w2).
Qed.

Lemma alone_try {A} (t : Task A) (h : string -> Task A) env w :
  alone (task_try t h) env w = try_catch (alone t) (fun e => alone (h e)) env w.
Proof.
  unfold alone at 1, task_try. unfold try_catch, alone at 1.
  destruct (t env w) as [p w1]. apply aloneP_catch.
Qed.

Lemma alone_for_of {A S} (body : S -> A -> Task S) (body' : S -> A -> M S) env
      (xs : list A) :
  (forall acc x w, alone (body acc x) env w = body' acc x env w) ->
  forall acc w, alone (task_for_of xs body acc) env w = for_of xs body' acc env w.
Proof.
  intros Hb. induction xs as [|x xs IH]; intros acc w; cbn [task_for_of for_of].
  - reflexivity.
  - rewrite alone_bind. apply bind_ext; [apply Hb | intros a w'; apply IH].
Qed.

Lemma alone_fetchNewsFromAPI (query : string) (pageSize : Z) env w :
  alone (fetchNewsFromAPI_task query pageSize) env w
  = fetchNewsFromAPI query pageSize env w.
Proof.
  unfold fetchNewsFromAPI_task, fetchNewsFromAPI. rewrite alone_try.
  apply try_ext.
  - rewrite alone_bind. apply bind_ext; [apply alone_await|].
    intros [articles|] w'; reflexivity.
  - intros e w'. apply alone_sync.
Qed.

Lemma alone_getLocationBasedNews (city state country : string) (limit : Z) env w :
  alone (getLocationBasedNews_task city state country limit) env w
  = getLocationBasedNews city state country limit env w.
Proof.
  unfold getLocationBasedNews_task, getLocationBasedNews. cbv zeta.
  rewrite alone_bind. apply bind_ext; [|reflexivity].
  apply alone_for_of. intros acc q w0.
  rewrite alone_bind. apply bind_ext; [apply alone_fetchNewsFromAPI|].
  intros articles w1. rewrite alone_bind.
  apply bind_ext; [apply alone_sync | reflexivity].
Qed.

Lemma alone_getIndustryNews (careerField : string) (limit : Z) env w :
  alone (getIndustryNews_task careerField limit) env w
  = getIndustryNews careerField limit env w.
Proof.
  unfold getIndustryNews_task, getIndustryNews.
  rewrite alone_bind. apply bind_ext.
  - now destruct (JsObject.get CAREER_INDUSTRIES careerField).
  - intros industries w0. rewrite alone_bind. apply bind_ext; [|reflexivity].
    apply alone_for_of. intros acc i w1.
    rewrite alone_bind. apply bind_ext; [apply alone_fetchNewsFromAPI|].
    intros articles w2. rewrite alone_bind.
    apply bind_ext; [apply alone_sync | reflexivity].
Qed.

End AloneFacts.
(* ================================================================= *)
(** ** Personalized news *)

(** When the industry group does not throw, the call returns the five
    buckets, each of at most five articles. *)
Lemma getPersonalizedNews_buckets (p : UserProfile) env w :
  JsObject.get NewsService.CAREER_INDUSTRIES (career_field p) <> JsObject.Inherited ->
  exists news w',
    NewsService.getPersonalizedNews p env w = (Effects.Ok news, w')
    /\ Spec.buckets_at_most 5 news.
Proof.
  intros H.
  destruct (PersonalizedFacts.getPersonalizedNews_made p env w H)
    as (p1 & p2 & p3 & pss & glob & issued & w' & E & _).
  eexists. exists w'. split; [exact E|].
  unfold Spec.buckets_at_most; cbn [local regional national industry_news global].
  pose proof (fun A l => @JSFacts.slice0_length A 5 l ltac:(lia)) as Hlen.
  repeat split;
    match goal with |- (List.length (JS.slice0 5 ?l) <= 5)%nat =>
      specialize (Hlen _ l); lia end.
Qed.

(** C1, at the failing input.  For the career field "constructor", whatever
    the location is and whatever the news source answers, [getPersonalizedNews]
    returns no object: it throws "Failed to fetch personalized news". *)
Theorem getPersonalizedNews_constructor_throws :
  forall (city state country : string) (env : Effects.Env) (w : Effects.World),
    fst (NewsService.getPersonalizedNews
           (mkProfile city state country "constructor") env w)
    = Effects.Throw "Failed to fetch personalized news".
Proof.
  intros city state country env w.
  destruct (PersonalizedFacts.getPersonalizedNews_throws
              (mkProfile city state country "constructor") env w eq_refl)
    as (issued & w' & E & _).
  now rewrite E.
Qed.

(** C7. For every user profile, every behaviour of the news source and
    every order in which its answers arrive, one [getPersonalizedNews] call
    sends, in some order, the three location queries, the industry queries
    (one per industry of the first two of the career field's list, the
    career field itself when the table does not know it) and the one global
    query, and nothing else: at most 3 + 2 + 1 = 6 requests.  (The three
    groups run together, so the order of the requests depends on the
    answers; their number and their content do not.) *)
Theorem getPersonalizedNews_requests :
  forall (p : UserProfile) (env : Effects.Env) (w : Effects.World),
    let w' := snd (NewsService.getPersonalizedNews p env w) in
    exists issued,
      Effects.requests w' = (Effects.requests w ++ issued)%list
      /\ Permutation issued
                     (Spec.location_queries (city p) (state p) (country p) 5
                      ++ Spec.industry_queries (career_field p) 5
                      ++ [Spec.global_query])%list
      /\ List.length (Spec.location_queries (city p) (state p) (country p) 5) = 3%nat
      /\ (List.length (Spec.industry_queries (career_field p) 5) <= 2)%nat
      /\ (List.length issued <= 6)%nat.
Proof.
  intros p env w w'.
  assert (Hind : (List.length (Spec.industry_queries (career_field p) 5) <= 2)%nat).
  { unfold Spec.industry_queries.
    destruct (JsObject.get NewsService.CAREER_INDUSTRIES (career_field p));
      cbn [List.length]; try lia.
    rewrite length_map, length_firstn. lia. }
  assert (Hreq : exists issued,
             Effects.requests w' = (Effects.requests w ++ issued)%list
             /\ Permutation issued (Spec.requests_of p)).
  { subst w'.
    destruct (JsObject.get NewsService.CAREER_INDUSTRIES (career_field p)) eqn:E.
    - destruct (PersonalizedFacts.getPersonalizedNews_made p env w)
        as (? & ? & ? & ? & ? & issued & w1 & E1 & R & HP & _); [congruence|].
      exists issued. now rewrite E1.
    - destruct (PersonalizedFacts.getPersonalizedNews_throws p env w E)
        as (issued & w1 & E1 & R & HP & _).
      exists issued. now rewrite E1.
    - destruct (PersonalizedFacts.getPersonalizedNews_made p env w)
        as (? & ? & ? & ? & ? & issued & w1 & E1 & R & HP & _); [congruence|].
      exists issued. now rewrite E1. }
  destruct Hreq as (issued & Hreq & HP). exists issued.
  split; [exact Hreq|]. split; [exact HP|]. split; [reflexivity|].
  split; [exact Hind|].
  rewrite (Permutation_length HP). unfold Spec.requests_of.
  rewrite !length_app. cbn [List.length Spec.location_queries]. lia.
Qed.

(** The order of the requests is that of the answers.  With a news source
    that fails, the first request of each group goes out at the start; when
    the location group is always served first its two other requests come
    next, and when the calls are served in turn the second industry request
    overtakes the third location request. *)
Lemma requests_follow_arrival :
  Effects.requests
    (snd (NewsService.getPersonalizedNews
            (mkProfile "Ottawa" "ON" "CA" "technology")
            (Spec.failing_env 0) Spec.empty_world))
  = [("Ottawa business", 5%Z); ("technology business news", 5%Z);
     ("global business economy", 5%Z); ("ON economy", 5%Z);
     ("CA business news", 5%Z); ("startups business news", 5%Z)]
  /\ Effects.requests
       (snd (NewsService.getPersonalizedNews
               (mkProfile "Ottawa" "ON" "CA" "technology")
               Props.turning_env Spec.empty_world))
     = [("Ottawa business", 5%Z); ("technology business news", 5%Z);
        ("global business economy", 5%Z); ("ON economy", 5%Z);
        ("startups business news", 5%Z); ("CA business news", 5%Z)].
Proof.
  split; vm_compute; reflexivity.
Qed.

(* ================================================================= *)
(** ** Categories *)

(** C8, the counterexample: with the news source down,
    [getLocationBasedNews] returns articles, and the category of each of
    them is "business", none of the five values. *)
Lemma location_articles_category_business :
  exists l w',
    NewsService.getLocationBasedNews "Ottawa" "ON" "CA" 5
      (Spec.failing_env 0) Spec.empty_world = (Effects.Ok l, w')
    /\ l <> []
    /\ Forall (fun a => category a = "business"
                        /\ ~ In (category a) Spec.spec_categories) l.
Proof.
  eexists. eexists. split; [vm_compute; reflexivity|].
  split; [discriminate|].
  repeat constructor;
    cbn; intros H; repeat (destruct H as [H|H]; [discriminate|]); exact H.
Qed.

(** C8, as amended.  The category of an article is "business" when
    [getLocationBasedNews] produced it (and its location type is then one of
    local, regional, national), "industry" when [getIndustryNews] did, and
    "global" in the global bucket of [getPersonalizedNews], whose local,
    regional and national buckets hold "business" articles. *)
Theorem engine_categories :
  forall (env : Effects.Env) (w : Effects.World),
    (forall city state country limit, exists l w',
        NewsService.getLocationBasedNews city state country limit env w
        = (Effects.Ok l, w')
        /\ Forall Spec.location_article l)
    /\ (forall careerField limit l w',
           NewsService.getIndustryNews careerField limit env w = (Effects.Ok l, w') ->
           Forall Spec.industry_article l)
    /\ (forall p news w',
           NewsService.getPersonalizedNews p env w = (Effects.Ok news, w') ->
           Forall Spec.location_article (local news ++ regional news ++ national news)%list
           /\ Forall Spec.industry_article (industry_news news)
           /\ Forall Spec.global_article (global news)).
Proof.
  intros env w. split; [|split].
  - intros city state country limit.
    destruct (RunFacts.getLocationBasedNews_run city state country limit env w)
      as (allNews & w' & E & _ & HP).
    eexists. exists w'. split; [exact E|]. now apply JSFacts.Forall_slice0.
  - intros careerField limit l w' E.
    destruct (JsObject.get NewsService.CAREER_INDUSTRIES careerField) eqn:G.
    + destruct (RunFacts.getIndustryNews_run careerField limit env w)
        as (allNews & w1 & E1 & _ & HP); [congruence|].
      rewrite E1 in E. injection E as <- _. now apply JSFacts.Forall_slice0.
    + rewrite (RunFacts.getIndustryNews_inherited careerField limit env w G) in E.
      discriminate.
    + destruct (RunFacts.getIndustryNews_run careerField limit env w)
        as (allNews & w1 & E1 & _ & HP); [congruence|].
      rewrite E1 in E. injection E as <- _. now apply JSFacts.Forall_slice0.
  - intros p news w' E.
    assert (G : JsObject.get NewsService.CAREER_INDUSTRIES (career_field p)
                <> JsObject.Inherited).
    { intros G. destruct (PersonalizedFacts.getPersonalizedNews_throws p env w G)
        as (issued & w1 & E1 & _). rewrite E1 in E. discriminate. }
    destruct (PersonalizedFacts.getPersonalizedNews_made p env w G)
      as (p1 & p2 & p3 & pss & glob & issued & w1 & E1 & _ & _ & _
          & F1 & F2 & F3 & HQ & Hg & _).
    rewrite E1 in E. injection E as <- _.
    cbn [local regional national industry_news global].
    pose proof (PersonalizedFacts.location_articles _ _ _ _ _ _ F1 F2 F3) as Hl.
    apply (JSFacts.Forall_slice0 _ (5 * 3)) in Hl.
    split; [|split].
    + apply Forall_app; split; [|apply Forall_app; split];
        now apply JSFacts.Forall_slice0, RunFacts.Forall_filter.
    + apply JSFacts.Forall_slice0, JSFacts.Forall_slice0.
      now apply (PersonalizedFacts.industry_articles env _ _ HQ).
    + apply JSFacts.Forall_slice0. revert Hg. apply Forall_impl.
      intros a. apply PersonalizedFacts.made_global_article.
Qed.

Lemma engine_categories_witness :
  Forall Spec.industry_article
         (Spec.returned (NewsService.getIndustryNews "technology" 5
                           (Spec.failing_env 0) Spec.empty_world))
  /\ Forall Spec.global_article
            (global (Spec.returned_news
                       (NewsService.getPersonalizedNews
                          (mkProfile "Ottawa" "ON" "CA" "technology")
                          (Spec.failing_env 0) Spec.empty_world))).
Proof.
  pose proof (engine_categories (Spec.failing_env 0) Spec.empty_world)
    as (_ & Hind & Hnews).
  split.
  - apply (Hind "technology" 5%Z _
                (snd (NewsService.getIndustryNews "technology" 5
                        (Spec.failing_env 0) Spec.empty_world))).
    vm_compute. reflexivity.
  - apply (Hnews (mkProfile "Ottawa" "ON" "CA" "technology") _
                 (snd (NewsService.getPersonalizedNews
                         (mkProfile "Ottawa" "ON" "CA" "technology")
                         (Spec.failing_env 0) Spec.empty_world))).
    vm_compute. reflexivity.
Defined.


Module LabelFacts.
Import Effects NewsService Props.

Lemma type_of_business (query : string) :
  JS.Contains query "business" -> getLocationType query = "local".
Proof.
  intros H. apply JSFacts.includes_iff in H.
  unfold getLocationType. now rewrite H.
Qed.

Lemma type_of_economy (query : string) :
  JS.Contains query "economy" ->
  getLocationType query = "local" \/ getLocationType query = "regional".
Proof.
  intros H. apply JSFacts.includes_iff in H. unfold getLocationType.
  destruct (JS.includes query "business"); [now left|]. rewrite H. now right.
Qed.

Lemma city_query_local (city : string) :
  getLocationType (city ++ " business") = "local".
Proof. apply type_of_business. exists (city ++ " "), "". now rewrite JSFacts.append_assoc. Qed.

Lemma country_query_local (country : string) :
  getLocationType (country ++ " business news") = "local".
Proof.
  apply type_of_business. exists (country ++ " "), " news".
  now rewrite JSFacts.append_assoc.
Qed.

Lemma state_query_type (state : string) :
  getLocationType (state ++ " economy")
  = if JS.includes (state ++ " economy") "business" then "local" else "regional".
Proof.
  unfold getLocationType. destruct (JS.includes (state ++ " economy") "business");
    [reflexivity|].
  assert (H : JS.includes (state ++ " economy") "economy" = true)
    by (apply JSFacts.includes_iff; exists (state ++ " "), "";
        now rewrite JSFacts.append_assoc).
  now rewrite H.
Qed.

Lemma made_labelled (city state country query : string) (a : Article) :
  getLocationType query = "local" \/ getLocationType query = "regional" ->
  location_made city state country query a ->
  labelled city state country a /\ well_formed a.
Proof.
  intros Hty (Hc & Ht & Hv & _ & Hw). split; [|exact Hw].
  split; [exact Hc|]. split.
  - rewrite Ht. destruct Hty as [-> | ->]; auto.
  - rewrite Hv. unfold getLocationValue.
    destruct (JS.includes query city); [now left|].
    destruct (JS.includes query state); [right; now left | right; right; now left].
Qed.

Lemma three_queries_typed (state : string) :
  getLocationType (state ++ " economy") = "local"
  \/ getLocationType (state ++ " economy") = "regional".
Proof.
  rewrite state_query_type. destruct (JS.includes _ _); auto.
Qed.

(** The articles of the three queries, all labelled local or regional. *)
Lemma location_all_labelled (city state country : string) (p1 p2 p3 : list Article) :
  Forall (location_made city state country (city ++ " business")) p1 ->
  Forall (location_made city state country (state ++ " economy")) p2 ->
  Forall (location_made city state country (country ++ " business news")) p3 ->
  Forall (fun a => labelled city state country a /\ well_formed a)
         (p1 ++ p2 ++ p3)%list.
Proof.
  intros F1 F2 F3. repeat (apply Forall_app; split).
  - revert F1. apply Forall_impl. intros a. apply made_labelled.
    left. apply city_query_local.
  - revert F2. apply Forall_impl. intros a. apply made_labelled.
    apply three_queries_typed.
  - revert F3. apply Forall_impl. intros a. apply made_labelled.
    left. apply country_query_local.
Qed.

Lemma filter_all {A} (f : A -> bool) (l : list A) :
  Forall (fun a => f a = true) l -> filter f l = l.
Proof.
  induction 1 as [|a l Ha _ IH]; cbn; [reflexivity|]. now rewrite Ha, IH.
Qed.

Lemma filter_none {A} (f : A -> bool) (l : list A) :
  Forall (fun a => f a = false) l -> filter f l = [].
Proof.
  induction 1 as [|a l Ha _ IH]; cbn; [reflexivity|]. now rewrite Ha.
Qed.

Lemma has_type_of_made (city state country query ty : string) (a : Article) :
  location_made city state country query a ->
  has_location_type ty a = String.eqb (getLocationType query) ty.
Proof.
  intros (_ & Ht & _). unfold has_location_type. now rewrite Ht.
Qed.

End LabelFacts.

(** X9.  [getLocationBasedNews] never labels an article "national": whatever the
    places and the news source are, every article it returns is labelled
    local or regional, names one of the three places, and is well formed
    (score between 0 and 9, title and description without tags and trimmed,
    a source name); with an empty city every article names the empty
    place. *)
Theorem getLocationBasedNews_labels :
  (forall (city state country : string) (limit : Z)
          (env : Effects.Env) (w : Effects.World),
      exists l w',
        NewsService.getLocationBasedNews city state country limit env w
        = (Effects.Ok l, w')
        /\ Forall (Props.labelled city state country) l
        /\ Forall Props.well_formed l)
  /\ (forall (state country : string) (limit : Z)
             (env : Effects.Env) (w : Effects.World),
         Forall (fun a => location_value a = Some "")
                (Spec.returned
                   (NewsService.getLocationBasedNews "" state country limit env w))).
Proof.
  split.
  - intros city state country limit env w.
    destruct (FrameFacts.getLocationBasedNews_made city state country limit env w)
      as (p1 & p2 & p3 & w' & E & _ & F1 & F2 & F3 & _).
    eexists. exists w'. split; [exact E|].
    pose proof (LabelFacts.location_all_labelled _ _ _ _ _ _ F1 F2 F3) as H.
    split; apply JSFacts.Forall_slice0; revert H; apply Forall_impl; tauto.
  - intros state country limit env w.
    destruct (FrameFacts.getLocationBasedNews_made "" state country limit env w)
      as (p1 & p2 & p3 & w' & E & _ & F1 & F2 & F3 & _).
    unfold Spec.returned. rewrite E. cbn [fst].
    apply JSFacts.Forall_slice0. repeat (apply Forall_app; split);
      [revert F1 | revert F2 | revert F3]; apply Forall_impl;
      intros a (_ & _ & Hv & _); rewrite Hv; unfold NewsService.getLocationValue;
      now rewrite StringFacts.includes_empty.
Qed.

Module BucketFacts.
Import Effects NewsService Props.

Lemma bucket_typed (ty : string) (l : list Article) :
  Forall (fun a => location_type a = Some ty)
         (JS.slice0 5 (filter (has_location_type ty) l)).
Proof.
  apply JSFacts.Forall_slice0, Forall_forall. intros a Ha.
  apply filter_In in Ha as [_ Ha]. unfold has_location_type in Ha.
  destruct (location_type a); [|discriminate].
  apply String.eqb_eq in Ha. now subst.
Qed.

Lemma no_national (city state country : string) (l : list Article) :
  Forall (fun a => labelled city state country a /\ well_formed a) l ->
  filter (has_location_type "national") l = [].
Proof.
  intros H. apply LabelFacts.filter_none. revert H. apply Forall_impl.
  intros a [(_ & [Ht|Ht] & _) _]; unfold has_location_type; now rewrite Ht.
Qed.

Lemma industry_well_formed env (xs : list string) (pss : list (list Article)) :
  Forall2 (fun i ps => Forall (industry_made i) ps
                       /\ (always_rejects env -> List.length ps = 3%nat)) xs pss ->
  Forall (fun a => exists i, In i xs /\ industry_made i a) (List.concat pss).
Proof.
  apply ProducerFacts.Forall2_concat. now intros x ps [H _].
Qed.

(** The buckets of a result that is returned. *)
Lemma buckets_made (p : UserProfile) env w :
  JsObject.get CAREER_INDUSTRIES (career_field p) <> JsObject.Inherited ->
  exists news w',
    getPersonalizedNews p env w = (Ok news, w')
    /\ national news = []
    /\ Forall (fun a => location_type a = Some "local") (local news)
    /\ Forall (fun a => location_type a = Some "regional") (regional news)
    /\ Forall well_formed (all_articles news).
Proof.
  intros Hget.
  destruct (PersonalizedFacts.getPersonalizedNews_made p env w Hget) as
      (p1 & p2 & p3 & pss & glob & issued & w' & E & _ & _ & _
       & F1 & F2 & F3 & HQ & Hg & _).
  pose proof (LabelFacts.location_all_labelled _ _ _ _ _ _ F1 F2 F3) as HL.
  apply (JSFacts.Forall_slice0 _ (5 * 3)) in HL.
  pose proof (industry_well_formed env _ _ HQ) as HI.
  apply (JSFacts.Forall_slice0 _ 5) in HI.
  eexists. exists w'. split; [exact E|].
  cbn [national local regional industry_news global all_articles].
  split; [now rewrite (no_national _ _ _ _ HL)|].
  split; [apply bucket_typed|]. split; [apply bucket_typed|].
  assert (Hwf : Forall well_formed (JS.slice0 (5 * 3) (p1 ++ p2 ++ p3)%list))
    by (revert HL; apply Forall_impl; tauto).
  repeat (apply Forall_app; split).
  - now apply JSFacts.Forall_slice0, RunFacts.Forall_filter.
  - now apply JSFacts.Forall_slice0, RunFacts.Forall_filter.
  - now apply JSFacts.Forall_slice0, RunFacts.Forall_filter.
  - apply JSFacts.Forall_slice0. revert HI. apply Forall_impl.
    intros a (i & _ & _ & _ & _ & Hw). exact Hw.
  - apply JSFacts.Forall_slice0. revert Hg. apply Forall_impl.
    intros a (_ & _ & _ & Hw). exact Hw.
Qed.

End BucketFacts.

(** X10.  The national bucket of [getPersonalizedNews] is always empty, the local
    bucket holds articles labelled local, the regional bucket articles
    labelled regional, and every article of the result is well formed
    (score between 0 and 9, title and description without tags and trimmed,
    a source name). *)
Theorem getPersonalizedNews_national_empty :
  forall (p : UserProfile) (env : Effects.Env) (w : Effects.World),
    let news := Spec.returned_news (NewsService.getPersonalizedNews p env w) in
    national news = []
    /\ Forall (fun a => location_type a = Some "local") (local news)
    /\ Forall (fun a => location_type a = Some "regional") (regional news)
    /\ Forall Props.well_formed (Props.all_articles news).
Proof.
  intros p env w.
  destruct (JsObject.get NewsService.CAREER_INDUSTRIES (career_field p)) eqn:G.
  2:{ destruct (PersonalizedFacts.getPersonalizedNews_throws p env w G)
        as (issued & w' & E & _).
      unfold Spec.returned_news. rewrite E. cbn. repeat split; constructor. }
  all: destruct (BucketFacts.buckets_made p env w) as (news & w' & E & H);
    [congruence|]; unfold Spec.returned_news; rewrite E; exact H.
Qed.

Module CountFacts.
Import Effects NewsService Props.

Lemma slice0_all {A} (e : Z) (l : list A) :
  (Z.of_nat (List.length l) <= e)%Z -> JS.slice0 e l = l.
Proof.
  intros H. unfold JS.slice0. destruct (Z.ltb_spec e 0); [lia|].
  apply firstn_all2. lia.
Qed.

Lemma slice0_length_min {A} (e : Z) (l : list A) :
  (0 <= e)%Z -> List.length (JS.slice0 e l) = Nat.min (Z.to_nat e) (List.length l).
Proof.
  intros H. unfold JS.slice0. destruct (Z.ltb_spec e 0); [lia|].
  apply length_firstn.
Qed.

Lemma slice0_prefix {A} (e : Z) (l1 l2 : list A) :
  (0 <= e <= Z.of_nat (List.length l1))%Z ->
  JS.slice0 e (l1 ++ l2) = JS.slice0 e l1.
Proof.
  intros H. unfold JS.slice0. destruct (Z.ltb_spec e 0); [lia|].
  rewrite firstn_app.
  replace (Z.to_nat e - List.length l1)%nat with 0%nat by lia.
  cbn [firstn]. apply app_nil_r.
Qed.

Lemma concat_length_3 {A B} (R : A -> list B -> Prop) (xs : list A)
      (pss : list (list B)) :
  (forall x ps, R x ps -> List.length ps = 3%nat) ->
  Forall2 R xs pss ->
  List.length (List.concat pss) = (3 * List.length xs)%nat.
Proof.
  intros HR H. induction H as [|x ps xs pss Hx _ IH]; cbn [List.concat List.length].
  - reflexivity.
  - rewrite length_app, IH, (HR _ _ Hx). lia.
Qed.

Lemma filter_made (city state country query ty : string) (l : list Article) :
  Forall (location_made city state country query) l ->
  filter (has_location_type ty) l
  = if String.eqb (getLocationType query) ty then l else [].
Proof.
  intros H. destruct (String.eqb (getLocationType query) ty) eqn:E.
  - apply LabelFacts.filter_all. revert H. apply Forall_impl. intros a Ha.
    now rewrite (LabelFacts.has_type_of_made _ _ _ _ ty a Ha).
  - apply LabelFacts.filter_none. revert H. apply Forall_impl. intros a Ha.
    now rewrite (LabelFacts.has_type_of_made _ _ _ _ ty a Ha).
Qed.

(** Every list of the table has at least two industries. *)
Lemma table_lists (careerField : string) (l : list string) :
  JsObject.get CAREER_INDUSTRIES careerField = JsObject.Own l ->
  List.length (firstn 2 l) = 2%nat.
Proof.
  unfold JsObject.get.
  destruct (find (fun p => String.eqb (fst p) careerField) CAREER_INDUSTRIES)
    as [[k v]|] eqn:F.
  - intros H. injection H as ->. apply find_some in F as [F _].
    cbn in F. repeat (destruct F as [F|F]; [injection F as _ <-; reflexivity|]).
    contradiction.
  - destruct (existsb _ _); discriminate.
Qed.

Lemma industries_asked_length (careerField : string) :
  List.length (industries_asked careerField)
  = match JsObject.get CAREER_INDUSTRIES careerField with
    | JsObject.Own _ => 2%nat
    | JsObject.Undefined => 1%nat
    | JsObject.Inherited => 0%nat
    end.
Proof.
  unfold industries_asked.
  destruct (JsObject.get CAREER_INDUSTRIES careerField) eqn:G;
    [now apply (table_lists careerField) | reflexivity | reflexivity].
Qed.

Lemma always_rejects_failing (offset : Z) : always_rejects (Spec.failing_env offset).
Proof. intros k q n. eexists. reflexivity. Qed.

End CountFacts.

(** X11.  When every request fails the result is made of placeholders: for every
    profile whose career field is no inherited property, the local bucket has
    five articles, the regional bucket three (none when the state query
    contains "business"), the national bucket none, the industry bucket five
    for a career field of the table and three otherwise, the global bucket
    three. *)
Theorem getPersonalizedNews_when_all_requests_fail :
  forall (p : UserProfile) (env : Effects.Env) (w : Effects.World),
    Props.always_rejects env ->
    JsObject.get NewsService.CAREER_INDUSTRIES (career_field p) <> JsObject.Inherited ->
    exists news w',
      NewsService.getPersonalizedNews p env w = (Effects.Ok news, w')
      /\ List.length (local news) = 5%nat
      /\ List.length (regional news)
         = (if JS.includes (state p ++ " economy") "business" then 0 else 3)%nat
      /\ List.length (national news) = 0%nat
      /\ List.length (industry_news news)
         = (match JsObject.get NewsService.CAREER_INDUSTRIES (career_field p) with
            | JsObject.Own _ => 5
            | _ => 3
            end)%nat
      /\ List.length (global news) = 3%nat.
Proof.
  intros p env w Hrej Hget.
  destruct (PersonalizedFacts.getPersonalizedNews_made p env w Hget) as
      (p1 & p2 & p3 & pss & glob & issued & w' & E & _ & _ & _
       & F1 & F2 & F3 & HQ & _ & L).
  destruct (L Hrej) as (L1 & L2 & L3 & Lg).
  eexists. exists w'. split; [exact E|].
  cbn [national local regional industry_news global].
  rewrite (CountFacts.slice0_all (5 * 3) (p1 ++ p2 ++ p3)%list)
    by (rewrite !length_app, L1, L2, L3; cbn; lia).
  rewrite !filter_app.
  rewrite !(CountFacts.filter_made _ _ _ _ _ _ F1),
          !(CountFacts.filter_made _ _ _ _ _ _ F2),
          !(CountFacts.filter_made _ _ _ _ _ _ F3).
  rewrite LabelFacts.city_query_local, LabelFacts.country_query_local,
          LabelFacts.state_query_type.
  assert (Hi : List.length (List.concat pss)
               = (3 * List.length (Props.industries_asked (career_field p)))%nat).
  { apply (CountFacts.concat_length_3 _ _ _ (fun x ps H => proj2 H Hrej) HQ). }
  rewrite CountFacts.industries_asked_length in Hi.
  rewrite !CountFacts.slice0_length_min by lia.
  rewrite Hi, Lg.
  destruct (JS.includes (state p ++ " economy") "business");
    cbn [String.eqb Ascii.eqb Bool.eqb andb];
    rewrite ?length_app, ?L1, ?L2, ?L3;
    destruct (JsObject.get NewsService.CAREER_INDUSTRIES (career_field p));
    try contradiction; repeat split; reflexivity.
Qed.

Lemma getPersonalizedNews_when_all_requests_fail_witness :
  exists news w',
    NewsService.getPersonalizedNews (mkProfile "Ottawa" "ON" "CA" "technology")
      (Spec.failing_env 0) Spec.empty_world = (Effects.Ok news, w')
    /\ List.length (local news) = 5%nat
    /\ List.length (regional news) = 3%nat
    /\ List.length (national news) = 0%nat
    /\ List.length (industry_news news) = 5%nat
    /\ List.length (global news) = 3%nat.
Proof.
  apply (getPersonalizedNews_when_all_requests_fail
           (mkProfile "Ottawa" "ON" "CA" "technology")
           (Spec.failing_env 0) Spec.empty_world).
  - apply CountFacts.always_rejects_failing.
  - discriminate.
Defined.

(** X12.  [getIndustryNews] on a career field that is no inherited property and
    with a limit that is not negative returns at most [limit] articles (not
    two times [limit]), each made for one of the industries it asked about,
    after one request per industry; it asks about two industries for a
    career field of the table and about the career field itself
    otherwise. *)
Theorem getIndustryNews_at_most :
  (forall (careerField : string) (limit : Z) (env : Effects.Env) (w : Effects.World),
      (0 <= limit)%Z ->
      JsObject.get NewsService.CAREER_INDUSTRIES careerField <> JsObject.Inherited ->
      exists l w',
        NewsService.getIndustryNews careerField limit env w = (Effects.Ok l, w')
        /\ (Z.of_nat (List.length l) <= limit)%Z
        /\ Forall (fun a => exists i, In i (Props.industries_asked careerField)
                                      /\ Props.industry_made i a) l
        /\ Effects.requests w'
           = (Effects.requests w
              ++ map (fun i => ((i ++ " business news")%string, limit))
                     (Props.industries_asked careerField))%list)
  /\ (forall careerField : string,
         List.length (Props.industries_asked careerField)
         = match JsObject.get NewsService.CAREER_INDUSTRIES careerField with
           | JsObject.Own _ => 2%nat
           | JsObject.Undefined => 1%nat
           | JsObject.Inherited => 0%nat
           end).
Proof.
  split; [|apply CountFacts.industries_asked_length].
  intros careerField limit env w Hlimit Hget.
  destruct (ProducerFacts.getIndustryNews_made careerField limit env w Hget) as
      (pss & w' & E & R & _ & HQ & _).
  eexists. exists w'. split; [exact E|].
  split; [now apply JSFacts.slice0_length|].
  split; [|exact R].
  apply JSFacts.Forall_slice0. now apply (BucketFacts.industry_well_formed env).
Qed.

Lemma getIndustryNews_at_most_witness :
  exists l w',
    NewsService.getIndustryNews "technology" 5 (Spec.failing_env 0) Spec.empty_world
    = (Effects.Ok l, w')
    /\ (Z.of_nat (List.length l) <= 5)%Z
    /\ Forall (fun a => exists i, In i (Props.industries_asked "technology")
                                  /\ Props.industry_made i a) l
    /\ Effects.requests w'
       = (Effects.requests Spec.empty_world
          ++ map (fun i => ((i ++ " business news")%string, 5%Z))
                 (Props.industries_asked "technology"))%list.
Proof.
  apply (proj1 getIndustryNews_at_most "technology" 5%Z
           (Spec.failing_env 0) Spec.empty_world); discriminate.
Defined.

(** X13.  The first industry crowds out the second: when the news source answers
    the first request of [getIndustryNews] with at least [limit] articles,
    every article returned is about the first industry, although the second
    request is still sent. *)
Theorem getIndustryNews_first_industry_first :
  forall (careerField : string) (limit : Z) (env : Effects.Env) (w : Effects.World)
         (l : list Raw.t),
    (0 <= limit <= Z.of_nat (List.length l))%Z ->
    JsObject.get NewsService.CAREER_INDUSTRIES careerField <> JsObject.Inherited ->
    Effects.upstream env (List.length (Effects.requests w))
                     (hd "" (Props.industries_asked careerField) ++ " business news")
                     limit
    = Effects.Resolved (Some l) ->
    let run := NewsService.getIndustryNews careerField limit env w in
    Forall (fun a => industry a = Some (hd "" (Props.industries_asked careerField)))
           (Spec.returned run)
    /\ List.length (Effects.requests (snd run))
       = (List.length (Effects.requests w)
          + List.length (Props.industries_asked careerField))%nat.
Proof.
  intros careerField limit env w l Hlimit Hget Hup run. subst run.
  destruct (ProducerFacts.getIndustryNews_made careerField limit env w Hget) as
      (pss & w' & E & R & _ & HQ & HU).
  assert (Hne : Props.industries_asked careerField <> []).
  { intros H. pose proof (CountFacts.industries_asked_length careerField) as HL.
    rewrite H in HL. cbn in HL.
    destruct (JsObject.get NewsService.CAREER_INDUSTRIES careerField);
      [discriminate | contradiction | discriminate]. }
  specialize (HU l Hup Hne).
  rewrite E. unfold Spec.returned. cbn [fst snd]. split.
  - destruct HQ as [|i ps xs pss' [Hi _] _]; [now contradiction Hne|].
    cbn [hd List.concat] in *.
    rewrite CountFacts.slice0_prefix by lia.
    apply JSFacts.Forall_slice0. revert Hi. apply Forall_impl.
    intros a (_ & Ha & _). exact Ha.
  - rewrite R, length_app, length_map. reflexivity.
Qed.

Lemma getIndustryNews_first_industry_first_witness :
  let env := Props.answering_env [Spec.scenario_article 1700000000000;
                                  Spec.scenario_article 1700000000000] in
  let run := NewsService.getIndustryNews "finance" 2 env Spec.empty_world in
  Forall (fun a => industry a = Some "finance") (Spec.returned run)
  /\ List.length (Effects.requests (snd run)) = 2%nat.
Proof.
  apply (getIndustryNews_first_industry_first "finance" 2
           (Props.answering_env [Spec.scenario_article 1700000000000;
                                 Spec.scenario_article 1700000000000])
           Spec.empty_world
           [Spec.scenario_article 1700000000000; Spec.scenario_article 1700000000000]).
  - cbn. lia.
  - discriminate.
  - reflexivity.
Defined.

(** X14.  [getPersonalizedNews] fails for one reason only: it throws, with the
    message "Failed to fetch personalized news", exactly when the career
    field names a property inherited from [Object.prototype]; on every other
    profile, whatever the news source answers, it returns buckets of at most
    five articles. *)
Theorem getPersonalizedNews_outcome :
  forall (p : UserProfile) (env : Effects.Env) (w : Effects.World),
    match JsObject.get NewsService.CAREER_INDUSTRIES (career_field p) with
    | JsObject.Inherited =>
        fst (NewsService.getPersonalizedNews p env w)
        = Effects.Throw "Failed to fetch personalized news"
    | _ =>
        exists news,
          fst (NewsService.getPersonalizedNews p env w) = Effects.Ok news
          /\ Spec.buckets_at_most 5 news
    end.
Proof.
  intros p env w.
  destruct (JsObject.get NewsService.CAREER_INDUSTRIES (career_field p)) eqn:G.
  2:{ destruct (PersonalizedFacts.getPersonalizedNews_throws p env w G)
        as (issued & w' & E & _).
      now rewrite E. }
  all: destruct (getPersonalizedNews_buckets p env w) as (news & w' & E & H);
    [congruence|]; exists news; now rewrite E.
Qed.

(** X15.  The engine never touches the database: after [fetchNewsFromAPI],
    [getLocationBasedNews], [getIndustryNews] and [getPersonalizedNews] the
    cache table, the time of the last refresh and the number of statements
    run are what they were, whether the call returns or throws. *)
Theorem engine_leaves_database_alone :
  forall (env : Effects.Env) (w : Effects.World),
    (forall query pageSize,
        Props.same_database w (snd (NewsService.fetchNewsFromAPI query pageSize env w)))
    /\ (forall city state country limit,
           Props.same_database
             w (snd (NewsService.getLocationBasedNews city state country limit env w)))
    /\ (forall careerField limit,
           Props.same_database
             w (snd (NewsService.getIndustryNews careerField limit env w)))
    /\ (forall p,
           Props.same_database w (snd (NewsService.getPersonalizedNews p env w))).
Proof.
  intros env w. split; [|split; [|split]].
  - intros query pageSize.
    destruct (FrameFacts.fetch_frame query pageSize env w) as (a & w' & E & _ & D & _).
    now rewrite E.
  - intros city state country limit.
    destruct (FrameFacts.getLocationBasedNews_made city state country limit env w)
      as (p1 & p2 & p3 & w' & E & D & _).
    now rewrite E.
  - intros careerField limit.
    destruct (JsObject.get NewsService.CAREER_INDUSTRIES careerField) eqn:G.
    2:{ rewrite (RunFacts.getIndustryNews_inherited careerField limit env w G).
        apply FrameFacts.same_database_refl. }
    all: destruct (ProducerFacts.getIndustryNews_made careerField limit env w) as
        (pss & w' & E & _ & D & _); [congruence|]; now rewrite E.
  - intros p.
    destruct (JsObject.get NewsService.CAREER_INDUSTRIES (career_field p)) eqn:G.
    2:{ destruct (PersonalizedFacts.getPersonalizedNews_throws p env w G)
          as (issued & w' & E & _ & _ & D).
        now rewrite E. }
    all: destruct (PersonalizedFacts.getPersonalizedNews_made p env w) as
        (p1 & p2 & p3 & pss & glob & issued & w' & E & _ & _ & D & _); [congruence|];
      now rewrite E.
Qed.

(** X16.  [fetchNewsFromAPI] always returns, after exactly one request: the
    articles of the response as they are (it does not cut them to
    [pageSize]), no article when the body of the response has no list of
    articles, and three placeholders when the request fails or when the
    response has no body (reading [articles] of a missing body throws, inside
    the [try]). *)
Theorem fetchNewsFromAPI_cases :
  forall (query : string) (pageSize : Z) (env : Effects.Env) (w : Effects.World),
  exists articles w',
    NewsService.fetchNewsFromAPI query pageSize env w = (Effects.Ok articles, w')
    /\ Effects.requests w' = (Effects.requests w ++ [(query, pageSize)])%list
    /\ match Effects.upstream env (List.length (Effects.requests w)) query pageSize with
       | Effects.Resolved (Some l) => articles = l
       | Effects.Resolved None => articles = []
       | Effects.NoBody | Effects.Rejected _ =>
           List.length articles = 3%nat
           /\ NewsService.getMockNewsData
                query env (snd (Effects.axios_get query pageSize env w))
              = (Effects.Ok articles, w')
       end.
Proof.
  intros query pageSize env w.
  unfold NewsService.fetchNewsFromAPI, Effects.try_catch, Effects.bind,
    Effects.axios_get.
  destruct (Effects.upstream env (List.length (Effects.requests w)) query pageSize)
    as [[l|]| |msg]; cbn [fst snd Effects.ret Effects.throw];
    do 2 eexists; (split; [reflexivity|]); (split; [reflexivity|]);
    try reflexivity; (split; [reflexivity|]);
    match goal with
    | |- ?m = _ => destruct m as [r w1] eqn:E
    end; cbn in E; injection E as <- <-; reflexivity.
Qed.

(* ================================================================= *)
(** ** Further properties of the cache *)

Module CacheFacts.
Import Effects NewsService NewsCache Props.
Local Open Scope Z_scope.

Lemma refresh_run env w :
  db_fails env (statements w) = false ->
  refreshNewsCache env w
  = (Ok tt,
     mkWorld (requests w) (drawn w) (S (S (ticks w))) (S (statements w))
             (filter (fun r => negb (created_at r
                                     <? (clock env (ticks w) - 6 * HOUR
                                         + utcOffset env * MINUTE) / SECOND))
                     (news_articles w))
             (Some (clock env (S (ticks w))))).
Proof.
  intros H. unfold refreshNewsCache, try_catch, bind, moment, format_local,
              runQuery_delete_older, set_lastRefresh.
  cbn. rewrite H. reflexivity.
Qed.

Lemma save_run (article : Article) env w u :
  db_fails env (statements w) = false -> url article = Some u ->
  saveArticleToCache article env w
  = (Ok tt,
     mkWorld (requests w) (drawn w) (S (ticks w)) (S (statements w))
             (filter (fun r => negb (String.eqb (id (row_article r)) (id article)))
                     (news_articles w)
              ++ [mkRow (bound_values article)
                        (CURRENT_TIMESTAMP (clock env (ticks w)))])%list
             (lastRefresh w)).
Proof.
  intros H Hu. unfold saveArticleToCache, try_catch, runQuery_insert_or_replace.
  now rewrite H, Hu.
Qed.

Lemma rows_of_others (i j : string) (rows : list Row) :
  i <> j ->
  rows_of i (filter (fun r => negb (String.eqb (id (row_article r)) j)) rows)
  = rows_of i rows.
Proof.
  intros Hij. unfold rows_of. induction rows as [|r rows IH]; [reflexivity|].
  cbn [filter]. destruct (String.eqb (id (row_article r)) j) eqn:Ej; cbn [negb filter].
  - apply String.eqb_eq in Ej.
    destruct (String.eqb (id (row_article r)) i) eqn:Ei; [|exact IH].
    apply String.eqb_eq in Ei. congruence.
  - destruct (String.eqb (id (row_article r)) i); now rewrite IH.
Qed.

Lemma rows_of_removed (i : string) (rows : list Row) :
  rows_of i (filter (fun r => negb (String.eqb (id (row_article r)) i)) rows) = [].
Proof.
  unfold rows_of. induction rows as [|r rows IH]; [reflexivity|].
  cbn [filter]. destruct (String.eqb (id (row_article r)) i) eqn:E; cbn [negb filter].
  - exact IH.
  - now rewrite E.
Qed.

Lemma rows_of_app (i : string) (a b : list Row) :
  rows_of i (a ++ b) = (rows_of i a ++ rows_of i b)%list.
Proof. apply filter_app. Qed.

Lemma cached_ids_filter_NoDup (f : Row -> bool) (rows : list Row) :
  NoDup (cached_ids rows) -> NoDup (cached_ids (filter f rows)).
Proof.
  unfold cached_ids. induction rows as [|r rows IH]; cbn; [auto|].
  intros H. inversion H as [|x l Hx Hl]; subst.
  destruct (f r); cbn; auto. constructor; auto.
  intros Hin. apply Hx. apply in_map_iff in Hin as (r' & E & Hr').
  apply filter_In in Hr' as [Hr' _]. apply in_map_iff. now exists r'.
Qed.

Lemma removed_not_cached (i : string) (rows : list Row) :
  ~ In i (cached_ids (filter (fun r => negb (String.eqb (id (row_article r)) i)) rows)).
Proof.
  unfold cached_ids. intros H. apply in_map_iff in H as (r & E & Hr).
  apply filter_In in Hr as [_ Hr]. apply negb_true_iff in Hr.
  apply String.eqb_neq in Hr. contradiction.
Qed.

Lemma div_second_mono (a b : Z) : a <= b -> a / SECOND <= b / SECOND.
Proof. intros H. apply Z.div_le_mono; [reflexivity | exact H]. Qed.

Lemma div_second_lt (a b : Z) : a + SECOND <= b -> a / SECOND < b / SECOND.
Proof.
  unfold SECOND. intros H. Z.div_mod_to_equations. lia.
Qed.

End CacheFacts.

(** X17.  The retention window follows the time zone of the server.  When the
    statement runs, [refreshNewsCache] returns, records the time of the
    refresh, keeps the rows it keeps as they were and in their order, keeps
    every row written at most 6 hours minus the UTC offset before the call
    and deletes every row written at least one second earlier than that. *)
Theorem refreshNewsCache_window :
  forall (env : Effects.Env) (w : Effects.World),
    Effects.db_fails env (Effects.statements w) = false ->
    let now := Effects.clock env (Effects.ticks w) in
    let run := NewsService.refreshNewsCache env w in
    fst run = Effects.Ok tt
    /\ Effects.lastRefresh (snd run) = Some (Effects.clock env (S (Effects.ticks w)))
    /\ Effects.requests (snd run) = Effects.requests w
    /\ (exists keep, Effects.news_articles (snd run)
                     = filter keep (Effects.news_articles w))
    /\ (forall r t,
           In r (Effects.news_articles w) ->
           created_at r = Effects.CURRENT_TIMESTAMP t ->
           ((now - t <= Props.retention (Effects.utcOffset env))%Z ->
            In r (Effects.news_articles (snd run)))
           /\ ((Props.retention (Effects.utcOffset env) + SECOND <= now - t)%Z ->
               ~ In r (Effects.news_articles (snd run)))).
Proof.
  intros env w Hdb now run. subst run.
  rewrite (CacheFacts.refresh_run env w Hdb). cbn [fst snd Effects.lastRefresh
    Effects.requests Effects.news_articles].
  split; [reflexivity|]. split; [reflexivity|]. split; [reflexivity|].
  split; [eexists; reflexivity|].
  intros r t Hr Ht. unfold Props.retention, Effects.CURRENT_TIMESTAMP in *.
  rewrite filter_In, Ht, negb_true_iff, Z.ltb_ge. fold now. split.
  - intros H. split; [exact Hr|]. apply CacheFacts.div_second_mono. lia.
  - intros H [_ K].
    assert (t / SECOND < (now - 6 * HOUR + Effects.utcOffset env * MINUTE) / SECOND)%Z
      by (apply CacheFacts.div_second_lt; lia).
    lia.
Qed.

Lemma refreshNewsCache_window_witness :
  let now := 1700000000000%Z in
  let old := Spec.cached_at (now - 7 * HOUR) in
  let young := Spec.cached_at (now - 1 * HOUR) in
  let run := NewsService.refreshNewsCache (Spec.failing_env 0)
                                          (Spec.world_with [old; young]) in
  In young (Effects.news_articles (snd run))
  /\ ~ In old (Effects.news_articles (snd run)).
Proof.
  intros now old young run.
  pose proof (refreshNewsCache_window (Spec.failing_env 0)
                (Spec.world_with [old; young]) eq_refl) as (_ & _ & _ & _ & H).
  split.
  - apply (proj1 (H young (now - 1 * HOUR)%Z (or_intror (or_introl eq_refl)) eq_refl)).
    vm_compute. discriminate.
  - apply (proj2 (H old (now - 7 * HOUR)%Z (or_introl eq_refl) eq_refl)).
    vm_compute. discriminate.
Defined.

(** X18.  A failure of the database is swallowed: [refreshNewsCache] still
    returns, deletes nothing and does not record a refresh. *)
Theorem refreshNewsCache_database_failure :
  forall (env : Effects.Env) (w : Effects.World),
    Effects.db_fails env (Effects.statements w) = true ->
    let run := NewsService.refreshNewsCache env w in
    fst run = Effects.Ok tt
    /\ Effects.news_articles (snd run) = Effects.news_articles w
    /\ Effects.lastRefresh (snd run) = Effects.lastRefresh w
    /\ Effects.requests (snd run) = Effects.requests w.
Proof.
  intros env w H run. subst run.
  unfold NewsService.refreshNewsCache, Effects.try_catch, Effects.bind,
    Effects.moment, Effects.format_local, Effects.runQuery_delete_older,
    Effects.set_lastRefresh.
  cbn. rewrite H. repeat split; reflexivity.
Qed.

Lemma refreshNewsCache_database_failure_witness :
  let w := Spec.world_with [Spec.cached_at 1600000000000] in
  let run := NewsService.refreshNewsCache Props.broken_db_env w in
  fst run = Effects.Ok tt
  /\ Effects.news_articles (snd run) = Effects.news_articles w
  /\ Effects.lastRefresh (snd run) = Effects.lastRefresh w
  /\ Effects.requests (snd run) = Effects.requests w.
Proof.
  exact (refreshNewsCache_database_failure Props.broken_db_env
           (Spec.world_with [Spec.cached_at 1600000000000]) eq_refl).
Defined.

(** X19.  [saveArticleToCache] never throws, sends no request, and leaves the
    table as it was when the database fails or the article has no [url]. *)
Theorem saveArticleToCache_never_throws :
  forall (article : Article) (env : Effects.Env) (w : Effects.World),
    let run := NewsCache.saveArticleToCache article env w in
    fst run = Effects.Ok tt
    /\ Effects.requests (snd run) = Effects.requests w
    /\ Effects.lastRefresh (snd run) = Effects.lastRefresh w
    /\ (if Effects.db_fails env (Effects.statements w) then
          Effects.news_articles (snd run) = Effects.news_articles w
        else match url article with
             | None => Effects.news_articles (snd run) = Effects.news_articles w
             | Some _ => In (NewsCache.bound_values article)
                            (map row_article (Effects.news_articles (snd run)))
             end).
Proof.
  intros article env w run. subst run.
  unfold NewsCache.saveArticleToCache, Effects.try_catch,
    NewsCache.runQuery_insert_or_replace.
  destruct (Effects.db_fails env (Effects.statements w)); [now repeat split|].
  destruct (url article); cbn; repeat split.
  rewrite map_app. apply in_or_app. right. now left.
Qed.

(** X20.  An upsert by [id]: when the statement runs and the article has a [url],
    the table holds exactly one row for the article afterwards, with the
    values bound and the current time stamp; the rows of every other article
    are untouched; and identifiers that were unique stay unique. *)
Theorem saveArticleToCache_upsert :
  forall (article : Article) (env : Effects.Env) (w : Effects.World) (u : string),
    Effects.db_fails env (Effects.statements w) = false ->
    url article = Some u ->
    let rows := Effects.news_articles (snd (NewsCache.saveArticleToCache article env w)) in
    Props.rows_of (id article) rows
    = [mkRow (NewsCache.bound_values article)
             (Effects.CURRENT_TIMESTAMP (Effects.clock env (Effects.ticks w)))]
    /\ (forall i, i <> id article ->
                  Props.rows_of i rows = Props.rows_of i (Effects.news_articles w))
    /\ (NoDup (Props.cached_ids (Effects.news_articles w)) ->
        NoDup (Props.cached_ids rows)).
Proof.
  intros article env w u Hdb Hu rows. subst rows.
  rewrite (CacheFacts.save_run article env w u Hdb Hu).
  cbn [snd Effects.news_articles].
  split; [|split].
  - rewrite CacheFacts.rows_of_app, CacheFacts.rows_of_removed.
    unfold Props.rows_of. cbn. now rewrite String.eqb_refl.
  - intros i Hi. rewrite CacheFacts.rows_of_app, CacheFacts.rows_of_others by exact Hi.
    unfold Props.rows_of at 2. cbn [filter row_article NewsCache.bound_values id].
    apply String.eqb_neq in Hi. rewrite String.eqb_sym, Hi. apply app_nil_r.
  - intros Hn. unfold Props.cached_ids. rewrite map_app.
    apply NoDup_app; [now apply CacheFacts.cached_ids_filter_NoDup | |].
    + cbn. constructor; [intros [] | constructor].
    + intros i Hi [<-|[]]. revert Hi. apply CacheFacts.removed_not_cached.
Qed.

Lemma saveArticleToCache_upsert_witness :
  let rows := Effects.news_articles
                (snd (NewsCache.saveArticleToCache (Props.sample_article "a")
                        (Spec.failing_env 0)
                        (Spec.world_with [mkRow (Props.sample_article "a") 0;
                                          mkRow (Props.sample_article "b") 0]))) in
  Props.rows_of "a" rows
  = [mkRow (NewsCache.bound_values (Props.sample_article "a"))
           (Effects.CURRENT_TIMESTAMP 1700000000000)]
  /\ Props.rows_of "b" rows = [mkRow (Props.sample_article "b") 0]
  /\ NoDup (Props.cached_ids rows).
Proof.
  intros rows.
  pose proof (saveArticleToCache_upsert (Props.sample_article "a")
                (Spec.failing_env 0)
                (Spec.world_with [mkRow (Props.sample_article "a") 0;
                                  mkRow (Props.sample_article "b") 0])
                "https://example.com/news/1" eq_refl eq_refl) as (H1 & H2 & H3).
  split; [exact H1|]. split.
  - apply (H2 "b"). discriminate.
  - apply H3. repeat constructor; cbn; intuition discriminate.
Defined.

(** X21.  Saving is idempotent up to the time stamp: saving an article a second
    time leaves the same articles in the table, in the same order. *)
Theorem saveArticleToCache_twice :
  forall (article : Article) (env : Effects.Env) (w : Effects.World) (u : string),
    Effects.db_fails env (Effects.statements w) = false ->
    Effects.db_fails env (S (Effects.statements w)) = false ->
    url article = Some u ->
    let once := snd (NewsCache.saveArticleToCache article env w) in
    let twice := snd (NewsCache.saveArticleToCache article env once) in
    map row_article (Effects.news_articles twice)
    = map row_article (Effects.news_articles once).
Proof.
  intros article env w u H1 H2 Hu once twice. subst twice once.
  rewrite (CacheFacts.save_run article env w u H1 Hu). cbn [snd].
  rewrite (CacheFacts.save_run article env _ u); [| exact H2 | exact Hu].
  cbn [snd Effects.news_articles].
  rewrite filter_app. cbn [filter row_article NewsCache.bound_values id].
  rewrite String.eqb_refl. cbn [negb]. rewrite app_nil_r.
  rewrite !map_app. f_equal.
  f_equal. induction (Effects.news_articles w) as [|r rows IH]; [reflexivity|].
  cbn [filter]. destruct (negb (String.eqb (id (row_article r)) (id article))) eqn:E;
    cbn [filter]; rewrite ?E, IH; reflexivity.
Qed.

Lemma saveArticleToCache_twice_witness :
  let w := Spec.world_with [mkRow (Props.sample_article "b") 0] in
  let once := snd (NewsCache.saveArticleToCache (Props.sample_article "a")
                     (Spec.failing_env 0) w) in
  let twice := snd (NewsCache.saveArticleToCache (Props.sample_article "a")
                      (Spec.failing_env 0) once) in
  map row_article (Effects.news_articles twice)
  = map row_article (Effects.news_articles once).
Proof.
  exact (saveArticleToCache_twice (Props.sample_article "a") (Spec.failing_env 0)
           (Spec.world_with [mkRow (Props.sample_article "b") 0])
           "https://example.com/news/1" eq_refl eq_refl eq_refl).
Defined.

(** X22.  Saving then refreshing: an article saved less than the retention window
    (6 hours minus the UTC offset of the server) before the refresh is still
    in the table after it. *)
Theorem saved_article_survives_refresh :
  forall (article : Article) (env : Effects.Env) (w : Effects.World) (u : string),
    Effects.db_fails env (Effects.statements w) = false ->
    Effects.db_fails env (S (Effects.statements w)) = false ->
    url article = Some u ->
    let saved_at := Effects.clock env (Effects.ticks w) in
    let now := Effects.clock env (S (Effects.ticks w)) in
    (now - saved_at <= Props.retention (Effects.utcOffset env))%Z ->
    In (mkRow (NewsCache.bound_values article) (Effects.CURRENT_TIMESTAMP saved_at))
       (Effects.news_articles
          (snd (NewsService.refreshNewsCache
                  env (snd (NewsCache.saveArticleToCache article env w))))).
Proof.
  intros article env w u H1 H2 Hu saved_at now Hage.
  rewrite (CacheFacts.save_run article env w u H1 Hu). cbn [snd].
  rewrite CacheFacts.refresh_run by exact H2.
  cbn [snd Effects.news_articles Effects.ticks].
  apply filter_In. split.
  - apply in_or_app. right. now left.
  - cbn [created_at]. apply negb_true_iff, Z.ltb_ge.
    unfold Effects.CURRENT_TIMESTAMP. apply CacheFacts.div_second_mono.
    unfold Props.retention in Hage. fold now. fold saved_at. lia.
Qed.

Lemma saved_article_survives_refresh_witness :
  In (mkRow (NewsCache.bound_values (Props.sample_article "a"))
            (Effects.CURRENT_TIMESTAMP 1700000000000))
     (Effects.news_articles
        (snd (NewsService.refreshNewsCache
                (Spec.failing_env 0)
                (snd (NewsCache.saveArticleToCache (Props.sample_article "a")
                        (Spec.failing_env 0) Spec.empty_world))))).
Proof.
  apply (saved_article_survives_refresh (Props.sample_article "a")
           (Spec.failing_env 0) Spec.empty_world "https://example.com/news/1"
           eq_refl eq_refl eq_refl).
  vm_compute. discriminate.
Defined.

(* ================================================================= *)
(** ** The search route *)

Module SearchFacts.
Import JS Effects NewsService NewsRoutes Props.

Lemma replaceAll_safe (s : string) :
  forall k, all_chars safe_char (replaceAll match_unsafe k s) = true.
Proof.
  induction s as [|c r IH]; intros k; [reflexivity|].
  cbn [replaceAll]. destruct k as [|k]; [|apply IH].
  unfold match_unsafe. destruct (safe_char c) eqn:E.
  - cbn [all_chars]. now rewrite E, IH.
  - apply IH.
Qed.

Lemma trimStart_all (p : ascii -> bool) (s : string) :
  all_chars p s = true -> all_chars p (trimStart s) = true.
Proof.
  induction s as [|c r IH]; [reflexivity|]. intros H.
  cbn [trimStart]. destruct (is_space c); [|exact H].
  cbn [all_chars] in H. apply andb_true_iff in H as [_ H]. auto.
Qed.

Lemma trimEnd_all (p : ascii -> bool) (s : string) :
  all_chars p s = true -> all_chars p (trimEnd s) = true.
Proof.
  induction s as [|c r IH]; [reflexivity|]. intros H.
  cbn [all_chars] in H. apply andb_true_iff in H as [Hc Hr].
  cbn [trimEnd]. specialize (IH Hr).
  destruct (trimEnd r) as [|x r'].
  - destruct (is_space c); [reflexivity|]. cbn [all_chars]. now rewrite Hc.
  - change (all_chars p (String c (String x r')))
      with (p c && all_chars p (String x r')).
    now rewrite Hc, IH.
Qed.

Lemma safe_no_match (s : string) :
  all_chars safe_char s = true -> no_match match_unsafe s = true.
Proof.
  induction s as [|c r IH]; [reflexivity|]. intros H.
  cbn [all_chars] in H. apply andb_true_iff in H as [Hc Hr].
  cbn [no_match match_unsafe]. rewrite Hc. auto.
Qed.

Lemma sanitizeQuery_safe (q : string) :
  all_chars safe_char (sanitizeQuery q) = true.
Proof.
  unfold sanitizeQuery, trim. apply trimEnd_all, trimStart_all, replaceAll_safe.
Qed.

Lemma insert_In {A} (cmp : A -> A -> Z) (x z : A) (l : list A) :
  In z (insert_sorted cmp x l) -> z = x \/ In z l.
Proof.
  induction l as [|y r IH]; cbn [insert_sorted].
  - intros [<-|[]]. now left.
  - destruct (cmp x y <=? 0)%Z.
    + intros [<-|H]; [now left | now right].
    + intros [<-|H]; [right; now left|].
      destruct (IH H) as [->|Hr]; [now left | right; now right].
Qed.

Lemma insert_perm {A} (cmp : A -> A -> Z) (x : A) (l : list A) :
  Permutation (insert_sorted cmp x l) (x :: l).
Proof.
  induction l as [|y r IH]; cbn [insert_sorted]; [reflexivity|].
  destruct (cmp x y <=? 0)%Z; [reflexivity|].
  rewrite IH. apply perm_swap.
Qed.

Lemma sort_perm {A} (cmp : A -> A -> Z) (l : list A) :
  Permutation (sort cmp l) l.
Proof.
  induction l as [|x r IH]; cbn; [reflexivity|].
  fold (sort cmp r). rewrite insert_perm. now constructor.
Qed.

Lemma insert_descending (x : SearchResult) (l : list SearchResult) :
  descending l -> descending (insert_sorted by_relevance x l).
Proof.
  unfold descending. induction 1 as [|y r Hr IH Hy]; cbn [insert_sorted].
  - repeat constructor.
  - unfold by_relevance at 1.
    destruct (Z.leb_spec (r_relevance_score y - r_relevance_score x) 0).
    + constructor; [now constructor|]. constructor; [lia|].
      revert Hy. apply Forall_impl. intros z Hz. lia.
    + constructor; [exact IH|].
      apply Forall_forall. intros z Hz. apply insert_In in Hz as [->|Hz]; [lia|].
      rewrite Forall_forall in Hy. now apply Hy.
Qed.

Lemma sort_descending (l : list SearchResult) :
  descending (sort by_relevance l).
Proof.
  induction l as [|x r IH]; cbn.
  - constructor.
  - apply insert_descending. exact IH.
Qed.

End SearchFacts.

(** X23.  The text sent to the news source by the search route holds only word
    characters, white space and hyphens, has no white space at either end,
    and sanitizing it a second time changes nothing. *)
Theorem sanitizeQuery_safe_and_idempotent :
  forall query : string,
    let out := NewsRoutes.sanitizeQuery query in
    Props.all_chars NewsRoutes.safe_char out = true
    /\ JS.trim out = out
    /\ NewsRoutes.sanitizeQuery out = out.
Proof.
  intros query out.
  assert (Hs : Props.all_chars NewsRoutes.safe_char out = true)
    by apply SearchFacts.sanitizeQuery_safe.
  assert (Ht : JS.trim out = out) by apply SanitizeFacts.trim_idem.
  split; [exact Hs|]. split; [exact Ht|].
  unfold NewsRoutes.sanitizeQuery at 1.
  rewrite SanitizeFacts.replaceAll_no_match by now apply SearchFacts.safe_no_match.
  exact Ht.
Qed.

(** X24.  The search route never answers 500 and never lets an empty query
    through: without a query, or with one that has no safe character, it
    answers 400 and sends no request; otherwise it sends the one request
    "<sanitized query> business" and answers with as many results as the
    news source returned articles, in descending order of relevance, each
    scored between 0 and 9. *)
Theorem search_outcome :
  forall (q : option string) (limit : Z) (env : Effects.Env) (w : Effects.World),
  exists response w',
    NewsRoutes.search q limit env w = (Effects.Ok response, w')
    /\ match response with
       | NewsRoutes.Failure status _ =>
           status = 400%Z
           /\ Effects.requests w' = Effects.requests w
           /\ NewsRoutes.sanitizeQuery (JS.orElse q "") = ""
       | NewsRoutes.Success query articles count =>
           query = NewsRoutes.sanitizeQuery (JS.orElse q "")
           /\ query <> ""
           /\ Effects.requests w'
              = (Effects.requests w ++ [((query ++ " business")%string, limit)])%list
           /\ count = List.length articles
           /\ count = List.length (Spec.returned
                                     (NewsService.fetchNewsFromAPI
                                        (query ++ " business") limit env w))
           /\ Props.descending articles
           /\ Forall (fun a => (0 <= NewsRoutes.r_relevance_score a <= 9)%Z) articles
       end.
Proof.
  intros q limit env w. unfold NewsRoutes.search, Effects.try_catch.
  destruct q as [[|c r]|]; try (do 2 eexists; split; [reflexivity|]; now repeat split).
  cbn [JS.orElse].
  destruct (NewsRoutes.sanitizeQuery (String c r)) as [|c' r'] eqn:S.
  - do 2 eexists. split; [reflexivity|]. now repeat split.
  - destruct (FrameFacts.fetch_frame (String c' r' ++ " business") limit env w)
      as (arts & w1 & E1 & R1 & _).
    rewrite (RunFacts.bind_ok _ _ _ _ _ _ E1).
    match goal with
    | |- context [Effects.mapM ?f arts] =>
        assert (Hf : forall a w2, exists b w3,
                   f a env w2 = (Effects.Ok b, w3)
                   /\ Effects.requests w3 = Effects.requests w2
                   /\ Props.same_database w2 w3
                   /\ (fun _ b => (0 <= NewsRoutes.r_relevance_score b <= 9)%Z) a b);
        [| destruct (FrameFacts.mapM_frame f _ env Hf arts w1)
            as (bs & w2 & E2 & R2 & _ & HP)]
    end.
    + intros a w2. do 2 eexists. split; [reflexivity|].
      split; [reflexivity|]. split; [now repeat split|].
      apply ScoreEdges.score_bounds.
    + rewrite (RunFacts.bind_ok _ _ _ _ _ _ E2). cbn [Effects.ret].
      do 2 eexists. split; [reflexivity|].
      pose proof (Forall2_length HP) as HL.
      pose proof (SearchFacts.sort_perm Props.by_relevance bs) as Hperm.
      split; [reflexivity|]. split; [discriminate|].
      split; [congruence|]. split; [reflexivity|].
      split; [|split].
      * unfold Spec.returned. rewrite E1. cbn [fst].
        rewrite HL. now apply Permutation_length.
      * apply SearchFacts.sort_descending.
      * apply FrameFacts.Forall2_right in HP.
        apply (Permutation_Forall (Permutation_sym Hperm)). exact HP.
Qed.
